(** * influencia-backend: session store, hybrid guard, rate limiter and
      token encryption, embedded from the TypeScript sources

    The development follows the layering of the backend:

    - [Js]: results of asynchronous calls (a value or a thrown exception)
      and the state-and-exception monad in which the services run;
    - [Redis]: the key-value server the services talk to (string and set
      values, per-key expiry against the server clock);
    - [RedisService]: [src/common/redis/redis.service.ts];
    - [SessionService]: [src/common/redis/session.service.ts];
    - [Guards]: [src/auth/guards/session-auth.guard.ts];
    - [RateLimit]: [src/common/middleware/rate-limit.middleware.ts];
    - [Base64], [TokenEncryption]:
      [src/social/security/token-encryption.service.ts];
    - [AuthService], [AuthController]: login and the session endpoints of
      the auth service and its controller;
    - [RedisModule], [HealthController]: the reconnect strategy of the
      client and the health probes. *)

From Stdlib Require Import ZArith Lia Ascii DecimalString DecimalZ.
From stdpp Require Import base option list gmap sets strings sorting.

Local Open Scope Z_scope.
#[local] Set Warnings "-clear-no-such-hyp".

(** ** Results, exceptions and the service monad *)

Module Js.

(** What a rejected promise or a [throw] carries. *)
Inductive exn : Type :=
| StoreError
    (* the redis client rejected: connection lost or an error reply *)
| UnauthorizedException (message : string)
| HttpException (statusCode : Z) (message : string) (retryAfter : Z)
| Error (message : string).

Inductive result (A : Type) : Type :=
| Ok (a : A)
| Throw (e : exn).
Arguments Ok {A} a.
Arguments Throw {A} e.

(** [error instanceof HttpException] *)
Definition instanceof_HttpException (e : exn) : bool :=
  match e with
  | HttpException _ _ _ => true
  | UnauthorizedException _ => true (* NestJS: a subclass of HttpException *)
  | _ => false
  end.

(** An [async] method over a mutable state [St]. *)
Definition M (St A : Type) : Type := St -> result A * St.

Definition ret {St A} (a : A) : M St A := fun s => (Ok a, s).

Definition throw {St A} (e : exn) : M St A := fun s => (Throw e, s).

Definition bind {St A B} (m : M St A) (k : A -> M St B) : M St B :=
  fun s =>
    match m s with
    | (Ok a, s') => k a s'
    | (Throw e, s') => (Throw e, s')
    end.

(** [try { m } catch (error) { h error }]: state changes made by [m]
    before it threw are kept. *)
Definition try_catch {St A} (m : M St A) (h : exn -> M St A) : M St A :=
  fun s =>
    match m s with
    | (Ok a, s') => (Ok a, s')
    | (Throw e, s') => h e s'
    end.

Definition modify {St} (f : St -> St) : M St unit := fun s => (Ok tt, f s).

(** [for (const x of xs) { await body x }] *)
Fixpoint for_of {St A} (xs : list A) (body : A -> M St unit) : M St unit :=
  match xs with
  | [] => ret tt
  | x :: xs' => bind (body x) (fun _ => for_of xs' body)
  end.

End Js.

Export Js.

Notation "'let*' x ':=' m 'in' k" := (bind m (fun x => k))
  (at level 10, x name, m at level 100, k at level 200, only parsing).
Notation "m ';;' k" := (bind m (fun _ => k))
  (at level 100, k at level 200, right associativity, only parsing).

(** ** The key-value server

    The server is not part of the repository; its commands are written
    after the Redis command reference, for the two kinds of value the
    services store (strings and sets). Time is the clock of the server in
    whole seconds, the unit of EXPIRE, SETEX and TTL; a key whose expiry has
    been reached is gone for every command. Counters are unbounded
    integers. *)

Module Redis.

Inductive rvalue : Type :=
| RStr (s : string)
| RSet (members : gset string).

Record entry : Type := Entry {
  value : rvalue;
  expires_at : option Z   (* server time, seconds; [None]: persistent *)
}.

Record redis : Type := Server {
  db : gmap string entry;
  clock : Z               (* server time, seconds *)
}.

Definition empty (t : Z) : redis := Server ∅ t.

(** Time passing on the server. *)
Definition advance (dt : Z) (r : redis) : redis :=
  Server (db r) (clock r + dt).

Definition expired (now : Z) (e : entry) : bool :=
  match expires_at e with
  | Some t => t <=? now
  | None => false
  end.

(** A key is visible as long as its expiry lies in the future. *)
Definition live (r : redis) (k : string) : option entry :=
  match db r !! k with
  | Some e => if expired (clock r) e then None else Some e
  | None => None
  end.

Definition store (k : string) (e : entry) (r : redis) : redis :=
  Server (<[k := e]> (db r)) (clock r).

Definition remove (k : string) (r : redis) : redis :=
  Server (delete k (db r)) (clock r).

(** Replies: a value, or an error reply (wrong type, not an integer,
    invalid expire time). *)
Definition reply (A : Type) : Type := option A * redis.

(** Canonical decimal notation, as INCR reads and writes it. *)
Definition print_int (n : Z) : string :=
  NilEmpty.string_of_int (Z.to_int n).

Definition parse_int (s : string) : option Z :=
  match NilEmpty.int_of_string s with
  | Some d => if decide (print_int (Z.of_int d) = s)
              then Some (Z.of_int d) else None
  | None => None
  end.

Definition GET (k : string) (r : redis) : reply (option string) :=
  match live r k with
  | None => (Some None, r)
  | Some (Entry (RStr s) _) => (Some (Some s), r)
  | Some (Entry (RSet _) _) => (None, r)
  end.

Definition SET (k v : string) (r : redis) : reply unit :=
  (Some tt, store k (Entry (RStr v) None) r).

Definition SETEX (k : string) (seconds : Z) (v : string) (r : redis)
  : reply unit :=
  if 0 <? seconds
  then (Some tt, store k (Entry (RStr v) (Some (clock r + seconds))) r)
  else (None, r).

Definition DEL (k : string) (r : redis) : reply Z :=
  match live r k with
  | Some _ => (Some 1, remove k r)
  | None => (Some 0, remove k r)
  end.

Definition EXPIRE (k : string) (seconds : Z) (r : redis) : reply Z :=
  match live r k with
  | Some e =>
      if 0 <? seconds
      then (Some 1, store k (Entry (value e) (Some (clock r + seconds))) r)
      else (Some 1, remove k r)
  | None => (Some 0, r)
  end.

Definition TTL (k : string) (r : redis) : reply Z :=
  match live r k with
  | None => (Some (-2), r)
  | Some (Entry _ None) => (Some (-1), r)
  | Some (Entry _ (Some t)) => (Some (t - clock r), r)
  end.

Definition INCR (k : string) (r : redis) : reply Z :=
  match live r k with
  | None => (Some 1, store k (Entry (RStr (print_int 1)) None) r)
  | Some (Entry (RStr s) exp) =>
      match parse_int s with
      | Some n =>
          (Some (n + 1), store k (Entry (RStr (print_int (n + 1))) exp) r)
      | None => (None, r)
      end
  | Some (Entry (RSet _) _) => (None, r)
  end.

Definition SADD (k : string) (vs : list string) (r : redis) : reply Z :=
  match live r k with
  | None =>
      (Some (Z.of_nat (size (list_to_set vs : gset string))),
       store k (Entry (RSet (list_to_set vs)) None) r)
  | Some (Entry (RSet m) exp) =>
      (Some (Z.of_nat (size (list_to_set vs ∖ m : gset string))),
       store k (Entry (RSet (m ∪ list_to_set vs)) exp) r)
  | Some (Entry (RStr _) _) => (None, r)
  end.

Definition SMEMBERS (k : string) (r : redis) : reply (list string) :=
  match live r k with
  | None => (Some [], r)
  | Some (Entry (RSet m) _) => (Some (elements m), r)
  | Some (Entry (RStr _) _) => (None, r)
  end.

(** A set that becomes empty is removed together with its key. *)
Definition SREM (k : string) (vs : list string) (r : redis) : reply Z :=
  match live r k with
  | None => (Some 0, r)
  | Some (Entry (RSet m) exp) =>
      let m' : gset string := m ∖ list_to_set vs in
      (Some (Z.of_nat (size (m ∩ list_to_set vs : gset string))),
       if decide (m' = ∅) then remove k r
       else store k (Entry (RSet m') exp) r)
  | Some (Entry (RStr _) _) => (None, r)
  end.

End Redis.

(** ** The process state: the server, the connection and its failures *)

Record world : Type := World {
  kv : Redis.redis;
  faults : list bool;  (* for each coming command: does the connection fail *)
  errors : nat         (* store errors raised so far *)
}.

(** A world whose connection never fails. *)
Definition reliable (r : Redis.redis) : world := World r [] 0.

(** One round trip to the server. A command whose connection fails is not
    applied. *)
Definition command {A} (c : Redis.redis -> Redis.reply A) : M world A :=
  fun w =>
    match faults w with
    | true :: fs => (Throw StoreError, World (kv w) fs (S (errors w)))
    | fs =>
        match c (kv w) with
        | (Some a, r') => (Ok a, World r' (tail fs) (errors w))
        | (None, r') => (Throw StoreError, World r' (tail fs) (S (errors w)))
        end
    end.

(** ** Session records and their JSON form *)

Inductive jsvalue : Type :=
| JNull
| JBool (b : bool)
| JNum (n : Z)
| JStr (s : string).

(** [interface SessionData] *)
Record SessionData : Type := Session {
  sessionId : string;
  userId : string;
  email : string;
  role : string;
  tenantId : option string;
  createdAt : Z;
  lastAccessedAt : Z;
  userAgent : option string;
  ipAddress : option string;
  metadata : option (gmap string jsvalue)
}.

(** [session.lastAccessedAt = t] and [session.metadata = m] *)
Definition set_lastAccessedAt (t : Z) (s : SessionData) : SessionData :=
  Session (sessionId s) (userId s) (email s) (role s) (tenantId s)
    (createdAt s) t (userAgent s) (ipAddress s) (metadata s).

Definition set_metadata (m : option (gmap string jsvalue)) (s : SessionData)
  : SessionData :=
  Session (sessionId s) (userId s) (email s) (role s) (tenantId s)
    (createdAt s) (lastAccessedAt s) (userAgent s) (ipAddress s) m.

(** [interface CreateSessionOptions] *)
Record CreateSessionOptions : Type := Options {
  o_userId : string;
  o_email : string;
  o_role : string;
  o_tenantId : option string;
  o_userAgent : option string;
  o_ipAddress : option string;
  o_metadata : option (gmap string jsvalue)
}.

(** [JSON.stringify] and [JSON.parse] on session records. [JSON_parse]
    answers [None] where [JSON.parse] throws. *)
Class Json : Type := {
  JSON_stringify : SessionData -> string;
  JSON_parse : string -> option SessionData;
  JSON_parse_stringify : forall d, JSON_parse (JSON_stringify d) = Some d;
  JSON_parse_empty : JSON_parse "" = None
}.

(** ** [RedisService] *)

Module RedisService.
Section RedisService.
Context `{Json}.

(** JavaScript truthiness of an optional number and of a string. *)
Definition truthy_num (n : option Z) : bool :=
  match n with
  | Some n => negb (n =? 0)
  | None => false
  end.

Definition falsy_str (s : string) : bool :=
  if decide (s = "") then true else false.

Definition set (key value : string) (ttlSeconds : option Z)
  : M world unit :=
  if truthy_num ttlSeconds
  then command (Redis.SETEX key (default 0 ttlSeconds) value)
  else command (Redis.SET key value).

Definition get (key : string) : M world (option string) :=
  command (Redis.GET key).

Definition del (key : string) : M world Z :=
  command (Redis.DEL key).

Definition expire (key : string) (ttlSeconds : Z) : M world bool :=
  let* result := command (Redis.EXPIRE key ttlSeconds) in
  ret (negb (result =? 0)).

Definition ttl (key : string) : M world Z :=
  command (Redis.TTL key).

Definition setJson (key : string) (value : SessionData)
    (ttlSeconds : option Z) : M world unit :=
  set key (JSON_stringify value) ttlSeconds.

Definition getJson (key : string) : M world (option SessionData) :=
  let* value := get key in
  match value with
  | None => ret None
  | Some value =>
      if falsy_str value then ret None
      else ret (JSON_parse value)   (* a parse error is caught: null *)
  end.

Definition sAdd (key : string) (values : list string) : M world Z :=
  command (Redis.SADD key values).

Definition sMembers (key : string) : M world (list string) :=
  command (Redis.SMEMBERS key).

Definition sRem (key : string) (values : list string) : M world Z :=
  command (Redis.SREM key values).

Definition incr (key : string) : M world Z :=
  command (Redis.INCR key).

End RedisService.
End RedisService.

(** ** [Array.prototype.sort] with a comparator: a stable sort *)

Section JsSort.
Context {A : Type} (cmp : A -> A -> Z).

Fixpoint sort_insert (x : A) (l : list A) : list A :=
  match l with
  | [] => [x]
  | y :: l' => if cmp x y <=? 0 then x :: y :: l' else y :: sort_insert x l'
  end.

Fixpoint js_sort (l : list A) : list A :=
  match l with
  | [] => []
  | x :: l' => sort_insert x (js_sort l')
  end.
End JsSort.

(** ** [SessionService] *)

Module SessionService.
Section SessionService.
Context `{Json}.

(** [this.SESSION_TTL], read from the configuration (default 7 days). *)
Variable SESSION_TTL : Z.

Definition SESSION_TTL_default : Z := 7 * 24 * 60 * 60.

Definition SESSION_PREFIX : string := "session:".
Definition USER_SESSIONS_PREFIX : string := "user_sessions:".
Definition MAX_SESSIONS_PER_USER : nat := 5.

Definition getSessionKey (sessionId : string) : string :=
  SESSION_PREFIX +:+ sessionId.

Definition getUserSessionsKey (userId : string) : string :=
  USER_SESSIONS_PREFIX +:+ userId.

(** [getSession]; [now] is what [Date.now()] returns. *)
Definition getSession (sessionId : string) (now : Z)
  : M world (option SessionData) :=
  let* session := RedisService.getJson (getSessionKey sessionId) in
  match session with
  | None => ret None
  | Some session =>
      let session := set_lastAccessedAt now session in
      RedisService.setJson (getSessionKey sessionId) session
        (Some SESSION_TTL) ;;
      ret (Some session)
  end.

Definition validateSession (sessionId : string) (now : Z)
  : M world SessionData :=
  let* session := getSession sessionId now in
  match session with
  | None => throw (UnauthorizedException "Invalid or expired session")
  | Some session => ret session
  end.

Definition destroySession (sessionId : string) : M world bool :=
  let* session := RedisService.getJson (getSessionKey sessionId) in
  match session with
  | Some session =>
      let* _ := RedisService.sRem (getUserSessionsKey (userId session))
                  [sessionId] in
      ret tt
  | None => ret tt
  end ;;
  let* result := RedisService.del (getSessionKey sessionId) in
  ret (0 <? result).

Definition getUserSessions (userId : string) : M world (list string) :=
  RedisService.sMembers (getUserSessionsKey userId).

(** The loop of [destroyAllUserSessions], with its counter. *)
Fixpoint destroy_each (sessionIds : list string) (count : Z) : M world Z :=
  match sessionIds with
  | [] => ret count
  | sessionId :: rest =>
      RedisService.del (getSessionKey sessionId) ;;
      destroy_each rest (count + 1)
  end.

Definition destroyAllUserSessions (userId : string) : M world Z :=
  let* sessionIds := getUserSessions userId in
  let* count := destroy_each sessionIds 0 in
  RedisService.del (getUserSessionsKey userId) ;;
  ret count.

(** The loop of [getUserSessionsWithDetails]: push every record found. *)
Fixpoint fetch_each (sessionIds : list string) (sessions : list SessionData)
  : M world (list SessionData) :=
  match sessionIds with
  | [] => ret sessions
  | sessionId :: rest =>
      let* session := RedisService.getJson (getSessionKey sessionId) in
      match session with
      | Some session => fetch_each rest (sessions ++ [session])
      | None => fetch_each rest sessions
      end
  end.

Definition getUserSessionsWithDetails (userId : string)
  : M world (list SessionData) :=
  let* sessionIds := getUserSessions userId in
  let* sessions := fetch_each sessionIds [] in
  ret (js_sort (fun a b => lastAccessedAt b - lastAccessedAt a) sessions).

(** [{ ...session.metadata, ...metadata }] *)
Definition spread (old : option (gmap string jsvalue))
    (patch : gmap string jsvalue) : gmap string jsvalue :=
  patch ∪ default ∅ old.

Definition updateSessionMetadata (sessionId : string)
    (patch : gmap string jsvalue) (now : Z) : M world bool :=
  let* session := RedisService.getJson (getSessionKey sessionId) in
  match session with
  | None => ret false
  | Some session =>
      let session :=
        set_metadata (Some (spread (metadata session) patch)) session in
      let session := set_lastAccessedAt now session in
      RedisService.setJson (getSessionKey sessionId) session
        (Some SESSION_TTL) ;;
      ret true
  end.

Definition cleanupOldSessions (userId : string) : M world unit :=
  let* sessions := getUserSessionsWithDetails userId in
  if (length sessions <=? MAX_SESSIONS_PER_USER)%nat then ret tt
  else
    let sessionsToRemove :=
      take (length sessions - MAX_SESSIONS_PER_USER)
        (js_sort (fun a b => lastAccessedAt a - lastAccessedAt b) sessions) in
    for_of sessionsToRemove
      (fun session => let* _ := destroySession (sessionId session) in ret tt).

(** [createSession]; [sessionId] is what [generateSessionId()] returns and
    [now] what [Date.now()] returns. *)
Definition createSession (options : CreateSessionOptions)
    (sessionId : string) (now : Z) : M world SessionData :=
  let session :=
    {| sessionId := sessionId;
       userId := o_userId options;
       email := o_email options;
       role := o_role options;
       tenantId := o_tenantId options;
       createdAt := now;
       lastAccessedAt := now;
       userAgent := o_userAgent options;
       ipAddress := o_ipAddress options;
       metadata := o_metadata options |} in
  RedisService.setJson (getSessionKey sessionId) session
    (Some SESSION_TTL) ;;
  RedisService.sAdd (getUserSessionsKey (o_userId options)) [sessionId] ;;
  RedisService.expire (getUserSessionsKey (o_userId options)) SESSION_TTL ;;
  cleanupOldSessions (o_userId options) ;;
  ret session.

(** [extendSession]; the new life is [additionalSeconds || this.SESSION_TTL]. *)
Definition extendSession (sessionId : string) (additionalSeconds : option Z)
  : M world bool :=
  let ttl := if RedisService.truthy_num additionalSeconds
             then default 0 additionalSeconds
             else SESSION_TTL in
  RedisService.expire (getSessionKey sessionId) ttl.

End SessionService.
End SessionService.

(** ** Guards: [HybridAuthGuard] *)

Module Guards.

(** [request.user] *)
Record Identity : Type := User {
  u_userId : string;
  u_email : string;
  u_role : string;
  u_tenantId : option string;
  u_sessionId : option string   (* absent on the token path *)
}.

(** The decoded token: [payload.sub], [payload.email], ... *)
Record JwtPayload : Type := Payload {
  sub : string;
  p_email : string;
  p_role : string;
  tenant_id : option string
}.

(** The parts of the request the guard reads and writes. *)
Record Request : Type := Req {
  x_session_id : option string;      (* request.headers['x-session-id'] *)
  cookie_sessionId : option string;  (* request.cookies?.sessionId *)
  authorization : option string;     (* request.headers.authorization *)
  session : option SessionData;      (* request.session *)
  user : option Identity             (* request.user *)
}.

Definition set_session (s : SessionData) (r : Request) : Request :=
  Req (x_session_id r) (cookie_sessionId r) (authorization r) (Some s)
    (user r).

Definition set_user (u : Identity) (r : Request) : Request :=
  Req (x_session_id r) (cookie_sessionId r) (authorization r) (session r)
    (Some u).

(** A header or cookie counts when it is a non-empty string. *)
Definition truthy (s : option string) : option string :=
  match s with
  | Some s => if decide (s = "") then None else Some s
  | None => None
  end.

Definition extractSessionId (request : Request) : option string :=
  match truthy (x_session_id request) with
  | Some sessionHeader => Some sessionHeader
  | None => truthy (cookie_sessionId request)
  end.

(** [s.substring(n)] *)
Fixpoint substring_from (n : nat) (s : string) : string :=
  match n, s with
  | O, _ => s
  | S n', String _ s' => substring_from n' s'
  | S _, EmptyString => EmptyString
  end.

(** [s.startsWith(p)] *)
Fixpoint startsWith (p s : string) : bool :=
  match p, s with
  | EmptyString, _ => true
  | String a p', String b s' => Ascii.eqb a b && startsWith p' s'
  | String _ _, EmptyString => false
  end.

Definition extractJwt (request : Request) : option string :=
  match truthy (authorization request) with
  | Some authHeader =>
      if startsWith "Bearer " authHeader
      then Some (substring_from 7 authHeader)
      else None
  | None => None
  end.

(** [SessionAuthGuard]: a session or nothing. *)
Module SessionAuthGuard.
Section SessionAuthGuard.
Context `{Json}.
Variable SESSION_TTL : Z.

Definition canActivate (request : Request) (now : Z)
  : M world (bool * Request) :=
  match extractSessionId request with
  | None => throw (UnauthorizedException "No session ID provided")
  | Some id =>
      try_catch
        (let* session :=
           SessionService.validateSession SESSION_TTL id now in
         ret (true,
              set_user {| u_userId := userId session;
                          u_email := email session;
                          u_role := role session;
                          u_tenantId := tenantId session;
                          u_sessionId := Some (sessionId session) |}
                (set_session session request)))
        (fun error =>
           throw (UnauthorizedException "Invalid or expired session"))
  end.

End SessionAuthGuard.
End SessionAuthGuard.

Section HybridAuthGuard.
Context `{Json}.
Variable SESSION_TTL : Z.

(** [this.jwtService.verify(token)]; [None] where it throws. *)
Variable verify : string -> option JwtPayload.

(** The token half of [canActivate] ("Fall back to JWT auth"). *)
Definition jwt_auth (request : Request) : M world (bool * Request) :=
  match truthy (extractJwt request) with
  | None =>
      throw (UnauthorizedException "No authentication credentials provided")
  | Some token =>
      match verify token with
      | Some payload =>
          ret (true,
               set_user {| u_userId := sub payload;
                           u_email := p_email payload;
                           u_role := p_role payload;
                           u_tenantId := tenant_id payload;
                           u_sessionId := None |} request)
      | None => throw (UnauthorizedException "Invalid or expired token")
      end
  end.

(** [canActivate]: the request comes back with [session] and [user]
    assigned. *)
Definition canActivate (request : Request) (now : Z)
  : M world (bool * Request) :=
  match extractSessionId request with
  | Some id =>
      try_catch
        (let* session :=
           SessionService.validateSession SESSION_TTL id now in
         ret (true,
              set_user {| u_userId := userId session;
                          u_email := email session;
                          u_role := role session;
                          u_tenantId := tenantId session;
                          u_sessionId := Some (sessionId session) |}
                (set_session session request)))
        (fun error => jwt_auth request)
  | None => jwt_auth request
  end.

End HybridAuthGuard.
End Guards.

(** ** Rate limiting middlewares *)

Module RateLimit.

Record RateLimitConfig : Type := Config {
  windowMs : Z;
  maxRequests : Z;
  message : string
}.

(** What [getClientIp] reads of the request. *)
Record Request : Type := Req {
  x_forwarded_for : option string;  (* req.headers['x-forwarded-for'] *)
  ip : option string;               (* req.ip *)
  remoteAddress : option string     (* req.socket.remoteAddress *)
}.

(** One pass through a middleware: the world, the response headers set so
    far and how often [next()] was called. *)
Record exchange : Type := Exchange {
  ex_world : world;
  headers : gmap string Z;
  nexts : nat
}.

Definition start (w : world) : exchange := Exchange w ∅ 0.

(** A [RedisService] call made from the middleware. *)
Definition redisService {A} (m : M world A) : M exchange A :=
  fun x =>
    match m (ex_world x) with
    | (r, w') => (r, Exchange w' (headers x) (nexts x))
    end.

Definition setHeader (name : string) (v : Z) : M exchange unit :=
  modify (fun x => Exchange (ex_world x) (<[name := v]> (headers x)) (nexts x)).

Definition next : M exchange unit :=
  modify (fun x => Exchange (ex_world x) (headers x) (S (nexts x))).

(** [Math.ceil(a / b)] for a positive [b]. *)
Definition ceil_div (a b : Z) : Z := - ((- a) / b).

Definition TOO_MANY_REQUESTS : Z := 429.

(** White space as [String.prototype.trim] sees it in a header value. *)
Definition is_space (c : ascii) : bool :=
  let n := N_of_ascii c in
  ((9 <=? n) && (n <=? 13) || (n =? 32) || (n =? 160))%N.

Fixpoint trim_start (s : string) : string :=
  match s with
  | String c s' => if is_space c then trim_start s' else s
  | EmptyString => EmptyString
  end.

Definition trim (s : string) : string :=
  String.rev (trim_start (String.rev (trim_start s))).

(** [s.split(',')[0]] *)
Fixpoint before_comma (s : string) : string :=
  match s with
  | String c s' => if Ascii.eqb c ","%char then EmptyString
                   else String c (before_comma s')
  | EmptyString => EmptyString
  end.

Definition getClientIp (req : Request) : string :=
  match Guards.truthy (x_forwarded_for req) with
  | Some forwarded => trim (before_comma forwarded)
  | None =>
      match Guards.truthy (ip req) with
      | Some a => a
      | None => default "unknown" (Guards.truthy (remoteAddress req))
      end
  end.

Module RateLimitMiddleware.

Definition config : RateLimitConfig :=
  {| windowMs := 60 * 1000;
     maxRequests := 100;
     message := "Too many requests, please try again later." |}.

Definition key_of (req : Request) : string :=
  "ratelimit:" +:+ getClientIp req.

(** [use]; [now] is what [Date.now()] returns. *)
Definition use (req : Request) (now : Z) : M exchange unit :=
  let key := key_of req in
  try_catch
    (let* current := redisService (RedisService.incr key) in
     (if current =? 1
      then let* _ := redisService (RedisService.expire key
                              (ceil_div (windowMs config) 1000)) in
           ret tt
      else ret tt) ;;
     let* ttl := redisService (RedisService.ttl key) in
     setHeader "X-RateLimit-Limit" (maxRequests config) ;;
     setHeader "X-RateLimit-Remaining"
       (Z.max 0 (maxRequests config - current)) ;;
     setHeader "X-RateLimit-Reset" (now + ttl * 1000) ;;
     if maxRequests config <? current
     then throw (HttpException TOO_MANY_REQUESTS (message config) ttl)
     else next)
    (fun error =>
       if instanceof_HttpException error then throw error
       else next).

End RateLimitMiddleware.

Module AuthRateLimitMiddleware.

Definition config : RateLimitConfig :=
  {| windowMs := 15 * 60 * 1000;
     maxRequests := 10;
     message := "Too many login attempts, please try again later." |}.

Definition key_of (req : Request) : string :=
  "ratelimit:auth:" +:+ getClientIp req.

Definition use (req : Request) (now : Z) : M exchange unit :=
  let key := key_of req in
  try_catch
    (let* current := redisService (RedisService.incr key) in
     (if current =? 1
      then let* _ := redisService (RedisService.expire key
                              (ceil_div (windowMs config) 1000)) in
           ret tt
      else ret tt) ;;
     let* ttl := redisService (RedisService.ttl key) in
     setHeader "X-RateLimit-Limit" (maxRequests config) ;;
     setHeader "X-RateLimit-Remaining"
       (Z.max 0 (maxRequests config - current)) ;;
     if maxRequests config <? current
     then throw (HttpException TOO_MANY_REQUESTS (message config) ttl)
     else next)
    (fun error =>
       if instanceof_HttpException error then throw error
       else next).

End AuthRateLimitMiddleware.

End RateLimit.

(** ** Base64 as [Buffer] reads and writes it

    A [Buffer] is the string of its bytes. A sextet is a byte below 64. *)

Module Base64.

Definition alphabet : string :=
  "ABCDEFGHIJKLMNOPQRSTUVWXYZabcdefghijklmnopqrstuvwxyz0123456789+/".

(** The character of a sextet. *)
Definition char_of (v : ascii) : ascii :=
  default "="%char (String.get (nat_of_ascii v) alphabet).

(** The sextet of a character; the URL-safe [-] and [_] are accepted as
    well, anything else is no digit. *)
Definition unbase64 (c : ascii) : option ascii :=
  let n := N_of_ascii c in
  if ((65 <=? n) && (n <=? 90))%N then Some (ascii_of_N (n - 65))
  else if ((97 <=? n) && (n <=? 122))%N then Some (ascii_of_N (n - 71))
  else if ((48 <=? n) && (n <=? 57))%N then Some (ascii_of_N (n + 4))
  else if ((n =? 43) || (n =? 45))%N then Some (ascii_of_N 62)
  else if ((n =? 47) || (n =? 95))%N then Some (ascii_of_N 63)
  else None.

(** The four sextets of three bytes, most significant bits first. The
    constructor [Ascii] lists the bits of a byte from the least
    significant one. *)
Definition sextet1 (a : ascii) : ascii :=
  let 'Ascii _ _ a2 a3 a4 a5 a6 a7 := a in
  Ascii a2 a3 a4 a5 a6 a7 false false.

Definition sextet2 (a b : ascii) : ascii :=
  let 'Ascii a0 a1 _ _ _ _ _ _ := a in
  let 'Ascii _ _ _ _ b4 b5 b6 b7 := b in
  Ascii b4 b5 b6 b7 a0 a1 false false.

Definition sextet3 (b c : ascii) : ascii :=
  let 'Ascii b0 b1 b2 b3 _ _ _ _ := b in
  let 'Ascii _ _ _ _ _ _ c6 c7 := c in
  Ascii c6 c7 b0 b1 b2 b3 false false.

Definition sextet4 (c : ascii) : ascii :=
  let 'Ascii c0 c1 c2 c3 c4 c5 _ _ := c in
  Ascii c0 c1 c2 c3 c4 c5 false false.

Definition zero : ascii := Ascii.zero.

(** [buf.toString('base64')] *)
Fixpoint encode (bs : string) : string :=
  match bs with
  | EmptyString => EmptyString
  | String a EmptyString =>
      String (char_of (sextet1 a)) (String (char_of (sextet2 a zero)) "==")
  | String a (String b EmptyString) =>
      String (char_of (sextet1 a)) (String (char_of (sextet2 a b))
        (String (char_of (sextet3 b zero)) "="))
  | String a (String b (String c rest)) =>
      String (char_of (sextet1 a)) (String (char_of (sextet2 a b))
        (String (char_of (sextet3 b c)) (String (char_of (sextet4 c))
           (encode rest))))
  end.

(** The bytes of two, three and four sextets: [(hi << 2) | (lo >> 4)],
    [(hi << 4) | (lo >> 2)], [(hi << 6) | lo]. *)
Definition byte1 (s1 s2 : ascii) : ascii :=
  let 'Ascii x0 x1 x2 x3 x4 x5 _ _ := s1 in
  let 'Ascii _ _ _ _ y4 y5 _ _ := s2 in
  Ascii y4 y5 x0 x1 x2 x3 x4 x5.

Definition byte2 (s2 s3 : ascii) : ascii :=
  let 'Ascii y0 y1 y2 y3 _ _ _ _ := s2 in
  let 'Ascii _ _ z2 z3 z4 z5 _ _ := s3 in
  Ascii z2 z3 z4 z5 y0 y1 y2 y3.

Definition byte3 (s3 s4 : ascii) : ascii :=
  let 'Ascii z0 z1 _ _ _ _ _ _ := s3 in
  let 'Ascii t0 t1 t2 t3 t4 t5 _ _ := s4 in
  Ascii t0 t1 t2 t3 t4 t5 z0 z1.

(** The digits of a string up to the first [=]; characters that are no
    digits are skipped. *)
Fixpoint digits (s : string) : list ascii :=
  match s with
  | EmptyString => []
  | String c s' =>
      if Ascii.eqb c "="%char then []
      else match unbase64 c with
           | Some v => v :: digits s'
           | None => digits s'
           end
  end.

(** A byte is written as soon as its second digit is read; the bits of an
    incomplete last byte are dropped. *)
Fixpoint bytes_of (ds : list ascii) : string :=
  match ds with
  | s1 :: ((s2 :: ds2) as ds1) =>
      String (byte1 s1 s2)
        match ds2 with
        | s3 :: ds3 =>
            String (byte2 s2 s3)
              match ds3 with
              | s4 :: ds4 => String (byte3 s3 s4) (bytes_of ds4)
              | [] => EmptyString
              end
        | [] => EmptyString
        end
  | _ => EmptyString
  end.

(** [Buffer.from(s, 'base64')] *)
Definition decode (s : string) : string := bytes_of (digits s).

(** A [StringDecoder] for base64, as [cipher.update(.., 'base64')] and
    [cipher.final('base64')] use it: [update] writes the whole triples,
    [final] the one or two bytes left over. *)
Fixpoint whole_triples (bs : string) : string :=
  match bs with
  | String a (String b (String c rest)) =>
      String a (String b (String c (whole_triples rest)))
  | _ => EmptyString
  end.

Fixpoint leftover (bs : string) : string :=
  match bs with
  | String a (String b (String c rest)) => leftover rest
  | _ => bs
  end.

End Base64.

(** ** [TokenEncryptionService] *)

(** [aes-256-gcm] of the [crypto] module. [gcm_encrypt key iv plaintext] is
    the ciphertext that [update(plaintext, 'utf8')] and [final()] produce and
    the tag of [getAuthTag()]; [gcm_decrypt key iv tag ciphertext] is the
    text that [update(.., 'utf8')] and [final('utf8')] return. [None]
    stands for a throw: an invalid key or IV length, a tag that does not
    verify. *)
Class AesGcm : Type := {
  gcm_encrypt : string -> string -> string -> option (string * string);
  gcm_decrypt : string -> string -> string -> string -> option string;
  gcm_decrypt_encrypt : forall key iv plaintext,
    String.length key = 32%nat -> String.length iv = 16%nat ->
    exists ciphertext tag,
      gcm_encrypt key iv plaintext = Some (ciphertext, tag) /\
      gcm_decrypt key iv tag ciphertext = Some plaintext
}.

(** The tag authenticates the IV and the ciphertext: of the triples the
    decipher takes under one key with tags of one length, no two differ in
    just one of the IV, the tag and the ciphertext. That two ciphertexts
    share a tag is taken not to happen. Tags of different lengths are
    left open: [createDecipheriv] is called without [authTagLength], and
    the decipher then also takes a tag cut to one of the shorter lengths
    GCM allows. *)
Class AesGcmAuthentic (cipher : AesGcm) : Prop := {
  gcm_authentic : forall key iv1 tag1 ciphertext1 text1 iv2 tag2 ciphertext2 text2,
    gcm_decrypt key iv1 tag1 ciphertext1 = Some text1 ->
    gcm_decrypt key iv2 tag2 ciphertext2 = Some text2 ->
    String.length tag1 = String.length tag2 ->
    (iv1 = iv2 /\ ciphertext1 = ciphertext2) \/
    (iv1 = iv2 /\ tag1 = tag2) \/
    (tag1 = tag2 /\ ciphertext1 = ciphertext2) ->
    iv1 = iv2 /\ tag1 = tag2 /\ ciphertext1 = ciphertext2
}.

Module TokenEncryptionService.

(** Calls into the [crypto] module, in the order they are made. *)
Inductive call : Type :=
| RandomBytes (n : nat)
| CreateCipheriv
| CreateDecipheriv.

Definition crypto (c : call) : M (list call) unit :=
  modify (fun log => log ++ [c]).

(** [s.split(sep)] *)
Fixpoint split (sep : ascii) (s : string) : list string :=
  match s with
  | EmptyString => [EmptyString]
  | String c s' =>
      if Ascii.eqb c sep then EmptyString :: split sep s'
      else match split sep s' with
           | part :: parts => String c part :: parts
           | [] => [String c EmptyString]
           end
  end.

Section TokenEncryptionService.
Context `{AesGcm}.

(** [this.encryptionKey], fixed by the constructor (32 bytes). *)
Variable encryptionKey : string.

Definition ivLength : nat := 16.

(** [encrypt]; [iv] is what [crypto.randomBytes(this.ivLength)] returns. *)
Definition encrypt (plaintext : string) (iv : string)
  : M (list call) string :=
  if RedisService.falsy_str plaintext then ret ""
  else
    try_catch
      (crypto (RandomBytes ivLength) ;;
       crypto CreateCipheriv ;;
       match gcm_encrypt encryptionKey iv plaintext with
       | Some (ciphertext, authTag) =>
           let encrypted :=
             Base64.encode (Base64.whole_triples ciphertext)
             +:+ Base64.encode (Base64.leftover ciphertext) in
           ret (Base64.encode iv +:+ ":" +:+ Base64.encode authTag
                +:+ ":" +:+ encrypted)
       | None => throw (Error "crypto")
       end)
      (fun error => throw (Error "Failed to encrypt token")).

Definition decrypt (encryptedData : string) : M (list call) string :=
  if RedisService.falsy_str encryptedData then ret ""
  else
    try_catch
      (match split ":"%char encryptedData with
       | [ivBase64; authTagBase64; encrypted] =>
           let iv := Base64.decode ivBase64 in
           let authTag := Base64.decode authTagBase64 in
           crypto CreateDecipheriv ;;
           match gcm_decrypt encryptionKey iv authTag
                   (Base64.decode encrypted) with
           | Some decrypted => ret decrypted
           | None => throw (Error "crypto")
           end
       | _ => throw (Error "Invalid encrypted data format")
       end)
      (fun error => throw (Error "Failed to decrypt token")).

Definition isEncrypted (data : string) : bool :=
  if RedisService.falsy_str data then false
  else (length (split ":"%char data) =? 3)%nat.

End TokenEncryptionService.
End TokenEncryptionService.

(** ** [AuthService] and [AuthController]: the session endpoints *)

Module AuthService.

(** [entities/user.entity.ts], the columns the service reads. *)
Record User : Type := MkUser {
  id : string;
  u_email : string;
  password_hash : string;
  role : string;
  tenant_id : option string;
  status : string
}.

(** [const { password_hash: _, ...userWithoutPassword } = user] *)
Record UserWithoutPassword : Type := MkPublic {
  w_id : string;
  w_email : string;
  w_role : string;
  w_tenant_id : option string;
  w_status : string
}.

Definition withoutPassword (user : User) : UserWithoutPassword :=
  MkPublic (id user) (u_email user) (role user) (tenant_id user) (status user).

(** [interface AuthResponse] *)
Record AuthResponse : Type := MkAuthResponse {
  r_user : UserWithoutPassword;
  access_token : string;
  session_id : string
}.

Section AuthService.
Context `{Json}.
Variable SESSION_TTL : Z.

(** [this.userRepository.findOne({ where: { email } })],
    [bcrypt.compare(password, hash)] and [this.jwtService.sign(payload)]. *)
Variable findOne : string -> option User.
Variable compare : string -> string -> bool.
Variable sign : Guards.JwtPayload -> string.

Definition generateToken (user : User) : string :=
  sign {| Guards.sub := id user;
          Guards.p_email := u_email user;
          Guards.p_role := role user;
          Guards.tenant_id := tenant_id user |}.

(** [login]; [id'] and [now] are what [generateSessionId()] and
    [Date.now()] return inside [createSession]. The update of
    [last_login_at] goes to the database and leaves the store alone. *)
Definition login (email password : string)
    (userAgent ipAddress : option string) (id' : string) (now : Z)
  : M world AuthResponse :=
  match findOne email with
  | None =>
      throw (UnauthorizedException
               "No account found with this email. Please register first.")
  | Some user =>
      if negb (compare password (password_hash user))
      then throw (UnauthorizedException "Incorrect password. Please try again.")
      else if negb (bool_decide (status user = "active"))
      then throw (UnauthorizedException "Account is not active")
      else
        let access_token := generateToken user in
        let* session :=
          SessionService.createSession SESSION_TTL
            {| o_userId := id user;
               o_email := u_email user;
               o_role := role user;
               o_tenantId := tenant_id user;
               o_userAgent := userAgent;
               o_ipAddress := ipAddress;
               o_metadata := None |} id' now in
        ret {| r_user := withoutPassword user;
               access_token := access_token;
               session_id := sessionId session |}
  end.

(** [logout]: [{ success: true }] *)
Definition logout (sessionId : string) : M world bool :=
  let* _ := SessionService.destroySession sessionId in
  ret true.

(** [logoutAllDevices]: [{ success: true, count }] *)
Definition logoutAllDevices (userId : string) : M world (bool * Z) :=
  let* count := SessionService.destroyAllUserSessions userId in
  ret (true, count).

Definition getActiveSessions (userId : string) : M world (list SessionData) :=
  SessionService.getUserSessionsWithDetails userId.

End AuthService.
End AuthService.

Module AuthController.

(** What [logout] and [revokeSession] answer. *)
Record Answer : Type := MkAnswer {
  success : bool;
  message : option string
}.

(** A session as [getSessions] shows it. *)
Record Shown : Type := MkShown {
  shown : SessionData;   (* with the masked [sessionId] *)
  isCurrent : bool
}.

(** [s.substring(0, n)] *)
Fixpoint substring_to (n : nat) (s : string) : string :=
  match n, s with
  | S n', String c s' => String c (substring_to n' s')
  | _, _ => EmptyString
  end.

(** [s.replace(pattern, '')] for a string pattern: the first occurrence of
    the pattern is taken out. *)
Fixpoint remove_first (pattern s : string) : string :=
  if Guards.startsWith pattern s
  then Guards.substring_from (String.length pattern) s
  else match s with
       | String c s' => String c (remove_first pattern s')
       | EmptyString => EmptyString
       end.

(** [sessions.find(p)] *)
Fixpoint find {A} (p : A -> bool) (l : list A) : option A :=
  match l with
  | [] => None
  | x :: l' => if p x then Some x else find p l'
  end.

(** [s.sessionId.substring(0, 16) + '...'] *)
Definition mask (sessionId : string) : string :=
  substring_to 16 sessionId +:+ "...".

Definition set_sessionId (sid : string) (s : SessionData) : SessionData :=
  Session sid (userId s) (email s) (role s) (tenantId s) (createdAt s)
    (lastAccessedAt s) (userAgent s) (ipAddress s) (metadata s).

Section AuthController.
Context `{Json}.

(** [logout]; [user] is [req.user]. *)
Definition logout (user : Guards.Identity) : M world Answer :=
  match Guards.truthy (Guards.u_sessionId user) with
  | Some sessionId =>
      let* ok := AuthService.logout sessionId in
      ret (MkAnswer ok None)
  | None =>
      ret (MkAnswer true (Some "No session to invalidate (using JWT)"))
  end.

Definition logoutAll (user : Guards.Identity) : M world (bool * Z) :=
  AuthService.logoutAllDevices (Guards.u_userId user).

Definition getSessions (user : Guards.Identity) : M world (list Shown) :=
  let* sessions := AuthService.getActiveSessions (Guards.u_userId user) in
  ret (map (fun s =>
              MkShown (set_sessionId (mask (sessionId s)) s)
                (bool_decide (Guards.u_sessionId user = Some (sessionId s))))
         sessions).

(** [revokeSession]; [id] is the route parameter [sessionId]. *)
Definition revokeSession (user : Guards.Identity) (id : string)
  : M world Answer :=
  let* sessions := AuthService.getActiveSessions (Guards.u_userId user) in
  let targetSession :=
    find (fun s => Guards.startsWith (remove_first "..." id)
                     (sessionId s)) sessions in
  match targetSession with
  | Some targetSession =>
      let* ok := AuthService.logout (sessionId targetSession) in
      ret (MkAnswer ok None)
  | None => ret (MkAnswer false (Some "Session not found"))
  end.

End AuthController.
End AuthController.

(** ** [RedisModule]: the reconnect strategy of the client *)

Module RedisModule.

(** [reconnectStrategy]: the delay in milliseconds before the next attempt,
    or the error that ends the attempts. *)
Definition reconnectStrategy (retries : Z) : Z + exn :=
  if 10 <? retries then inr (Error "Max reconnection attempts reached")
  else inl (Z.min (retries * 100) 3000).

End RedisModule.

(** ** [HealthController] *)

Module HealthController.

(** [interface HealthCheckResponse], without the clock readings, the
    version and the environment. *)
Record HealthCheckResponse : Type := MkHealth {
  status : string;
  database : string;
  redis : string;
  ai : string
}.

(** [Object.values(services).every(s => s === 'up' || s === 'unknown')] *)
Definition allUp (services : list string) : bool :=
  forallb (fun s => bool_decide (s = "up") || bool_decide (s = "unknown"))
    services.

Definition detailedCheck : M world HealthCheckResponse :=
  let* redis :=
    try_catch
      (RedisService.set "health:check" "ok" (Some 10) ;;
       let* result := RedisService.get "health:check" in
       ret (if bool_decide (result = Some "ok") then "up" else "down"))
      (fun _ => ret "down") in
  ret {| status := if allUp ["up"; redis; "unknown"]
                   then "healthy" else "unhealthy";
         database := "up";
         redis := redis;
         ai := "unknown" |}.

(** [readiness]: [{ ready }] *)
Definition readiness : M world bool :=
  try_catch
    (let* _ := RedisService.get "health:ready" in ret true)
    (fun _ => ret false).

End HealthController.

(** ** What the properties speak of

    Readings of the server, the record a call builds, the steps the two
    limiters share, requests served in a row, and strings compared
    position by position. *)

Section Observations.
Context `{Json}.
Import Redis RedisService SessionService.

(** The session record a server holds under a session id, as [getJson]
    reads it. *)
Definition record_at (r : redis) (sid : string) : option SessionData :=
  match live r (getSessionKey sid) with
  | Some (Entry (RStr v) _) => if falsy_str v then None else JSON_parse v
  | _ => None
  end.

(** The key is used for a set. *)
Definition holds_set (r : redis) (k : string) : bool :=
  match live r k with
  | Some (Entry (RSet _) _) => true
  | _ => false
  end.

(** The key is used for a string. *)
Definition holds_string (r : redis) (k : string) : bool :=
  match live r k with
  | Some (Entry (RStr _) _) => true
  | _ => false
  end.

(** The remaining life of a key, as TTL reports it. *)
Definition ttl_of (r : redis) (k : string) : option Z := fst (TTL k r).

(** The session ids the server lists for a user. *)
Definition index_of (r : redis) (u : string) : gset string :=
  match live r (getUserSessionsKey u) with
  | Some (Entry (RSet m) _) => m
  | _ => ∅
  end.

(** The server after the keys of the sessions [ids] are deleted. *)
Definition without_sessions (ids : list string) (r : redis) : redis :=
  foldl (fun r sid => remove (getSessionKey sid) r) r ids.

(** The records of the sessions the index of a user lists, in the order in
    which the server enumerates the index. *)
Definition live_sessions (r : redis) (u : string) : list SessionData :=
  omap (record_at r) (elements (index_of r u)).

(** The index of a user and the records it lists fit together: the index
    key holds a set, every listed session key holds a string, and a listed
    record carries the id it is stored under and the user it is listed
    for. *)
Definition index_ok (r : redis) (u : string) : bool :=
  negb (holds_string r (getUserSessionsKey u)) &&
  forallb
    (fun sid =>
       match record_at r sid with
       | Some d => bool_decide (sessionId d = sid /\ userId d = u)
       | None => negb (holds_set r (getSessionKey sid))
       end)
    (elements (index_of r u)).

(** The record [createSession] builds. *)
Definition created (options : CreateSessionOptions) (sid : string) (now : Z)
  : SessionData :=
  {| sessionId := sid;
     userId := o_userId options;
     email := o_email options;
     role := o_role options;
     tenantId := o_tenantId options;
     createdAt := now;
     lastAccessedAt := now;
     userAgent := o_userAgent options;
     ipAddress := o_ipAddress options;
     metadata := o_metadata options |}.

End Observations.

Section GuardObservations.
Import Guards.

(** The identity the session path assigns. *)
Definition session_identity (s : SessionData) : Identity :=
  {| u_userId := userId s;
     u_email := email s;
     u_role := role s;
     u_tenantId := tenantId s;
     u_sessionId := Some (sessionId s) |}.

(** The identity the token path assigns. *)
Definition token_identity (p : JwtPayload) : Identity :=
  {| u_userId := sub p;
     u_email := p_email p;
     u_role := p_role p;
     u_tenantId := tenant_id p;
     u_sessionId := None |}.

End GuardObservations.

(** [x] is not placed after [y]. *)
Definition before {A : Type} (cmp : A -> A -> Z) (x y : A) : Prop :=
  cmp x y <= 0.

Section LimiterObservations.
Import Redis RateLimit.

(** Both middlewares run the same steps; the first also sets
    [X-RateLimit-Reset]. *)
Definition limiter (cfg : RateLimitConfig) (key : string)
    (with_reset : bool) (now : Z) : M exchange unit :=
  try_catch
    (let* current := redisService (RedisService.incr key) in
     (if current =? 1
      then let* _ := redisService
                       (RedisService.expire key
                          (ceil_div (windowMs cfg) 1000)) in
           ret tt
      else ret tt) ;;
     let* ttl := redisService (RedisService.ttl key) in
     setHeader "X-RateLimit-Limit" (maxRequests cfg) ;;
     setHeader "X-RateLimit-Remaining"
       (Z.max 0 (maxRequests cfg - current)) ;;
     (if with_reset
      then setHeader "X-RateLimit-Reset" (now + ttl * 1000)
      else ret tt) ;;
     if maxRequests cfg <? current
     then throw (HttpException TOO_MANY_REQUESTS
                   (message cfg) ttl)
     else next)
    (fun error =>
       if instanceof_HttpException error then throw error
       else next).

(** The response headers after a pass in which the counter read [current]
    and the key had [ttl] seconds left. *)
Definition rate_headers (cfg : RateLimitConfig) (with_reset : bool)
    (now current ttl : Z) (h : gmap string Z)
  : gmap string Z :=
  let h := <["X-RateLimit-Limit" := maxRequests cfg]> h in
  let h := <["X-RateLimit-Remaining" := Z.max 0 (maxRequests cfg - current)]> h in
  if with_reset then <["X-RateLimit-Reset" := now + ttl * 1000]> h else h.

(** The length of the window in seconds. *)
Definition window_seconds (cfg : RateLimitConfig) : Z :=
  ceil_div (windowMs cfg) 1000.

(** The key counts [c] requests and expires at server time [t]. *)
Definition counting (key : string) (r : redis) (c t : Z) : Prop :=
  live r key = Some (Entry (RStr (print_int c)) (Some t)).

(** Time passing between two requests. *)
Definition tick (dt : Z) (w : world) : world :=
  World (advance dt (kv w)) (faults w) (errors w).

(** Requests served one after another by a middleware, each on a response
    of its own; an arrival is the time since the request before it and the
    reading of [Date.now()]. *)
Fixpoint serve (use : Z -> M exchange unit) (arrivals : list (Z * Z))
    (w : world) : list (result unit * exchange) * world :=
  match arrivals with
  | [] => ([], w)
  | (dt, now) :: rest =>
      let '(res, x) := use now (start (tick dt w)) in
      let '(out, w') := serve use rest (ex_world x) in
      ((res, x) :: out, w')
  end.

Definition total (l : list Z) : Z := foldr Z.add 0 l.

(** The verdict on a request that brought the counter to [count] when the
    key had [ttl] seconds left. *)
Definition verdict (cfg : RateLimitConfig) (count ttl : Z)
    (res : result unit) (x : exchange) : Prop :=
  (count <= maxRequests cfg -> res = Ok tt /\ nexts x = 1%nat) /\
  (maxRequests cfg < count ->
     res = Throw (HttpException TOO_MANY_REQUESTS (message cfg) ttl) /\
     0 < ttl /\ nexts x = 0%nat).

(** A window served by [use] under [key], as [serve_window] describes it. *)
Definition window_served (cfg : RateLimitConfig) (key : string)
    (use : Z -> M exchange unit) (now0 : Z) (arrivals : list (Z * Z))
    (r : redis) (n : nat) : Prop :=
  exists r',
    snd (serve use ((0, now0) :: arrivals) (World r [] n)) = World r' [] n /\
    (forall (i : nat) res x,
       fst (serve use ((0, now0) :: arrivals) (World r [] n)) !! i
       = Some (res, x) ->
       counting key (kv (ex_world x)) (Z.of_nat i + 1)
         (clock r + window_seconds cfg) /\
       ttl_of (kv (ex_world x)) key
       = Some (clock r + window_seconds cfg - clock (kv (ex_world x))) /\
       headers x !! "X-RateLimit-Remaining"
       = Some (Z.max 0 (maxRequests cfg - (Z.of_nat i + 1))) /\
       verdict cfg (Z.of_nat i + 1)
         (clock r + window_seconds cfg - clock (kv (ex_world x))) res x) /\
    (forall dt now,
       clock r + window_seconds cfg <= clock r' + dt ->
       exists r'' h,
         use now (start (tick dt (World r' [] n)))
         = (Ok tt, Exchange (World r'' [] n) h 1) /\
         counting key r'' 1 (clock r' + dt + window_seconds cfg)).

(** A counter that lost its expiry, as [limiter_lost_expire] describes
    it: the connection fails at the second command of the first request of
    a window, and requests arrive afterwards. *)
Definition counter_without_expiry (cfg : RateLimitConfig) (key : string)
    (use : Z -> M exchange unit) (now : Z) (r : redis) (n : nat) : Prop :=
  exists r1,
    use now (start (World r [false; true] n))
    = (Ok tt, Exchange (World r1 [] (S n)) ∅ 1) /\
    live r1 key = Some (Entry (RStr (print_int 1)) None) /\
    forall (c dt now' : Z) (r2 : redis) (n' : nat),
      live r2 key = Some (Entry (RStr (print_int c)) None) ->
      1 <= c ->
      exists r3 h,
        use now' (start (tick dt (World r2 [] n')))
        = (if maxRequests cfg <? c + 1
           then Throw (HttpException TOO_MANY_REQUESTS (message cfg) (-1))
           else Ok tt,
           Exchange (World r3 [] n') h
             (if maxRequests cfg <? c + 1 then 0%nat else 1%nat)) /\
        h !! "X-RateLimit-Remaining" = Some (Z.max 0 (maxRequests cfg - (c + 1))) /\
        ttl_of r3 key = Some (-1) /\
        live r3 key = Some (Entry (RStr (print_int (c + 1))) None).

End LimiterObservations.

(** The strings without the delimiter. *)
Fixpoint no_colon (s : string) : bool :=
  match s with
  | EmptyString => true
  | String c s' => negb (Ascii.eqb c ":"%char) && no_colon s'
  end.

(** The strings without a dot. *)
Fixpoint no_dot (s : string) : bool :=
  match s with
  | EmptyString => true
  | String c s' => negb (Ascii.eqb c "."%char) && no_dot s'
  end.

(** The strings without a comma. *)
Fixpoint no_comma (s : string) : bool :=
  match s with
  | EmptyString => true
  | String c s' => negb (Ascii.eqb c ","%char) && no_comma s'
  end.

(** [s] with its last character replaced by [c]. *)
Fixpoint replace_last (c : ascii) (s : string) : string :=
  match s with
  | EmptyString => EmptyString
  | String x EmptyString => String c EmptyString
  | String x s' => String x (replace_last c s')
  end.

(** The number of positions at which two strings of one length differ. *)
Fixpoint differences (s1 s2 : string) : option nat :=
  match s1, s2 with
  | EmptyString, EmptyString => Some 0%nat
  | String a s1', String b s2' =>
      (fun n => if Ascii.eqb a b then n else S n) <$> differences s1' s2'
  | _, _ => None
  end.


(** ** Instances of the interfaces, for running the services on examples *)

Module Instances.

Global Instance jsvalue_eq_dec : EqDecision jsvalue.
Proof. solve_decision. Defined.

Global Instance jsvalue_countable : Countable jsvalue.
Proof.
  refine (inj_countable'
    (fun v => match v with
              | JNull => inl (inl tt)
              | JBool b => inl (inr b)
              | JNum n => inr (inl n)
              | JStr s => inr (inr s)
              end)
    (fun x => match x with
              | inl (inl _) => JNull
              | inl (inr b) => JBool b
              | inr (inl n) => JNum n
              | inr (inr s) => JStr s
              end) _).
  by intros [].
Defined.

Global Instance SessionData_eq_dec : EqDecision SessionData.
Proof. solve_decision. Defined.

Global Instance SessionData_countable : Countable SessionData.
Proof.
  refine (inj_countable'
    (fun d => (sessionId d, userId d, email d, role d, tenantId d,
               createdAt d, lastAccessedAt d, userAgent d, ipAddress d,
               metadata d))
    (fun '(a, b, c, d, e, f, g, h, i, j) => Session a b c d e f g h i j) _).
  by intros [].
Defined.

(** A document is written as the binary digits of its code. *)
Fixpoint write_code (p : positive) : string :=
  match p with
  | xH => EmptyString
  | xO q => String "0" (write_code q)
  | xI q => String "1" (write_code q)
  end.

Fixpoint read_code (s : string) : option positive :=
  match s with
  | EmptyString => Some xH
  | String c s' =>
      if Ascii.eqb c "0"%char then xO <$> read_code s'
      else if Ascii.eqb c "1"%char then xI <$> read_code s'
      else None
  end.

Lemma read_write_code p : read_code (write_code p) = Some p.
Proof. induction p as [q IH|q IH|]; simpl; by rewrite ?IH. Qed.

Definition stringify (d : SessionData) : string :=
  String "{" (write_code (encode d)).

Definition parse (s : string) : option SessionData :=
  match s with
  | String c s' =>
      if Ascii.eqb c "{"%char then read_code s' ≫= decode else None
  | EmptyString => None
  end.

Global Program Instance json : Json :=
  {| JSON_stringify := stringify; JSON_parse := parse |}.
Next Obligation.
  intros d. unfold parse, stringify. simpl.
  rewrite read_write_code. simpl. apply decode_encode.
Qed.
Next Obligation. reflexivity. Qed.

(** A cipher that leaves the text as it is and tags it with the IV. *)
Global Program Instance plain : AesGcm :=
  {| gcm_encrypt key iv plaintext := Some (plaintext, iv);
     gcm_decrypt key iv tag ciphertext :=
       if decide (tag = iv) then Some ciphertext else None |}.
Next Obligation.
  intros key iv p _ _. exists p, iv. split; [done|]. by rewrite decide_True.
Qed.


Lemma length_append (a b : string) :
  String.length (a +:+ b) = (String.length a + String.length b)%nat.
Proof.
  induction a as [|c a IH]; [done|].
  change (String c a +:+ b) with (String c (a +:+ b)).
  cbn [String.length]. by rewrite IH.
Qed.

Lemma append_inv_tail (a b t : string) : a +:+ t = b +:+ t -> a = b.
Proof.
  revert b. induction a as [|x a IH]; intros [|y b] E.
  - done.
  - apply (f_equal String.length) in E. rewrite !length_append in E.
    cbn [String.length] in E. lia.
  - apply (f_equal String.length) in E. rewrite !length_append in E.
    cbn [String.length] in E. lia.
  - change (String x (a +:+ t) = String y (b +:+ t)) in E.
    injection E as -> E. f_equal. by apply IH.
Qed.

(** A cipher that leaves the text as it is and tags it with the IV
    followed by the text: its tag holds for one IV and one text only. *)
Program Definition sealed : AesGcm :=
  {| gcm_encrypt key iv plaintext := Some (plaintext, iv +:+ plaintext);
     gcm_decrypt key iv tag ciphertext :=
       if decide (tag = iv +:+ ciphertext) then Some ciphertext else None |}.
Next Obligation.
  intros key iv p _ _. exists p, (iv +:+ p). split; [done|].
  by rewrite decide_True.
Qed.

Lemma sealed_authentic : AesGcmAuthentic sealed.
Proof.
  constructor. intros key iv1 tag1 ct1 text1 iv2 tag2 ct2 text2 H1 H2 _.
  cbn in H1, H2.
  destruct (decide (tag1 = iv1 +:+ ct1)) as [->|]; [|done].
  destruct (decide (tag2 = iv2 +:+ ct2)) as [->|]; [|done].
  intros [[-> ->]|[[-> E]|[E ->]]]; [done| |].
  - apply (inj (String.append _)) in E as ->. done.
  - apply append_inv_tail in E as ->. done.
Qed.

End Instances.

(** ** Servers and requests for the examples *)

Module Examples.
Import Redis SessionService Instances.

Definition session_of (sid : string) (created accessed : Z) : SessionData :=
  Session sid "u" "u@example.org" "creator" None created accessed None None
    None.

Definition put (d : SessionData) (m : gmap string entry) : gmap string entry :=
  <[getSessionKey (sessionId d) :=
      Entry (RStr (JSON_stringify d)) (Some 600000)]> m.

Definition index_u : gmap string entry :=
  {[ getUserSessionsKey "u" :=
       Entry (RSet {[ "s1"; "s2"; "s4"; "s5"; "s6" ]}) (Some 600000) ]}.

(** User [u] holds five sessions, last accessed one after another. *)
Definition busy : redis :=
  Server
    (put (session_of "s1" 100 150) (put (session_of "s2" 200 250)
       (put (session_of "s4" 300 350) (put (session_of "s5" 400 450)
          (put (session_of "s6" 500 550) index_u)))))
    0.

(** User [u] holds five sessions, all last accessed at time 1000. *)
Definition tied : redis :=
  Server
    (put (session_of "s1" 100 1000) (put (session_of "s2" 200 1000)
       (put (session_of "s4" 300 1000) (put (session_of "s5" 400 1000)
          (put (session_of "s6" 500 1000) index_u)))))
    0.

Definition login : CreateSessionOptions :=
  Options "u" "u@example.org" "creator" None None None None.

Definition client : RateLimit.Request :=
  RateLimit.Req None (Some "10.0.0.7") None.

(** A fresh response on an empty server whose connection is down for the
    next command, and one on an empty server that answers. *)
Definition down : RateLimit.exchange :=
  RateLimit.start (World (Redis.empty 0) [true] 0).

Definition up : RateLimit.exchange :=
  RateLimit.start (reliable (Redis.empty 0)).

Definition key32 : string := "0123456789abcdef0123456789abcdef".
Definition iv16 : string := "0000000000000000".

(** A token that verifies, and the requests of the guard examples. *)
Definition verify_demo (token : string) : option Guards.JwtPayload :=
  if decide (token = "good")
  then Some (Guards.Payload "u" "u@example.org" "creator" None)
  else None.

Definition with_session : Guards.Request :=
  Guards.Req (Some "s1") None (Some "Bearer bad") None None.

Definition with_token : Guards.Request :=
  Guards.Req None None (Some "Bearer good") None None.


(** User [u] holds two sessions. *)
Definition quiet : redis :=
  Server
    (put (session_of "s1" 100 150) (put (session_of "s2" 200 250)
       {[ getUserSessionsKey "u" :=
            Entry (RSet {[ "s1"; "s2" ]}) (Some 600000) ]}))
    0.

(** The account of user [u], and a repository, a password check and a
    signer for the login examples. *)
Definition account : AuthService.User :=
  AuthService.MkUser "u" "u@example.org" "hash-of-secret" "creator" None
    "active".

Definition accounts (email : string) : option AuthService.User :=
  if decide (email = "u@example.org") then Some account else None.

Definition compare_demo (password hash : string) : bool :=
  bool_decide ("hash-of-" +:+ password = hash).

Definition sign_demo (payload : Guards.JwtPayload) : string := "good".

(** A client that reports an address of its choice, and a server on which
    the login counter of [client] stands at nine. *)
Definition forwarder : RateLimit.Request :=
  RateLimit.Req (Some "auth:10.0.0.7") None None.

Definition nine_logins : redis :=
  Server {[ "ratelimit:auth:10.0.0.7" := Entry (RStr "9") (Some 900) ]} 0.

Definition iv16' : string := "1111111111111111".

End Examples.

(** * Properties *)

(** ** The server *)

Section RedisFacts.
Import Redis.

Lemma live_store_eq k e r :
  live (store k e r) k = if expired (clock r) e then None else Some e.
Proof. unfold live, store. simpl. by rewrite lookup_insert_eq. Qed.

Lemma live_store_ne k k' e r :
  k ≠ k' -> live (store k e r) k' = live r k'.
Proof. intros Hne. unfold live, store. simpl. by rewrite lookup_insert_ne. Qed.

Lemma live_remove_eq k r : live (remove k r) k = None.
Proof. unfold live, remove. simpl. by rewrite lookup_delete_eq. Qed.

Lemma live_remove_ne k k' r :
  k ≠ k' -> live (remove k r) k' = live r k'.
Proof. intros Hne. unfold live, remove. simpl. by rewrite lookup_delete_ne. Qed.

Lemma expired_Some v t now : expired now (Entry v (Some t)) = (t <=? now).
Proof. reflexivity. Qed.

(** Printing and reading a counter. *)
Lemma parse_print_int n : parse_int (print_int n) = Some n.
Proof.
  unfold parse_int, print_int.
  rewrite NilEmpty.isi, DecimalZ.of_to.
  by rewrite decide_True.
Qed.

End RedisFacts.

(** A command on a connection that does not fail. *)
Lemma command_reliable {A} (c : Redis.redis -> Redis.reply A) r n :
  command c (World r [] n) =
  match c r with
  | (Some a, r') => (Ok a, World r' [] n)
  | (None, r') => (Throw StoreError, World r' [] (S n))
  end.
Proof. unfold command. simpl. by destruct (c r) as [[a|] r']. Qed.


(** ** Sorting *)

Section JsSortFacts.
Context {A : Type} (cmp : A -> A -> Z).

Hypothesis before_total : forall x y, before cmp x y \/ before cmp y x.
Hypothesis before_trans : forall x y z, before cmp x y -> before cmp y z -> before cmp x z.

Lemma sort_insert_perm x l : sort_insert cmp x l ≡ₚ x :: l.
Proof.
  induction l as [|y l IH]; simpl; [done|].
  destruct (cmp x y <=? 0); [done|].
  rewrite IH. apply Permutation_swap.
Qed.

Lemma js_sort_perm l : js_sort cmp l ≡ₚ l.
Proof.
  induction l as [|x l IH]; simpl; [done|].
  by rewrite sort_insert_perm, IH.
Qed.

Lemma sort_insert_sorted x l :
  StronglySorted (before cmp) l -> StronglySorted (before cmp) (sort_insert cmp x l).
Proof.
  induction 1 as [|y l Hl IH Hy]; simpl.
  - repeat constructor.
  - destruct (cmp x y <=? 0) eqn:E.
    + apply Z.leb_le in E. constructor; [by constructor|].
      constructor; [done|].
      eapply Forall_impl; [exact Hy|]. intros z Hz. by eapply before_trans.
    + apply Z.leb_gt in E. constructor; [done|].
      rewrite sort_insert_perm. constructor; [|done].
      destruct (before_total x y) as [B|B]; [unfold before in B; lia|done].
Qed.

Lemma js_sort_sorted l : StronglySorted (before cmp) (js_sort cmp l).
Proof.
  induction l as [|x l IH]; simpl; [constructor|].
  by apply sort_insert_sorted.
Qed.

End JsSortFacts.

(** The oldest come first under [a.lastAccessedAt - b.lastAccessedAt]. *)
Lemma oldest_first (l l1 l2 : list SessionData) (x y : SessionData) :
  js_sort (fun a b => lastAccessedAt a - lastAccessedAt b) l = l1 ++ l2 ->
  x ∈ l1 -> y ∈ l2 -> lastAccessedAt x <= lastAccessedAt y.
Proof.
  intros E Hx Hy.
  pose proof (js_sort_sorted (fun a b => lastAccessedAt a - lastAccessedAt b))
    as S.
  unfold before in S.
  specialize (S ltac:(intros; lia) ltac:(intros; lia) l).
  rewrite E in S.
  pose proof (StronglySorted_app_1_elem_of _ _ _ _ _ S Hx Hy). simpl in *. lia.
Qed.

(** ** The session store *)

Section SessionFacts.
Context `{Json}.
Variable SESSION_TTL : Z.
Hypothesis SESSION_TTL_pos : 0 < SESSION_TTL.

Import Redis RedisService SessionService.

Lemma JSON_stringify_nonempty d : falsy_str (JSON_stringify d) = false.
Proof.
  unfold falsy_str. case_decide as E; [|done].
  pose proof (JSON_parse_stringify d) as P. rewrite E, JSON_parse_empty in P.
  discriminate.
Qed.

Lemma getJson_reliable r n sid :
  holds_set r (getSessionKey sid) = false ->
  getJson (getSessionKey sid) (World r [] n) = (Ok (record_at r sid), World r [] n).
Proof.
  unfold holds_set, record_at, getJson, get, bind. intros Hs.
  rewrite command_reliable. unfold GET.
  destruct (live r (getSessionKey sid)) as [[[v|m] exp]|]; try done.
  unfold ret. by destruct (falsy_str v).
Qed.

Lemma setJson_reliable r n k d :
  setJson k d (Some SESSION_TTL) (World r [] n) =
  (Ok tt,
   World (store k (Entry (RStr (JSON_stringify d)) (Some (clock r + SESSION_TTL))) r)
     [] n).
Proof.
  unfold setJson, set, truthy_num. simpl.
  replace (SESSION_TTL =? 0) with false by (symmetry; apply Z.eqb_neq; lia).
  simpl. rewrite command_reliable. unfold SETEX.
  replace (0 <? SESSION_TTL) with true by (symmetry; apply Z.ltb_lt; lia).
  done.
Qed.

Lemma record_at_store_eq r sid d :
  record_at
    (store (getSessionKey sid)
       (Entry (RStr (JSON_stringify d)) (Some (clock r + SESSION_TTL))) r) sid
  = Some d.
Proof.
  unfold record_at. rewrite live_store_eq, expired_Some.
  replace (clock r + SESSION_TTL <=? clock r) with false
    by (symmetry; apply Z.leb_gt; lia).
  by rewrite JSON_stringify_nonempty, JSON_parse_stringify.
Qed.

Lemma ttl_of_store_eq r k v :
  ttl_of (store k (Entry v (Some (clock r + SESSION_TTL))) r) k
  = Some SESSION_TTL.
Proof.
  unfold ttl_of, TTL. rewrite live_store_eq, expired_Some.
  replace (clock r + SESSION_TTL <=? clock r) with false
    by (symmetry; apply Z.leb_gt; lia).
  simpl. f_equal. lia.
Qed.

(** C1. [getSession] on an id under which the server holds no session
    record answers null without throwing, and [validateSession] throws the
    UnauthorizedException "Invalid or expired session"; on an id with a
    record, [getSession] returns the record with [lastAccessedAt] set to
    the current time and writes it back with the full [SESSION_TTL] as its
    remaining life, and [validateSession] returns that same session. *)
Theorem getSession_validateSession (sid : string) (now : Z) (r : redis) (n : nat) :
  holds_set r (getSessionKey sid) = false ->
  (record_at r sid = None ->
     getSession SESSION_TTL sid now (World r [] n) = (Ok None, World r [] n) /\
     validateSession SESSION_TTL sid now (World r [] n)
     = (Throw (UnauthorizedException "Invalid or expired session"),
        World r [] n)) /\
  (forall d, record_at r sid = Some d ->
     exists r',
       getSession SESSION_TTL sid now (World r [] n)
       = (Ok (Some (set_lastAccessedAt now d)), World r' [] n) /\
       validateSession SESSION_TTL sid now (World r [] n)
       = (Ok (set_lastAccessedAt now d), World r' [] n) /\
       lastAccessedAt (set_lastAccessedAt now d) = now /\
       record_at r' sid = Some (set_lastAccessedAt now d) /\
       ttl_of r' (getSessionKey sid) = Some SESSION_TTL /\
       (forall k, k ≠ getSessionKey sid -> live r' k = live r k)).
Proof.
  intros Hs. split.
  - intros Hnone.
    assert (getSession SESSION_TTL sid now (World r [] n)
            = (Ok None, World r [] n)) as G.
    { unfold getSession, bind. rewrite getJson_reliable, Hnone by done. done. }
    split; [done|]. unfold validateSession, bind. by rewrite G.
  - intros d Hd.
    eexists.
    assert (getSession SESSION_TTL sid now (World r [] n)
            = (Ok (Some (set_lastAccessedAt now d)),
               World (store (getSessionKey sid)
                        (Entry (RStr (JSON_stringify (set_lastAccessedAt now d)))
                           (Some (clock r + SESSION_TTL))) r) [] n)) as G.
    { unfold getSession, bind. rewrite getJson_reliable, Hd by done.
      by rewrite setJson_reliable. }
    split; [exact G|]. split.
    { unfold validateSession, bind. by rewrite G. }
    split; [done|]. split; [apply record_at_store_eq|].
    split; [apply ttl_of_store_eq|].
    intros k Hk. by apply live_store_ne.
Qed.



(** *** Keys *)

Lemma getSessionKey_inj a b : getSessionKey a = getSessionKey b -> a = b.
Proof. unfold getSessionKey. apply (inj (String.append _)). Qed.

Lemma getUserSessionsKey_inj a b :
  getUserSessionsKey a = getUserSessionsKey b -> a = b.
Proof. unfold getUserSessionsKey. apply (inj (String.append _)). Qed.

Lemma session_key_not_index_key a u : getSessionKey a ≠ getUserSessionsKey u.
Proof. intros E. cbv in E. discriminate. Qed.

Lemma live_without_sessions ids r k :
  live (without_sessions ids r) k =
  if decide (k ∈ getSessionKey <$> ids) then None else live r k.
Proof.
  unfold without_sessions. revert r.
  induction ids as [|sid ids IH]; intros r.
  - rewrite fmap_nil, decide_False; [done|]. apply not_elem_of_nil.
  - cbn [foldl]. rewrite IH, fmap_cons.
    destruct (decide (k = getSessionKey sid)) as [->|Hne].
    + rewrite live_remove_eq, (decide_True (P := _ ∈ _ :: _)) by left.
      by destruct (decide _).
    + rewrite live_remove_ne by done.
      destruct (decide _) as [E1|E1], (decide _) as [E2|E2]; try done.
      * exfalso. apply E2. by right.
      * apply elem_of_cons in E2 as [?|?]; done.
Qed.

Lemma del_reliable k r n :
  del k (World r [] n)
  = (Ok (match live r k with Some _ => 1 | None => 0 end),
     World (remove k r) [] n).
Proof.
  unfold del. rewrite command_reliable. unfold DEL. by destruct (live r k).
Qed.

Lemma destroy_each_reliable ids count r n :
  destroy_each ids count (World r [] n)
  = (Ok (count + Z.of_nat (length ids)), World (without_sessions ids r) [] n).
Proof.
  revert count r. induction ids as [|sid ids IH]; intros count r; simpl.
  - unfold ret. do 2 f_equal. lia.
  - unfold bind at 1. rewrite del_reliable, IH. do 2 f_equal. lia.
Qed.

Lemma getUserSessions_reliable u r n :
  holds_string r (getUserSessionsKey u) = false ->
  getUserSessions u (World r [] n)
  = (Ok (elements (index_of r u)), World r [] n).
Proof.
  unfold holds_string, getUserSessions, sMembers, index_of. intros Hs.
  rewrite command_reliable. unfold SMEMBERS.
  destruct (live r (getUserSessionsKey u)) as [[[v|m] exp]|]; done.
Qed.

(** C8. [destroyAllUserSessions] deletes the record of every session id
    the user's index lists, then the index itself, and returns how many
    ids it went through; [getUserSessions] right after it returns the
    empty list. Keys of other users and of sessions the index did not list
    are left as they were. *)
Theorem destroyAllUserSessions_clears (u : string) (r : redis) (n : nat) :
  holds_string r (getUserSessionsKey u) = false ->
  exists r',
    destroyAllUserSessions u (World r [] n)
    = (Ok (Z.of_nat (size (index_of r u))), World r' [] n) /\
    (forall sid, sid ∈ index_of r u ->
       live r' (getSessionKey sid) = None /\ record_at r' sid = None) /\
    live r' (getUserSessionsKey u) = None /\
    index_of r' u = ∅ /\
    getUserSessions u (World r' [] n) = (Ok [], World r' [] n) /\
    (forall k, k ≠ getUserSessionsKey u ->
       (forall sid, sid ∈ index_of r u -> k ≠ getSessionKey sid) ->
       live r' k = live r k).
Proof.
  intros Hs.
  exists (remove (getUserSessionsKey u)
            (without_sessions (elements (index_of r u)) r)).
  assert (forall sid, sid ∈ index_of r u ->
            live (remove (getUserSessionsKey u)
                    (without_sessions (elements (index_of r u)) r))
              (getSessionKey sid) = None) as Hgone.
  { intros sid Hin. rewrite live_remove_ne
      by (intros E; symmetry in E; by apply session_key_not_index_key in E).
    rewrite live_without_sessions, decide_True; [done|].
    apply list_elem_of_fmap. exists sid. split; [done|].
    by apply elem_of_elements. }
  split.
  { unfold destroyAllUserSessions, bind.
    rewrite getUserSessions_reliable by done.
    rewrite destroy_each_reliable, del_reliable. simpl. unfold ret.
    do 3 f_equal. }
  split.
  { intros sid Hin. split; [by apply Hgone|].
    unfold record_at. by rewrite Hgone. }
  split; [apply live_remove_eq|].
  split; [unfold index_of; by rewrite live_remove_eq|].
  split.
  { rewrite getUserSessions_reliable.
    - unfold index_of. by rewrite live_remove_eq, elements_empty.
    - unfold holds_string. by rewrite live_remove_eq. }
  intros k Hk Hsid. rewrite live_remove_ne by done.
  rewrite live_without_sessions, decide_False; [done|].
  intros (sid & -> & Hin)%list_elem_of_fmap.
  apply (Hsid sid); [|done]. by apply elem_of_elements.
Qed.

(** *** [updateSessionMetadata] *)

Lemma lookup_spread old patch k :
  spread old patch !! k =
  match patch !! k with
  | Some v => Some v
  | None => default ∅ old !! k
  end.
Proof.
  unfold spread. destruct (patch !! k) as [v|] eqn:E.
  - by apply lookup_union_Some_l.
  - rewrite lookup_union_r; done.
Qed.

(** C10. On a session that exists, [updateSessionMetadata] writes the
    record back with the patch merged over the stored metadata, with
    [lastAccessedAt] set to the current time and with the full
    [SESSION_TTL] as remaining life; the identity fields, [createdAt],
    [userAgent] and [ipAddress] are as before, so the session now sorts
    after every session whose [lastAccessedAt] is not later than the
    current time. When the session does not exist it returns false and the
    server is as before. *)
Theorem updateSessionMetadata_touches
    (sid : string) (patch : gmap string jsvalue) (now : Z)
    (r : redis) (n : nat) :
  holds_set r (getSessionKey sid) = false ->
  (forall d, record_at r sid = Some d ->
     exists r' d',
       updateSessionMetadata SESSION_TTL sid patch now (World r [] n)
       = (Ok true, World r' [] n) /\
       record_at r' sid = Some d' /\
       (forall k, default ∅ (metadata d') !! k =
                  match patch !! k with
                  | Some v => Some v
                  | None => default ∅ (metadata d) !! k
                  end) /\
       lastAccessedAt d' = now /\
       ttl_of r' (getSessionKey sid) = Some SESSION_TTL /\
       (sessionId d' = sessionId d /\ userId d' = userId d /\
        email d' = email d /\ role d' = role d /\
        tenantId d' = tenantId d /\ createdAt d' = createdAt d /\
        userAgent d' = userAgent d /\ ipAddress d' = ipAddress d) /\
       (forall o, lastAccessedAt o <= now ->
                  lastAccessedAt o - lastAccessedAt d' <= 0) /\
       (forall k, k ≠ getSessionKey sid -> live r' k = live r k)) /\
  (record_at r sid = None ->
     updateSessionMetadata SESSION_TTL sid patch now (World r [] n)
     = (Ok false, World r [] n)).
Proof.
  intros Hs. split.
  - intros d Hd.
    eexists. exists (set_lastAccessedAt now
               (set_metadata (Some (spread (metadata d) patch)) d)).
    split.
    { unfold updateSessionMetadata, bind.
      rewrite getJson_reliable, Hd by done.
      by rewrite setJson_reliable. }
    split; [apply record_at_store_eq|].
    split; [intros k; simpl; apply lookup_spread|].
    split; [done|].
    split; [apply ttl_of_store_eq|].
    split; [done|].
    split; [simpl; intros; lia|].
    intros k Hk. by apply live_store_ne.
  - intros Hnone. unfold updateSessionMetadata, bind.
    by rewrite getJson_reliable, Hnone.
Qed.

(** *** Capacity eviction *)

Lemma record_at_not_set r sid d :
  record_at r sid = Some d -> holds_set r (getSessionKey sid) = false.
Proof.
  unfold record_at, holds_set.
  by destruct (live r (getSessionKey sid)) as [[[v|m] e]|].
Qed.

Lemma index_ok_spec r u :
  index_ok r u = true ->
  holds_string r (getUserSessionsKey u) = false /\
  (forall sid, sid ∈ index_of r u ->
     holds_set r (getSessionKey sid) = false) /\
  (forall sid d, sid ∈ index_of r u -> record_at r sid = Some d ->
     sessionId d = sid /\ userId d = u).
Proof.
  unfold index_ok. intros [H1 H2]%andb_true_iff.
  apply negb_true_iff in H1. rewrite forallb_forall in H2.
  split; [done|]. split.
  - intros sid Hin. specialize (H2 sid).
    destruct (record_at r sid) as [d|] eqn:E.
    + by eapply record_at_not_set.
    + apply negb_true_iff, H2. by apply list_elem_of_In, elem_of_elements.
  - intros sid d Hin E. specialize (H2 sid). rewrite E in H2.
    eapply bool_decide_eq_true_1, H2. by apply list_elem_of_In, elem_of_elements.
Qed.

Lemma record_at_ext r r' sid :
  live r' (getSessionKey sid) = live r (getSessionKey sid) ->
  record_at r' sid = record_at r sid.
Proof. unfold record_at. by intros ->. Qed.

Lemma holds_set_ext r r' k :
  live r' k = live r k -> holds_set r' k = holds_set r k.
Proof. unfold holds_set. by intros ->. Qed.

Lemma holds_string_ext r r' k :
  live r' k = live r k -> holds_string r' k = holds_string r k.
Proof. unfold holds_string. by intros ->. Qed.

Lemma index_of_ext r r' u :
  live r' (getUserSessionsKey u) = live r (getUserSessionsKey u) ->
  index_of r' u = index_of r u.
Proof. unfold index_of. by intros ->. Qed.

Lemma fetch_each_reliable ids acc r n :
  (forall sid, sid ∈ ids -> holds_set r (getSessionKey sid) = false) ->
  fetch_each ids acc (World r [] n)
  = (Ok (acc ++ omap (record_at r) ids), World r [] n).
Proof.
  revert acc. induction ids as [|sid ids IH]; intros acc Hs; simpl.
  - unfold ret. by rewrite app_nil_r.
  - unfold bind. rewrite getJson_reliable by (apply Hs; left).
    destruct (record_at r sid) as [d|].
    + rewrite IH by (intros; apply Hs; by right). by rewrite <- app_assoc.
    + apply IH. intros; apply Hs; by right.
Qed.

Lemma getUserSessionsWithDetails_reliable u r n :
  holds_string r (getUserSessionsKey u) = false ->
  (forall sid, sid ∈ index_of r u ->
     holds_set r (getSessionKey sid) = false) ->
  getUserSessionsWithDetails u (World r [] n)
  = (Ok (js_sort (fun a b => lastAccessedAt b - lastAccessedAt a)
           (live_sessions r u)), World r [] n).
Proof.
  intros H1 H2. unfold getUserSessionsWithDetails, bind.
  rewrite getUserSessions_reliable by done.
  rewrite fetch_each_reliable; [done|].
  intros sid Hin. apply H2. by apply elem_of_elements.
Qed.

(** A live entry has not expired. *)
Lemma live_not_expired r k e : live r k = Some e -> expired (clock r) e = false.
Proof.
  unfold live. destruct (db r !! k) as [e'|]; [|done].
  destruct (expired (clock r) e') eqn:E; [done|]. by intros [= <-].
Qed.

Lemma destroySession_reliable sid d r n :
  record_at r sid = Some d ->
  holds_string r (getUserSessionsKey (userId d)) = false ->
  exists r',
    destroySession sid (World r [] n) = (Ok true, World r' [] n) /\
    live r' (getSessionKey sid) = None /\
    (forall k, k ≠ getSessionKey sid -> k ≠ getUserSessionsKey (userId d) ->
       live r' k = live r k) /\
    index_of r' (userId d) = index_of r (userId d) ∖ {[sid]} /\
    holds_string r' (getUserSessionsKey (userId d)) = false.
Proof.
  intros Hd Hu.
  pose proof (record_at_not_set _ _ _ Hd) as Hs.
  assert (exists e, live r (getSessionKey sid) = Some e) as [e He].
  { unfold record_at in Hd. destruct (live r (getSessionKey sid)); [eauto|done]. }
  pose proof (session_key_not_index_key sid (userId d)) as Hne.
  unfold destroySession, bind. rewrite getJson_reliable, Hd by done.
  unfold sRem. rewrite command_reliable. unfold SREM.
  unfold holds_string in Hu |- *.
  destruct (live r (getUserSessionsKey (userId d))) as [[[v|m] exp]|] eqn:Eu;
    [done| |].
  - (* the index is a set *)
    unfold ret. destruct (decide (m ∖ list_to_set [sid] = ∅)) as [Em|Em].
    + rewrite del_reliable, live_remove_ne, He by done. simpl.
      eexists. split; [done|]. split; [apply live_remove_eq|].
      split; [|split].
      * intros k H1 H2. by rewrite !live_remove_ne.
      * unfold index_of. rewrite live_remove_ne by done.
        rewrite live_remove_eq, Eu. set_solver.
      * rewrite live_remove_ne by done. by rewrite live_remove_eq.
    + rewrite del_reliable, live_store_ne, He by done. simpl.
      eexists. split; [done|]. split; [apply live_remove_eq|].
      assert (forall v, expired (clock r) (Entry v exp) = false) as Hx.
      { intros v. by apply live_not_expired in Eu. }
      split; [|split].
      * intros k H1 H2. by rewrite live_remove_ne, live_store_ne.
      * unfold index_of. rewrite live_remove_ne by done.
        rewrite live_store_eq, Hx, Eu. set_solver.
      * rewrite live_remove_ne by done. by rewrite live_store_eq, Hx.
  - (* no index *)
    unfold ret. rewrite del_reliable, He. simpl.
    eexists. split; [done|]. split; [apply live_remove_eq|].
    split; [|split].
    + intros k H1 H2. by rewrite live_remove_ne.
    + unfold index_of. rewrite live_remove_ne by done. rewrite Eu. set_solver.
    + by rewrite live_remove_ne, Eu.
Qed.

Lemma omap_ext_in {A B} (f g : A -> option B) (l : list A) :
  (forall x, x ∈ l -> f x = g x) -> omap f l = omap g l.
Proof.
  induction l as [|x l IH]; intros E; [done|]. csimpl.
  rewrite (E x) by left. rewrite IH; [done|]. intros; apply E; by right.
Qed.

(** The loop of [cleanupOldSessions] over sessions that are stored under
    their own ids and belong to [u]. *)
Lemma evict_loop (D : list SessionData) u r n :
  NoDup (sessionId <$> D) ->
  (forall d, d ∈ D -> record_at r (sessionId d) = Some d /\ userId d = u) ->
  holds_string r (getUserSessionsKey u) = false ->
  exists r',
    for_of D (fun session =>
                let* _ := destroySession (sessionId session) in ret tt)
      (World r [] n) = (Ok tt, World r' [] n) /\
    (forall d, d ∈ D -> live r' (getSessionKey (sessionId d)) = None) /\
    index_of r' u = index_of r u ∖ list_to_set (sessionId <$> D) /\
    (forall k, k ≠ getUserSessionsKey u ->
       (forall d, d ∈ D -> k ≠ getSessionKey (sessionId d)) ->
       live r' k = live r k).
Proof.
  revert r. induction D as [|d D IH]; intros r Hnd Hrec Hu.
  - exists r. split; [done|]. split; [by intros d ?%elem_of_nil|].
    split; [|done]. rewrite fmap_nil. set_solver.
  - rewrite fmap_cons in Hnd. apply NoDup_cons in Hnd as [Hd Hnd].
    destruct (Hrec d) as [Rd Ud]; [by left|].
    destruct (destroySession_reliable (sessionId d) d r n Rd)
      as (r1 & E1 & G1 & F1 & I1 & S1); [by rewrite Ud|].
    rewrite Ud in F1, I1, S1.
    assert (forall d', d' ∈ D -> sessionId d' ≠ sessionId d) as Hother.
    { intros d' Hin E. apply Hd. rewrite <- E.
      apply list_elem_of_fmap. eauto. }
    destruct (IH r1 Hnd) as (r' & E' & G' & I' & F'); [|done|].
    { intros d' Hin. destruct (Hrec d') as [R' U']; [by right|].
      split; [|done]. rewrite <- R'. apply record_at_ext, F1.
      - intros E%getSessionKey_inj. by apply (Hother d').
      - apply session_key_not_index_key. }
    exists r'. split.
    { cbn [for_of]. unfold bind at 1. unfold bind at 1.
      by rewrite E1. }
    split.
    { intros d' [->|Hin]%elem_of_cons; [|by apply G'].
      rewrite F'; [done|apply session_key_not_index_key|].
      intros d' Hin E%getSessionKey_inj. by apply (Hother d'). }
    split.
    { rewrite I', I1, fmap_cons. set_solver. }
    intros k Hk Hks. rewrite F'; [|done|].
    + apply F1; [|done]. apply Hks. by left.
    + intros d' Hin. apply Hks. by right.
Qed.

Lemma sAdd_reliable u sid r n :
  holds_string r (getUserSessionsKey u) = false ->
  exists c r1 exp1,
    sAdd (getUserSessionsKey u) [sid] (World r [] n)
    = (Ok c, World r1 [] n) /\
    live r1 (getUserSessionsKey u)
    = Some (Entry (RSet (index_of r u ∪ {[sid]})) exp1) /\
    (forall k, k ≠ getUserSessionsKey u -> live r1 k = live r k) /\
    clock r1 = clock r.
Proof.
  intros Hu. unfold sAdd. rewrite command_reliable. unfold SADD, index_of.
  unfold holds_string in Hu.
  destruct (live r (getUserSessionsKey u)) as [[[v|m] exp]|] eqn:Eu; [done| |].
  - do 3 eexists. split; [done|]. split; [|split; [|done]].
    + rewrite live_store_eq.
      replace (expired (clock r) _) with false
        by (symmetry; by apply live_not_expired in Eu).
      do 3 f_equal. set_solver.
    + intros k Hk. by apply live_store_ne.
  - do 3 eexists. split; [done|]. split; [|split; [|done]].
    + rewrite live_store_eq. simpl. do 3 f_equal; set_solver.
    + intros k Hk. by apply live_store_ne.
Qed.

Lemma expire_reliable k e r n :
  live r k = Some e ->
  expire k SESSION_TTL (World r [] n)
  = (Ok true,
     World (store k (Entry (value e) (Some (clock r + SESSION_TTL))) r) [] n).
Proof.
  intros E. unfold expire, bind. rewrite command_reliable. unfold EXPIRE.
  rewrite E.
  replace (0 <? SESSION_TTL) with true by (symmetry; apply Z.ltb_lt; lia).
  done.
Qed.

Lemma live_fresh r k v :
  live (store k (Entry v (Some (clock r + SESSION_TTL))) r) k
  = Some (Entry v (Some (clock r + SESSION_TTL))).
Proof.
  rewrite live_store_eq, expired_Some.
  by replace (clock r + SESSION_TTL <=? clock r) with false
    by (symmetry; apply Z.leb_gt; lia).
Qed.

(** The server once [createSession] has stored the record and listed its id,
    before the cleanup. *)
Lemma createSession_tracked options sid r n (k : M world SessionData) now :
  let u := o_userId options in
  let s := created options sid now in
  index_ok r u = true ->
  sid ∉ index_of r u ->
  exists r3,
    (setJson (getSessionKey sid) s (Some SESSION_TTL) ;;
     sAdd (getUserSessionsKey u) [sid] ;;
     expire (getUserSessionsKey u) SESSION_TTL ;; k) (World r [] n)
    = k (World r3 [] n) /\
    index_of r3 u = {[sid]} ∪ index_of r u /\
    holds_string r3 (getUserSessionsKey u) = false /\
    record_at r3 sid = Some s /\
    (forall id, id ≠ sid -> record_at r3 id = record_at r id) /\
    (forall id, id ∈ index_of r3 u -> holds_set r3 (getSessionKey id) = false).
Proof.
  intros u s Hok Hfresh.
  destruct (index_ok_spec _ _ Hok) as (Hu & Hsets & Hrecs).
  set (r1 := store (getSessionKey sid)
               (Entry (RStr (JSON_stringify s)) (Some (clock r + SESSION_TTL))) r).
  assert (forall k, k ≠ getSessionKey sid -> live r1 k = live r k) as F1.
  { intros k' Hk. by apply live_store_ne. }
  pose proof (session_key_not_index_key sid u) as Hne.
  assert (holds_string r1 (getUserSessionsKey u) = false) as Hu1.
  { rewrite <- Hu. apply holds_string_ext, F1. done. }
  destruct (sAdd_reliable u sid r1 n Hu1) as (c & r2 & exp & E2 & L2 & F2 & C2).
  rewrite (index_of_ext r r1) in L2 by (apply F1; done).
  exists (store (getUserSessionsKey u)
            (Entry (RSet (index_of r u ∪ {[sid]}))
               (Some (clock r2 + SESSION_TTL))) r2).
  assert (forall k, k ≠ getUserSessionsKey u ->
            live (store (getUserSessionsKey u)
                    (Entry (RSet (index_of r u ∪ {[sid]}))
                       (Some (clock r2 + SESSION_TTL))) r2) k = live r1 k)
    as F3.
  { intros k' Hk. rewrite live_store_ne by done. by apply F2. }
  assert (record_at (store (getUserSessionsKey u)
                       (Entry (RSet (index_of r u ∪ {[sid]}))
                          (Some (clock r2 + SESSION_TTL))) r2) sid = Some s)
    as R3.
  { rewrite (record_at_ext r1) by (apply F3; done). apply record_at_store_eq. }
  assert (forall id, id ≠ sid ->
            record_at (store (getUserSessionsKey u)
                         (Entry (RSet (index_of r u ∪ {[sid]}))
                            (Some (clock r2 + SESSION_TTL))) r2) id
            = record_at r id) as R3'.
  { intros id Hid. rewrite (record_at_ext r1)
      by (apply F3; apply session_key_not_index_key).
    apply record_at_ext, F1. by intros E%getSessionKey_inj. }
  split.
  { unfold bind at 1. rewrite setJson_reliable. fold r1.
    unfold bind at 1. rewrite E2.
    unfold bind at 1. by rewrite (expire_reliable _ _ _ _ L2). }
  split.
  { unfold index_of at 1. rewrite live_fresh. set_solver. }
  split.
  { unfold holds_string. by rewrite live_fresh. }
  split; [done|]. split; [done|].
  intros id Hin. unfold index_of at 1 in Hin. rewrite live_fresh in Hin.
  destruct (decide (id = sid)) as [->|Hid].
  - by eapply record_at_not_set.
  - rewrite <- (Hsets id) by set_solver.
    apply holds_set_ext. rewrite F3 by apply session_key_not_index_key.
    apply F1. by intros E%getSessionKey_inj.
Qed.

Lemma live_sessions_tracked r r3 u sid s :
  sid ∉ index_of r u ->
  index_of r3 u = {[sid]} ∪ index_of r u ->
  record_at r3 sid = Some s ->
  (forall id, id ≠ sid -> record_at r3 id = record_at r id) ->
  live_sessions r3 u ≡ₚ s :: live_sessions r u.
Proof.
  intros Hfresh I3 R3 R3'. unfold live_sessions. rewrite I3.
  rewrite elements_union_singleton by done. csimpl. rewrite R3.
  apply Permutation_skip.
  rewrite (omap_ext_in (record_at r3) (record_at r)); [done|].
  intros id Hin. apply R3'. intros ->. apply Hfresh. by apply elem_of_elements.
Qed.

(** Sessions read through an index carry distinct ids. *)
Lemma live_sessions_ids r u :
  (forall sid d, sid ∈ index_of r u -> record_at r sid = Some d ->
     sessionId d = sid /\ userId d = u) ->
  NoDup (sessionId <$> live_sessions r u) /\
  (forall d, d ∈ live_sessions r u ->
     record_at r (sessionId d) = Some d /\ userId d = u /\
     sessionId d ∈ index_of r u).
Proof.
  intros Hrecs. unfold live_sessions. split.
  - pose proof (NoDup_elements (index_of r u)) as Hnd.
    assert (forall id, id ∈ elements (index_of r u) -> id ∈ index_of r u) as Hin.
    { intros id. apply elem_of_elements. }
    induction (elements (index_of r u)) as [|id ids IH]; [constructor|].
    apply NoDup_cons in Hnd as [Hid Hnd]. csimpl.
    destruct (record_at r id) as [d|] eqn:E.
    + rewrite fmap_cons. apply NoDup_cons. split.
      * destruct (Hrecs id d) as [-> _]; [apply Hin; by left|done|].
        intros (d' & E' & (id' & Hid' & R')%list_elem_of_omap)%list_elem_of_fmap.
        destruct (Hrecs id' d') as [<- _]; [apply Hin; by right|done|].
        by rewrite <- E' in Hid'.
      * apply IH; [done|]. intros; apply Hin; by right.
    + apply IH; [done|]. intros; apply Hin; by right.
  - intros d (id & Hid%elem_of_elements & R)%list_elem_of_omap.
    destruct (Hrecs id d) as [E U]; [done..|]. rewrite E. done.
Qed.

(** *** Destroying, listing, extending and ageing sessions *)

Lemma record_at_gone r sid : live r (getSessionKey sid) = None -> record_at r sid = None.
Proof. unfold record_at. by intros ->. Qed.

Lemma validateSession_gone r n sid now :
  record_at r sid = None ->
  holds_set r (getSessionKey sid) = false ->
  validateSession SESSION_TTL sid now (World r [] n)
  = (Throw (UnauthorizedException "Invalid or expired session"), World r [] n).
Proof.
  intros Hnone Hs. unfold validateSession, getSession, bind.
  by rewrite getJson_reliable, Hnone.
Qed.

Lemma holds_set_gone r k : live r k = None -> holds_set r k = false.
Proof. unfold holds_set. by intros ->. Qed.

(** X1. [destroySession] on a stored session answers [true]; the record
    is gone, the id is taken out of the index of the user the record
    names, every other key is left as it was, and [validateSession] on the
    id is rejected from then on. *)
Theorem destroySession_revokes (sid : string) (d : SessionData) (now : Z)
    (r : redis) (n : nat) :
  record_at r sid = Some d ->
  holds_string r (getUserSessionsKey (userId d)) = false ->
  exists r',
    destroySession sid (World r [] n) = (Ok true, World r' [] n) /\
    live r' (getSessionKey sid) = None /\
    record_at r' sid = None /\
    index_of r' (userId d) = index_of r (userId d) ∖ {[sid]} /\
    (forall k, k ≠ getSessionKey sid ->
               k ≠ getUserSessionsKey (userId d) -> live r' k = live r k) /\
    validateSession SESSION_TTL sid now (World r' [] n)
    = (Throw (UnauthorizedException "Invalid or expired session"),
       World r' [] n).
Proof.
  intros Hd Hu.
  destruct (destroySession_reliable sid d r n Hd Hu)
    as (r' & Hrun & Hgone & Hrest & Hidx & _).
  exists r'. repeat split; try done.
  - by apply record_at_gone.
  - apply validateSession_gone; [by apply record_at_gone|by apply holds_set_gone].
Qed.

(** X2. [destroySession] on an id whose key the server does not hold
    answers [false] and changes nothing a command can see: destroying a
    session twice is harmless. *)
Theorem destroySession_missing (sid : string) (r : redis) (n : nat) :
  live r (getSessionKey sid) = None ->
  exists r',
    destroySession sid (World r [] n) = (Ok false, World r' [] n) /\
    (forall k, live r' k = live r k).
Proof.
  intros Hk. unfold destroySession, bind.
  rewrite getJson_reliable by (by apply holds_set_gone).
  rewrite (record_at_gone _ _ Hk). unfold ret.
  rewrite del_reliable, Hk. eexists. split; [done|].
  intros k. destruct (decide (k = getSessionKey sid)) as [->|Hne].
  - by rewrite live_remove_eq.
  - by rewrite live_remove_ne.
Qed.

(** X3. [getUserSessionsWithDetails] reads only: it returns the records
    of the sessions the index lists, each once, the most recently used
    first; an id of the index whose record is gone is passed over. *)
Theorem getUserSessionsWithDetails_recent_first (u : string) (r : redis)
    (n : nat) :
  index_ok r u = true ->
  exists L,
    getUserSessionsWithDetails u (World r [] n) = (Ok L, World r [] n) /\
    L ≡ₚ live_sessions r u /\
    StronglySorted (fun a b => lastAccessedAt b <= lastAccessedAt a) L /\
    NoDup (sessionId <$> L) /\
    (forall d, d ∈ L <->
               sessionId d ∈ index_of r u /\
               record_at r (sessionId d) = Some d).
Proof.
  intros Hok. apply index_ok_spec in Hok as (Hs & Hset & Hrec).
  pose proof (live_sessions_ids r u Hrec) as [Hnd Hin].
  set (cmp := fun a b : SessionData => lastAccessedAt b - lastAccessedAt a).
  assert (js_sort cmp (live_sessions r u) ≡ₚ live_sessions r u) as Hp
    by apply js_sort_perm.
  exists (js_sort cmp (live_sessions r u)).
  split; [by apply getUserSessionsWithDetails_reliable|].
  split; [done|]. split; [|split].
  - assert (StronglySorted (before cmp) (js_sort cmp (live_sessions r u))) as S1.
    { apply js_sort_sorted; unfold before, cmp; intros; lia. }
    clear -S1. induction S1 as [|x l _ IH Hx]; constructor; [done|].
    eapply Forall_impl; [exact Hx|]. unfold before, cmp. intros; lia.
  - by rewrite Hp.
  - intros d. rewrite Hp. split.
    + intros Hd. destruct (Hin d Hd) as (? & ? & ?). done.
    + intros [Hi Hr]. unfold live_sessions. apply list_elem_of_omap.
      exists (sessionId d). split; [by apply elem_of_elements|done].
Qed.

Lemma expire_positive k e s r n :
  live r k = Some e -> 0 < s ->
  expire k s (World r [] n)
  = (Ok true, World (store k (Entry (value e) (Some (clock r + s))) r) [] n).
Proof.
  intros He Hs. unfold expire, bind. rewrite command_reliable.
  unfold EXPIRE. rewrite He.
  by replace (0 <? s) with true by (symmetry; apply Z.ltb_lt; lia).
Qed.

Lemma live_store_later r k v s :
  0 < s ->
  live (store k (Entry v (Some (clock r + s))) r) k
  = Some (Entry v (Some (clock r + s))).
Proof.
  intros Hs. rewrite live_store_eq, expired_Some.
  by replace (clock r + s <=? clock r) with false
    by (symmetry; apply Z.leb_gt; lia).
Qed.

Lemma extendSession_positive sid s ttl d r n :
  record_at r sid = Some d ->
  0 < ttl ->
  (if truthy_num s then default 0 s else SESSION_TTL) = ttl ->
  exists r',
    extendSession SESSION_TTL sid s (World r [] n) = (Ok true, World r' [] n) /\
    record_at r' sid = Some d /\
    ttl_of r' (getSessionKey sid) = Some ttl /\
    (forall k, k ≠ getSessionKey sid -> live r' k = live r k).
Proof.
  intros Hd Hpos Httl. unfold extendSession. rewrite Httl.
  unfold record_at in Hd.
  destruct (live r (getSessionKey sid)) as [[[v|m] exp]|] eqn:He; try done.
  rewrite (expire_positive _ _ _ _ _ He Hpos). simpl.
  eexists. split; [done|]. split; [|split].
  - unfold record_at. by rewrite live_store_later.
  - unfold ttl_of, TTL. rewrite live_store_later by done. simpl. f_equal. lia.
  - intros k Hne. by rewrite live_store_ne.
Qed.

(** X4. [extendSession] on a stored session answers [true] and gives the
    record the asked number of seconds to live, counted from now; asked
    for nothing or for 0 seconds it gives the configured session life.
    The record itself, its [lastAccessedAt] included, and all other keys
    stay as they were. *)
Theorem extendSession_sets_ttl (sid : string) (additionalSeconds : option Z)
    (d : SessionData) (r : redis) (n : nat) :
  record_at r sid = Some d ->
  (forall s, additionalSeconds = Some s -> 0 <= s) ->
  exists r',
    extendSession SESSION_TTL sid additionalSeconds (World r [] n)
    = (Ok true, World r' [] n) /\
    record_at r' sid = Some d /\
    (forall s, additionalSeconds = Some s -> 0 < s ->
               ttl_of r' (getSessionKey sid) = Some s) /\
    (additionalSeconds = None \/ additionalSeconds = Some 0 ->
     ttl_of r' (getSessionKey sid) = Some SESSION_TTL) /\
    (forall k, k ≠ getSessionKey sid -> live r' k = live r k).
Proof.
  intros Hd Hs.
  destruct additionalSeconds as [s|].
  - specialize (Hs s eq_refl).
    destruct (decide (s = 0)) as [->|Hne].
    + destruct (extendSession_positive sid (Some 0) SESSION_TTL d r n Hd
                  SESSION_TTL_pos eq_refl) as (r' & ? & ? & ? & ?).
      exists r'. repeat split; try done. intros s [= <-]. lia.
    + assert ((if truthy_num (Some s) then default 0 (Some s) else SESSION_TTL) = s)
        as E.
      { simpl. by replace (s =? 0) with false by (symmetry; apply Z.eqb_neq; lia). }
      destruct (extendSession_positive sid (Some s) s d r n Hd ltac:(lia) E)
        as (r' & ? & ? & ? & ?).
      exists r'. repeat split; try done.
      * by intros ? [= <-] _.
      * intros [?|[= ?]]; done.
  - destruct (extendSession_positive sid None SESSION_TTL d r n Hd
                SESSION_TTL_pos eq_refl) as (r' & ? & ? & ? & ?).
    exists r'. repeat split; done.
Qed.

(** X5. The edges of [extendSession]: on an id whose key the server does
    not hold it answers [false] and changes nothing; asked for a negative
    number of seconds it answers [true] and the record is deleted, while
    the index of its user still lists the id. *)
Theorem extendSession_edges (sid : string) (r : redis) (n : nat) :
  (forall additionalSeconds,
     live r (getSessionKey sid) = None ->
     extendSession SESSION_TTL sid additionalSeconds (World r [] n)
     = (Ok false, World r [] n)) /\
  (forall d s,
     record_at r sid = Some d -> s < 0 ->
     exists r',
       extendSession SESSION_TTL sid (Some s) (World r [] n)
       = (Ok true, World r' [] n) /\
       record_at r' sid = None /\
       (forall k, k ≠ getSessionKey sid -> live r' k = live r k) /\
       (forall u, index_of r' u = index_of r u)).
Proof.
  split.
  - intros s Hk. unfold extendSession, expire, bind.
    rewrite command_reliable. unfold EXPIRE. by rewrite Hk.
  - intros d s Hd Hs. unfold extendSession, expire, bind.
    assert (truthy_num (Some s) = true) as ->.
    { simpl. by replace (s =? 0) with false by (symmetry; apply Z.eqb_neq; lia). }
    rewrite command_reliable. unfold EXPIRE. simpl.
    unfold record_at in Hd.
    destruct (live r (getSessionKey sid)) as [e|] eqn:He; [|done].
    replace (0 <? s) with false by (symmetry; apply Z.ltb_ge; lia).
    eexists. split; [done|]. split; [|split].
    + apply record_at_gone, live_remove_eq.
    + intros k Hne. by rewrite live_remove_ne.
    + intros u. apply index_of_ext, live_remove_ne, session_key_not_index_key.
Qed.

Lemma live_advance_store r k v t dt :
  live (advance dt (store k (Entry v (Some t)) r)) k
  = if t <=? clock r + dt then None else Some (Entry v (Some t)).
Proof.
  unfold live, advance, store. simpl. by rewrite lookup_insert_eq.
Qed.

Lemma live_advance_store_ne r k k' e dt :
  k ≠ k' ->
  live (advance dt (store k e r)) k' = live (advance dt r) k'.
Proof.
  intros Hne. unfold live, advance, store. simpl.
  by rewrite lookup_insert_ne.
Qed.

(** X6. Sliding expiry. A session that [getSession] has just read stays
    readable for the whole session life from that moment: its record is
    still there any time before [SESSION_TTL] seconds have passed on the
    server, and once they have passed the record is gone and
    [validateSession] rejects the id. *)
Theorem session_slides (sid : string) (d : SessionData) (now : Z)
    (r : redis) (n : nat) :
  record_at r sid = Some d ->
  exists r',
    getSession SESSION_TTL sid now (World r [] n)
    = (Ok (Some (set_lastAccessedAt now d)), World r' [] n) /\
    (forall dt, 0 <= dt < SESSION_TTL ->
       record_at (advance dt r') sid = Some (set_lastAccessedAt now d)) /\
    (forall dt now', SESSION_TTL <= dt ->
       record_at (advance dt r') sid = None /\
       validateSession SESSION_TTL sid now' (World (advance dt r') [] n)
       = (Throw (UnauthorizedException "Invalid or expired session"),
          World (advance dt r') [] n)).
Proof.
  intros Hd. pose proof (record_at_not_set _ _ _ Hd) as Hs.
  unfold getSession, bind. rewrite getJson_reliable, Hd by done.
  rewrite setJson_reliable. eexists. split; [done|].
  split.
  - intros dt Hdt. unfold record_at. rewrite live_advance_store.
    replace (clock r + SESSION_TTL <=? clock r + dt) with false
      by (symmetry; apply Z.leb_gt; lia).
    by rewrite JSON_stringify_nonempty, JSON_parse_stringify.
  - intros dt now' Hdt.
    assert (live (advance dt (store (getSessionKey sid)
              (Entry (RStr (JSON_stringify (set_lastAccessedAt now d)))
                 (Some (clock r + SESSION_TTL))) r)) (getSessionKey sid) = None)
      as Hgone.
    { rewrite live_advance_store.
      by replace (clock r + SESSION_TTL <=? clock r + dt) with true
        by (symmetry; apply Z.leb_le; lia). }
    split; [by apply record_at_gone|].
    apply validateSession_gone; [by apply record_at_gone|by apply holds_set_gone].
Qed.

(** X7. The index of a user is given its life when a session is created,
    a record each time it is read. When the index runs out before a
    record that was read since, the session is still accepted, yet
    [getUserSessions] no longer lists it and [destroyAllUserSessions]
    destroys nothing and leaves it valid. *)
Theorem index_expires_before_session (sid : string) (d : SessionData)
    (m : gset string) (t now dt : Z) (r : redis) (n : nat) :
  record_at r sid = Some d ->
  live r (getUserSessionsKey (userId d)) = Some (Entry (RSet m) (Some t)) ->
  t <= clock r + dt < clock r + SESSION_TTL ->
  exists r',
    getSession SESSION_TTL sid now (World r [] n)
    = (Ok (Some (set_lastAccessedAt now d)), World r' [] n) /\
    getUserSessions (userId d) (World (advance dt r') [] n)
    = (Ok [], World (advance dt r') [] n) /\
    exists r'',
      destroyAllUserSessions (userId d) (World (advance dt r') [] n)
      = (Ok 0, World r'' [] n) /\
      record_at r'' sid = Some (set_lastAccessedAt now d).
Proof.
  intros Hd Hidx Hdt. pose proof (record_at_not_set _ _ _ Hd) as Hs.
  pose proof (session_key_not_index_key sid (userId d)) as Hne.
  unfold getSession, bind. rewrite getJson_reliable, Hd by done.
  rewrite setJson_reliable. eexists. split; [done|].
  set (r' := store _ _ r).
  assert (live (advance dt r') (getUserSessionsKey (userId d)) = None) as Hgone.
  { unfold r'. rewrite live_advance_store_ne by done.
    unfold live, advance in Hidx |- *. simpl.
    destruct (db r !! getUserSessionsKey (userId d)) as [e|]; [|done].
    destruct (expired (clock r) e); [done|]. injection Hidx as ->.
    rewrite expired_Some.
    by replace (t <=? clock r + dt) with true by (symmetry; apply Z.leb_le; lia). }
  assert (getUserSessions (userId d) (World (advance dt r') [] n)
          = (Ok [], World (advance dt r') [] n)) as Hlist.
  { unfold getUserSessions, sMembers. rewrite command_reliable.
    unfold SMEMBERS. by rewrite Hgone. }
  split; [done|].
  unfold destroyAllUserSessions, bind. rewrite Hlist. simpl. unfold ret.
  rewrite del_reliable. eexists. split; [done|].
  unfold record_at. rewrite live_remove_ne by done.
  unfold r'. rewrite live_advance_store.
  replace (clock r + SESSION_TTL <=? clock r + dt) with false
    by (symmetry; apply Z.leb_gt; lia).
  by rewrite JSON_stringify_nonempty, JSON_parse_stringify.
Qed.

Lemma index_ok_intro r u :
  holds_string r (getUserSessionsKey u) = false ->
  (forall sid, sid ∈ index_of r u ->
     holds_set r (getSessionKey sid) = false) ->
  (forall sid d, sid ∈ index_of r u -> record_at r sid = Some d ->
     sessionId d = sid /\ userId d = u) ->
  index_ok r u = true.
Proof.
  intros H1 H2 H3. unfold index_ok. rewrite H1.
  apply forallb_forall. intros sid Hin.
  apply list_elem_of_In, elem_of_elements in Hin.
  destruct (record_at r sid) as [d|] eqn:E.
  - apply bool_decide_eq_true_2. by apply H3.
  - apply negb_true_iff. by apply H2.
Qed.

Lemma index_ok_transfer r r' u sid :
  index_ok r u = true ->
  holds_string r' (getUserSessionsKey u) = false ->
  index_of r' u ⊆ index_of r u ->
  (forall id, id ≠ sid ->
     live r' (getSessionKey id) = live r (getSessionKey id)) ->
  (sid ∈ index_of r' u ->
     holds_set r' (getSessionKey sid) = false /\
     forall x, record_at r' sid = Some x -> sessionId x = sid /\ userId x = u) ->
  index_ok r' u = true.
Proof.
  intros Hok Hs Hsub Hrest Hsid.
  apply index_ok_spec in Hok as (_ & Hsets & Hrecs).
  apply index_ok_intro; [done| |].
  - intros id Hin. destruct (decide (id = sid)) as [->|Hne].
    + by apply Hsid.
    + rewrite (holds_set_ext r r') by (by apply Hrest). apply Hsets. set_solver.
  - intros id x Hin Hx. destruct (decide (id = sid)) as [->|Hne].
    + by apply Hsid.
    + rewrite (record_at_ext r r') in Hx by (by apply Hrest).
      apply Hrecs; [set_solver|done].
Qed.

Lemma createSession_no_eviction options sid now r n :
  index_ok r (o_userId options) = true ->
  sid ∉ index_of r (o_userId options) ->
  (length (live_sessions r (o_userId options)) < MAX_SESSIONS_PER_USER)%nat ->
  exists r',
    createSession SESSION_TTL options sid now (World r [] n)
    = (Ok (created options sid now), World r' [] n) /\
    index_of r' (o_userId options) = {[sid]} ∪ index_of r (o_userId options) /\
    record_at r' sid = Some (created options sid now) /\
    (forall id, id ≠ sid -> record_at r' id = record_at r id) /\
    index_ok r' (o_userId options) = true.
Proof.
  intros Hok Hfresh Hcap.
  set (u := o_userId options) in *. set (s := created options sid now).
  destruct (index_ok_spec _ _ Hok) as (Hu & Hsets & Hrecs).
  destruct (createSession_tracked options sid r n
              (cleanupOldSessions u ;; ret s) now Hok Hfresh)
    as (r3 & E3 & I3 & S3 & R3 & R3' & H3).
  fold u s in E3.
  pose proof (live_sessions_tracked r r3 u sid s Hfresh I3 R3 R3') as P3.
  assert (createSession SESSION_TTL options sid now (World r [] n)
          = (cleanupOldSessions u ;; ret s) (World r3 [] n)) as Ecs.
  { exact E3. }
  exists r3. rewrite Ecs. unfold cleanupOldSessions.
  unfold bind at 1. unfold bind at 1.
  rewrite getUserSessionsWithDetails_reliable by done.
  set (Sd := js_sort (fun a b => lastAccessedAt b - lastAccessedAt a)
               (live_sessions r3 u)).
  assert ((length Sd <=? MAX_SESSIONS_PER_USER)%nat = true) as ->.
  { apply Nat.leb_le. unfold Sd. rewrite js_sort_perm, P3. simpl. lia. }
  split; [done|]. split; [done|]. split; [done|]. split; [done|].
  apply index_ok_intro; [done|done|].
  intros id d Hin Hd. destruct (decide (id = sid)) as [->|Hid].
  - rewrite R3 in Hd. by injection Hd as <-.
  - rewrite R3' in Hd by done. apply Hrecs; [set_solver|done].
Qed.

Lemma validateSession_reliable sid d now r n :
  record_at r sid = Some d ->
  validateSession SESSION_TTL sid now (World r [] n)
  = (Ok (set_lastAccessedAt now d),
     World (store (getSessionKey sid)
              (Entry (RStr (JSON_stringify (set_lastAccessedAt now d)))
                 (Some (clock r + SESSION_TTL))) r) [] n).
Proof.
  intros Hd. unfold validateSession, getSession, bind.
  rewrite getJson_reliable, Hd by (by eapply record_at_not_set).
  by rewrite setJson_reliable.
Qed.

(** X8. [createSession] for a user with fewer than five sessions destroys
    nothing: the new id joins the index, every other record is as it was,
    index and records still fit together, and [validateSession] on the
    new id returns the new record, stamped with the time of the call. *)
Theorem createSession_within_cap (options : CreateSessionOptions)
    (sid : string) (now now' : Z) (r : redis) (n : nat) :
  index_ok r (o_userId options) = true ->
  sid ∉ index_of r (o_userId options) ->
  (length (live_sessions r (o_userId options)) < MAX_SESSIONS_PER_USER)%nat ->
  exists r' r'',
    createSession SESSION_TTL options sid now (World r [] n)
    = (Ok (created options sid now), World r' [] n) /\
    index_of r' (o_userId options) = {[sid]} ∪ index_of r (o_userId options) /\
    (forall id, id ≠ sid -> record_at r' id = record_at r id) /\
    index_ok r' (o_userId options) = true /\
    validateSession SESSION_TTL sid now' (World r' [] n)
    = (Ok (set_lastAccessedAt now' (created options sid now)), World r'' [] n).
Proof.
  intros Hok Hfresh Hcap.
  destruct (createSession_no_eviction options sid now r n Hok Hfresh Hcap)
    as (r' & Hrun & Hidx & Hnew & Hold & Hok').
  exists r'. eexists. repeat split; try done.
  by apply validateSession_reliable.
Qed.

(** X9. Index and records of a user that fit together still do so after
    a session, of this or of another user, is read by [getSession],
    changed by [updateSessionMetadata] or destroyed by
    [destroySession]. *)
Theorem index_ok_kept (sid : string) (d : SessionData) (u : string)
    (patch : gmap string jsvalue) (now : Z) (r : redis) (n : nat) :
  record_at r sid = Some d ->
  holds_string r (getUserSessionsKey (userId d)) = false ->
  index_ok r u = true ->
  index_ok (kv (snd (getSession SESSION_TTL sid now (World r [] n)))) u = true /\
  index_ok (kv (snd (updateSessionMetadata SESSION_TTL sid patch now
                       (World r [] n)))) u = true /\
  index_ok (kv (snd (destroySession sid (World r [] n)))) u = true.
Proof.
  intros Hd Hown Hok.
  pose proof (record_at_not_set _ _ _ Hd) as Hs.
  pose proof (index_ok_spec _ _ Hok) as (Hu & Hsets & Hrecs).
  assert (forall d',
            sessionId d' = sessionId d -> userId d' = userId d ->
            index_ok
              (store (getSessionKey sid)
                 (Entry (RStr (JSON_stringify d')) (Some (clock r + SESSION_TTL)))
                 r) u = true) as Hstore.
  { intros d' E1 E2.
    assert (live (store (getSessionKey sid)
                    (Entry (RStr (JSON_stringify d'))
                       (Some (clock r + SESSION_TTL))) r) (getUserSessionsKey u)
            = live r (getUserSessionsKey u)) as Hi.
    { apply live_store_ne, session_key_not_index_key. }
    apply (index_ok_transfer r _ u sid); [done| | | |].
    - by rewrite (holds_string_ext r).
    - by rewrite (index_of_ext r).
    - intros id Hne. apply live_store_ne. intros E. by apply getSessionKey_inj in E.
    - rewrite (index_of_ext r) by done. intros Hin. split.
      + eapply record_at_not_set. apply record_at_store_eq.
      + intros x. rewrite record_at_store_eq. intros [= <-].
        rewrite E1, E2. by apply Hrecs. }
  split; [|split].
  - unfold getSession, bind. rewrite getJson_reliable, Hd by done.
    rewrite setJson_reliable. simpl. by apply Hstore.
  - unfold updateSessionMetadata, bind. rewrite getJson_reliable, Hd by done.
    rewrite setJson_reliable. simpl. by apply Hstore.
  - destruct (destroySession_reliable sid d r n Hd Hown)
      as (r' & -> & Hgone & Hrest & Hidx & Hstr).
    simpl. apply (index_ok_transfer r r' u sid); [done| | | |].
    + destruct (decide (u = userId d)) as [->|Hne]; [done|].
      rewrite (holds_string_ext r); [done|].
      apply Hrest; [apply not_eq_sym, session_key_not_index_key|].
      intros E. by apply getUserSessionsKey_inj in E.
    + destruct (decide (u = userId d)) as [->|Hne]; [set_solver|].
      rewrite (index_of_ext r); [done|].
      apply Hrest; [apply not_eq_sym, session_key_not_index_key|].
      intros E. by apply getUserSessionsKey_inj in E.
    + intros id Hne. apply Hrest.
      * intros E. by apply getSessionKey_inj in E.
      * apply session_key_not_index_key.
    + intros _. split; [by apply holds_set_gone|].
      intros x. by rewrite (record_at_gone _ _ Hgone).
Qed.

End SessionFacts.

(** ** The hybrid guard *)

Section GuardFacts.
Context `{Json}.
Variable SESSION_TTL : Z.
Variable verify : string -> option Guards.JwtPayload.

Import Guards.

Lemma extractJwt_bearer request token :
  authorization request = Some ("Bearer " +:+ token) ->
  extractJwt request = Some token.
Proof.
  unfold extractJwt, truthy. intros ->.
  rewrite decide_False by (cbv; discriminate). reflexivity.
Qed.

Lemma startsWith_split p a :
  startsWith p a = true -> a = p +:+ substring_from (String.length p) a.
Proof.
  revert a. induction p as [|c p IH]; intros a; [done|].
  destruct a as [|d a]; [done|]. cbn [startsWith].
  intros [Hc Hp]%andb_true_iff. apply Ascii.eqb_eq in Hc as ->.
  change (String d p +:+ substring_from (String.length (String d p)) (String d a))
    with (String d (p +:+ substring_from (String.length p) a)).
  f_equal. by apply IH.
Qed.

Lemma truthy_Some s : s ≠ "" -> truthy (Some s) = Some s.
Proof. intros Hs. unfold truthy. by rewrite decide_False. Qed.

Lemma truthy_None s : s = None \/ s = Some "" -> truthy s = None.
Proof. by intros [->| ->]. Qed.

(** Without a bearer token [extractJwt] gives nothing the guard takes. *)
Lemma extractJwt_none request :
  authorization request = None \/
  (exists a, authorization request = Some a /\
             forall t, t ≠ "" -> a ≠ "Bearer " +:+ t) ->
  truthy (extractJwt request) = None.
Proof.
  unfold extractJwt. intros [->|(a & -> & Ha)]; [done|].
  destruct (decide (a = "")) as [->|Hne]; [done|].
  rewrite truthy_Some by done.
  destruct (startsWith "Bearer " a) eqn:Es; [|done].
  apply startsWith_split in Es.
  change (String.length "Bearer ") with 7%nat in Es.
  destruct (decide (substring_from 7 a = "")) as [->|Ht]; [done|].
  by destruct (Ha _ Ht).
Qed.

(** C2. The hybrid guard tries the session first. The session id of a
    request is its [x-session-id] header when that is a non-empty string,
    else its [sessionId] cookie when that is one. With such an id that
    validates, the guard lets the request through with [request.session]
    set to the session and [request.user] set to the [userId], [email],
    [role], [tenantId] and [sessionId] of the session, whatever the
    Authorization header holds. Without such an id, or when validation
    throws, the guard goes on to the token: unless the Authorization header
    is [Bearer ] followed by a non-empty token it throws "No
    authentication credentials provided"; with a token that verifies it
    lets the request through with [request.user] set to the [sub],
    [email], [role] and [tenant_id] of the token and no [sessionId],
    leaving [request.session] as it was; with a token that does not verify
    it throws "Invalid or expired token". *)
Theorem hybrid_guard_session_first (request : Request) (now : Z) (w : world) :
  (forall id s w',
     (x_session_id request = Some id /\ id ≠ "") \/
     ((x_session_id request = None \/ x_session_id request = Some "") /\
      cookie_sessionId request = Some id /\ id ≠ "") ->
     SessionService.validateSession SESSION_TTL id now w = (Ok s, w') ->
     exists request',
       canActivate SESSION_TTL verify request now w = (Ok (true, request'), w') /\
       session request' = Some s /\
       user request'
       = Some {| u_userId := userId s;
                 u_email := email s;
                 u_role := role s;
                 u_tenantId := tenantId s;
                 u_sessionId := Some (sessionId s) |} /\
       x_session_id request' = x_session_id request /\
       cookie_sessionId request' = cookie_sessionId request /\
       authorization request' = authorization request) /\
  (forall w1,
     ((x_session_id request = None \/ x_session_id request = Some "") /\
      (cookie_sessionId request = None \/ cookie_sessionId request = Some "") /\
      w1 = w) \/
     (exists id e,
        ((x_session_id request = Some id /\ id ≠ "") \/
         ((x_session_id request = None \/ x_session_id request = Some "") /\
          cookie_sessionId request = Some id /\ id ≠ "")) /\
        SessionService.validateSession SESSION_TTL id now w = (Throw e, w1)) ->
     (authorization request = None \/
      (exists a, authorization request = Some a /\
                 forall t, t ≠ "" -> a ≠ "Bearer " +:+ t) ->
      canActivate SESSION_TTL verify request now w
      = (Throw (UnauthorizedException "No authentication credentials provided"),
         w1)) /\
     (forall token,
        authorization request = Some ("Bearer " +:+ token) ->
        token ≠ "" ->
        (forall p,
           verify token = Some p ->
           exists request',
             canActivate SESSION_TTL verify request now w
             = (Ok (true, request'), w1) /\
             user request'
             = Some {| u_userId := sub p;
                       u_email := p_email p;
                       u_role := p_role p;
                       u_tenantId := tenant_id p;
                       u_sessionId := None |} /\
             session request' = session request /\
             x_session_id request' = x_session_id request /\
             cookie_sessionId request' = cookie_sessionId request /\
             authorization request' = authorization request) /\
        (verify token = None ->
         canActivate SESSION_TTL verify request now w
         = (Throw (UnauthorizedException "Invalid or expired token"), w1)))).
Proof.
  assert (forall id,
            (x_session_id request = Some id /\ id ≠ "") \/
            ((x_session_id request = None \/ x_session_id request = Some "") /\
             cookie_sessionId request = Some id /\ id ≠ "") ->
            extractSessionId request = Some id) as Hid.
  { intros id [[Hh Hne]|(Hh & Hc & Hne)]; unfold extractSessionId.
    - by rewrite Hh, truthy_Some.
    - by rewrite (truthy_None _ Hh), Hc, truthy_Some. }
  split.
  - intros id s w' Hreq Hv. apply Hid in Hreq.
    eexists. split.
    { unfold canActivate. rewrite Hreq. unfold try_catch, bind.
      by rewrite Hv. }
    by repeat split.
  - intros w1 Hpath.
    assert (canActivate SESSION_TTL verify request now w
            = jwt_auth verify request w1) as ->.
    { unfold canActivate.
      destruct Hpath as [(Hh & Hc & ->)|(id & e & Hreq & Hv)].
      - unfold extractSessionId.
        by rewrite (truthy_None _ Hh), (truthy_None _ Hc).
      - rewrite (Hid _ Hreq). unfold try_catch, bind. by rewrite Hv. }
    split.
    + intros Hno. unfold jwt_auth. by rewrite (extractJwt_none _ Hno).
    + intros token Hauth Htok. unfold jwt_auth.
      rewrite (extractJwt_bearer _ _ Hauth), truthy_Some by done.
      split.
      * intros p ->. eexists. split; [done|]. by repeat split.
      * by intros ->.
Qed.

(** *** What the guards let through *)

Lemma command_inv {A} (c : Redis.redis -> Redis.reply A) w res w' :
  command c w = (res, w') ->
  res = Throw StoreError \/
  exists a, res = Ok a /\ c (kv w) = (Some a, kv w').
Proof.
  unfold command. intros E.
  destruct (faults w) as [|[] fs]; [| |].
  - destruct (c (kv w)) as [[a|] r'] eqn:Ec; injection E as <- <-; eauto.
  - injection E as <- <-. by left.
  - destruct (c (kv w)) as [[a|] r'] eqn:Ec; injection E as <- <-; eauto.
Qed.

Lemma set_inv k v t w res w' :
  RedisService.set k v t w = (res, w') ->
  res = Throw StoreError \/ res = Ok tt.
Proof.
  unfold RedisService.set. intros E.
  destruct (RedisService.truthy_num t);
    apply command_inv in E as [->|([] & -> & _)]; eauto.
Qed.

Lemma validateSession_inv sid now w res w' :
  SessionService.validateSession SESSION_TTL sid now w = (res, w') ->
  res = Throw StoreError \/
  res = Throw (UnauthorizedException "Invalid or expired session") \/
  exists d, record_at (kv w) sid = Some d /\
            res = Ok (set_lastAccessedAt now d).
Proof.
  unfold SessionService.validateSession, SessionService.getSession,
    RedisService.getJson, RedisService.get, RedisService.setJson.
  unfold bind at 1 2 3. intros E.
  destruct (command _ w) as [[v|e] w1] eqn:Ec.
  - apply command_inv in Ec as [?|(a & [= <-] & Eg)]; [done|].
    assert (record_at (kv w) sid
            = match v with
              | Some v => if RedisService.falsy_str v then None else JSON_parse v
              | None => None
              end) as Hrec.
    { unfold record_at. unfold Redis.GET in Eg.
      destruct (Redis.live (kv w) (SessionService.getSessionKey sid))
        as [[[s|m] exp]|]; by simplify_eq. }
    destruct v as [v|].
    + destruct (RedisService.falsy_str v).
      * injection E as <- _. right. by left.
      * unfold ret at 1 in E. destruct (JSON_parse v) as [d|].
        -- unfold bind in E.
           destruct (RedisService.set _ _ _ w1) as [[[]|e] w2] eqn:Es.
           ++ injection E as <- _. right. right. eauto.
           ++ apply set_inv in Es as [[= ->]|?]; [|done].
              injection E as <- _. by left.
        -- injection E as <- _. right. by left.
    + injection E as <- _. right. by left.
  - apply command_inv in Ec as [[= ->]|(a & ? & _)]; [|done].
    injection E as <- _. by left.
Qed.

(** X10. [SessionAuthGuard] fails closed, whatever the store does: a
    request without a session id is turned away before the store is asked,
    and a request with one is either let through with the identity of a
    record the store held under that id, or turned away as unauthorized; a
    store error never gets out and never lets a request in. *)
Theorem session_guard_fails_closed (request : Request) (now : Z) (w : world) :
  exists res w',
    SessionAuthGuard.canActivate SESSION_TTL request now w = (res, w') /\
    ((extractSessionId request = None /\
      res = Throw (UnauthorizedException "No session ID provided") /\
      w' = w) \/
     (exists id,
        extractSessionId request = Some id /\
        (res = Throw (UnauthorizedException "Invalid or expired session") \/
         exists d,
           record_at (kv w) id = Some d /\
           res = Ok (true,
                     set_user (session_identity (set_lastAccessedAt now d))
                       (set_session (set_lastAccessedAt now d) request))))).
Proof.
  unfold SessionAuthGuard.canActivate.
  destruct (extractSessionId request) as [id|].
  - unfold try_catch, bind.
    destruct (SessionService.validateSession SESSION_TTL id now w)
      as [[s|e] w1] eqn:Ev.
    + apply validateSession_inv in Ev as [?|[?|(d & Hd & [= ->])]]; try done.
      do 2 eexists. split; [done|]. right. exists id. split; [done|].
      right. by exists d.
    + do 2 eexists. split; [done|]. right. exists id. split; [done|]. by left.
  - do 2 eexists. split; [done|]. by left.
Qed.

(** X11. Every outcome of [HybridAuthGuard]: a request is let through
    only with the identity of a record the store held under its session
    id or with the identity of a token that verifies, and it is turned
    away only as unauthorized, for lack of credentials or for a bad
    token; this holds whatever the store does. *)
Theorem hybrid_guard_outcomes (request : Request) (now : Z) (w : world) :
  exists res w',
    canActivate SESSION_TTL verify request now w = (res, w') /\
    ((exists id d,
        extractSessionId request = Some id /\
        record_at (kv w) id = Some d /\
        res = Ok (true,
                  set_user (session_identity (set_lastAccessedAt now d))
                    (set_session (set_lastAccessedAt now d) request))) \/
     (exists token p,
        extractJwt request = Some token /\ verify token = Some p /\
        res = Ok (true, set_user (token_identity p) request)) \/
     res = Throw (UnauthorizedException
                    "No authentication credentials provided") \/
     res = Throw (UnauthorizedException "Invalid or expired token")).
Proof.
  assert (forall w1, exists res w',
            jwt_auth verify request w1 = (res, w') /\
            ((exists token p,
                extractJwt request = Some token /\ verify token = Some p /\
                res = Ok (true, set_user (token_identity p) request)) \/
             res = Throw (UnauthorizedException
                            "No authentication credentials provided") \/
             res = Throw (UnauthorizedException "Invalid or expired token")))
    as Hjwt.
  { intros w1. unfold jwt_auth.
    destruct (extractJwt request) as [token|] eqn:Et; simpl.
    - case_decide as Ee.
      + do 2 eexists. split; [done|]. right. by left.
      + destruct (verify token) as [p|] eqn:Ep.
        * do 2 eexists. split; [done|]. left. by exists token, p.
        * do 2 eexists. split; [done|]. right. by right.
    - do 2 eexists. split; [done|]. right. by left. }
  unfold canActivate.
  destruct (extractSessionId request) as [id|].
  - unfold try_catch, bind.
    destruct (SessionService.validateSession SESSION_TTL id now w)
      as [[s|e] w1] eqn:Ev.
    + apply validateSession_inv in Ev as [?|[?|(d & Hd & [= ->])]]; try done.
      do 2 eexists. split; [done|]. left. by exists id, d.
    + destruct (Hjwt w1) as (res & w' & E & Hc).
      exists res, w'. split; [done|]. by right.
  - destruct (Hjwt w) as (res & w' & E & Hc).
    exists res, w'. split; [done|]. by right.
Qed.

End GuardFacts.

(** ** The session endpoints *)

Section AuthFacts.
Context `{Json}.
Variable SESSION_TTL : Z.
Hypothesis SESSION_TTL_pos : 0 < SESSION_TTL.
Variable findOne : string -> option AuthService.User.
Variable compare : string -> string -> bool.
Variable sign : Guards.JwtPayload -> string.
Variable verify : string -> option Guards.JwtPayload.

Import Redis RedisService SessionService Guards.

Lemma find_Some {A} (p : A -> bool) l x :
  AuthController.find p l = Some x -> x ∈ l /\ p x = true.
Proof.
  induction l as [|y l IH]; [done|]. simpl.
  destruct (p y) eqn:E.
  - intros [= <-]. split; [by left|done].
  - intros [? ?]%IH. split; [by right|done].
Qed.

Lemma find_None {A} (p : A -> bool) l x :
  AuthController.find p l = None -> x ∈ l -> p x = false.
Proof.
  induction l as [|y l IH]; [by intros _ ?%elem_of_nil|]. simpl.
  destruct (p y) eqn:E; [done|].
  intros Hn [->|Hin]%elem_of_cons; [done|by apply IH].
Qed.

Lemma startsWith_nil s : startsWith "" s = true.
Proof. by destruct s. Qed.

Lemma startsWith_substring_to n s :
  startsWith (AuthController.substring_to n s) s = true.
Proof.
  revert s. induction n as [|n IH]; intros [|c s]; simpl; try done.
  by rewrite Ascii.eqb_refl, IH.
Qed.

Lemma remove_first_mask p :
  no_dot p = true -> AuthController.remove_first "..." (p +:+ "...") = p.
Proof.
  induction p as [|c p IH]; [done|].
  cbn [no_dot]. intros [Hc Hp]%andb_true_iff.
  apply negb_true_iff in Hc.
  assert (forall s, startsWith "..." (String c s) = false) as E.
  { intros s. change (Ascii.eqb "." c && startsWith ".." s = false).
    by rewrite Ascii.eqb_sym, Hc. }
  change (String c p +:+ "...") with (String c (p +:+ "...")).
  cbn [AuthController.remove_first].
  by rewrite E, IH.
Qed.

Lemma logout_reliable sid d r n :
  record_at r sid = Some d ->
  holds_string r (getUserSessionsKey (userId d)) = false ->
  exists r',
    AuthService.logout sid (World r [] n) = (Ok true, World r' [] n) /\
    live r' (getSessionKey sid) = None /\
    (forall k, k ≠ getSessionKey sid -> k ≠ getUserSessionsKey (userId d) ->
       live r' k = live r k).
Proof.
  intros Hd Hu.
  destruct (destroySession_reliable 1 Z.lt_0_1 sid d r n Hd Hu)
    as (r' & Hrun & Hgone & Hrest & _).
  exists r'. unfold AuthService.logout, bind. by rewrite Hrun.
Qed.

(** X12. Logging out with a session identity destroys the session: its id
    is turned away by [SessionAuthGuard] from then on. A token issued at
    login is not touched by it: [HybridAuthGuard] still lets a request
    through that carries the destroyed id together with a token that
    verifies, now with the identity of the token. *)
Theorem logout_revokes_the_session_only (d : SessionData) (r : redis)
    (n : nat) :
  record_at r (sessionId d) = Some d ->
  sessionId d ≠ "" ->
  holds_string r (getUserSessionsKey (userId d)) = false ->
  exists r',
    AuthController.logout (session_identity d) (World r [] n)
    = (Ok (AuthController.MkAnswer true None), World r' [] n) /\
    record_at r' (sessionId d) = None /\
    (forall request now,
       extractSessionId request = Some (sessionId d) ->
       SessionAuthGuard.canActivate SESSION_TTL request now (World r' [] n)
       = (Throw (UnauthorizedException "Invalid or expired session"),
          World r' [] n)) /\
    (forall request now token p,
       extractSessionId request = Some (sessionId d) ->
       authorization request = Some ("Bearer " +:+ token) ->
       token ≠ "" ->
       verify token = Some p ->
       canActivate SESSION_TTL verify request now (World r' [] n)
       = (Ok (true, set_user (token_identity p) request), World r' [] n)).
Proof.
  intros Hd Hne Hu.
  destruct (logout_reliable _ _ r n Hd Hu) as (r' & Hrun & Hgone & _).
  exists r'.
  assert (forall now,
            validateSession SESSION_TTL (sessionId d) now (World r' [] n)
            = (Throw (UnauthorizedException "Invalid or expired session"),
               World r' [] n)) as Hv.
  { intros now. apply validateSession_gone;
      [by apply record_at_gone|by apply holds_set_gone]. }
  split; [|split; [by apply record_at_gone|split]].
  - unfold AuthController.logout, session_identity. simpl.
    unfold truthy. rewrite decide_False by done.
    unfold bind. by rewrite Hrun.
  - intros request now Hid. unfold SessionAuthGuard.canActivate.
    rewrite Hid. unfold try_catch, bind. by rewrite Hv.
  - intros request now token p Hid Hauth Htok Hp. unfold canActivate.
    rewrite Hid. unfold try_catch, bind. rewrite Hv.
    unfold jwt_auth. rewrite (extractJwt_bearer _ _ Hauth).
    unfold truthy. rewrite decide_False by done. by rewrite Hp.
Qed.

(** X13. [revokeSession] touches the sessions of the caller only: either
    it answers that no session was found and leaves the store as it was,
    or it destroys one session among those the index of the caller lists,
    whose id starts with the parameter (its first [...] taken out), and
    leaves every key but that record and the caller's index as it was. *)
Theorem revokeSession_own_sessions_only (user : Identity) (param : string)
    (r : redis) (n : nat) :
  index_ok r (u_userId user) = true ->
  exists ans r',
    AuthController.revokeSession user param (World r [] n)
    = (Ok ans, World r' [] n) /\
    ((ans = AuthController.MkAnswer false (Some "Session not found") /\
      r' = r /\
      (forall d, d ∈ live_sessions r (u_userId user) ->
         startsWith (AuthController.remove_first "..." param) (sessionId d)
         = false)) \/
     (exists d,
        ans = AuthController.MkAnswer true None /\
        d ∈ live_sessions r (u_userId user) /\
        userId d = u_userId user /\
        startsWith (AuthController.remove_first "..." param) (sessionId d)
        = true /\
        record_at r' (sessionId d) = None /\
        (forall k, k ≠ getSessionKey (sessionId d) ->
                   k ≠ getUserSessionsKey (u_userId user) ->
                   live r' k = live r k))).
Proof.
  intros Hok. set (u := u_userId user) in *.
  destruct (index_ok_spec _ _ Hok) as (Hu & Hsets & Hrecs).
  destruct (live_sessions_ids r u Hrecs) as [_ Hin].
  unfold AuthController.revokeSession, AuthService.getActiveSessions.
  unfold bind at 1. fold u.
  rewrite getUserSessionsWithDetails_reliable by done.
  set (L := js_sort _ (live_sessions r u)).
  assert (L ≡ₚ live_sessions r u) as HL by apply js_sort_perm.
  destruct (AuthController.find _ L) as [d|] eqn:Ef.
  - apply find_Some in Ef as [HdL Hp]. rewrite HL in HdL.
    destruct (Hin d HdL) as (Hd & Hud & _).
    assert (holds_string r (getUserSessionsKey (userId d)) = false) as Hu'
      by (by rewrite Hud).
    destruct (logout_reliable _ _ r n Hd Hu') as (r' & Hrun & Hgone & Hrest).
    exists (AuthController.MkAnswer true None), r'. split.
    + unfold bind. by rewrite Hrun.
    + right. exists d. repeat split; try done.
      * by apply record_at_gone.
      * intros k H1 H2. apply Hrest; [done|by rewrite Hud].
  - do 2 eexists. split; [done|]. left. repeat split.
    intros d HdL. rewrite <- HL in HdL.
    exact (find_None _ _ _ Ef HdL).
Qed.

(** X14. A session id as [getSessions] shows it (the first 16 characters
    and [...]), handed to [revokeSession], destroys that session, when the
    16 characters hold no dot and no other session of the caller starts
    with them; the other sessions of the caller keep their records. *)
Theorem revokeSession_of_masked_id (user : Identity) (d : SessionData)
    (r : redis) (n : nat) :
  index_ok r (u_userId user) = true ->
  d ∈ live_sessions r (u_userId user) ->
  no_dot (AuthController.substring_to 16 (sessionId d)) = true ->
  (forall d', d' ∈ live_sessions r (u_userId user) ->
     startsWith (AuthController.substring_to 16 (sessionId d)) (sessionId d')
     = true -> d' = d) ->
  exists r',
    AuthController.revokeSession user (AuthController.mask (sessionId d))
      (World r [] n)
    = (Ok (AuthController.MkAnswer true None), World r' [] n) /\
    record_at r' (sessionId d) = None /\
    (forall d', d' ∈ live_sessions r (u_userId user) -> d' ≠ d ->
       record_at r' (sessionId d') = Some d').
Proof.
  intros Hok HdL Hdot Huniq. set (u := u_userId user) in *.
  destruct (index_ok_spec _ _ Hok) as (Hu & Hsets & Hrecs).
  destruct (live_sessions_ids r u Hrecs) as [Hnd Hin].
  unfold AuthController.revokeSession, AuthService.getActiveSessions.
  unfold bind at 1. fold u.
  rewrite getUserSessionsWithDetails_reliable by done.
  set (L := js_sort _ (live_sessions r u)).
  assert (L ≡ₚ live_sessions r u) as HL by apply js_sort_perm.
  unfold AuthController.mask. rewrite remove_first_mask by done.
  destruct (AuthController.find _ L) as [d'|] eqn:Ef.
  - apply find_Some in Ef as [Hd'L Hp]. rewrite HL in Hd'L.
    assert (d' = d) as -> by (by apply Huniq).
    destruct (Hin d HdL) as (Hd & Hud & _).
    assert (holds_string r (getUserSessionsKey (userId d)) = false) as Hu'
      by (by rewrite Hud).
    destruct (logout_reliable _ _ r n Hd Hu') as (r' & Hrun & Hgone & Hrest).
    exists r'. split; [unfold bind; by rewrite Hrun|].
    split; [by apply record_at_gone|].
    intros d' Hd' Hne. destruct (Hin d' Hd') as (Hr' & _ & _).
    rewrite <- Hr'. apply record_at_ext, Hrest.
    + intros E%getSessionKey_inj.
      apply Hne. apply (NoDup_fmap_1 sessionId) in Hnd.
      assert (Some d' = Some d) as [= ->]; [|done].
      destruct (Hin d HdL) as (Hr & _ & _). by rewrite <- Hr', <- Hr, E.
    + apply session_key_not_index_key.
  - exfalso. rewrite <- HL in HdL.
    pose proof (find_None _ _ _ Ef HdL) as Hf. cbv beta in Hf.
    by rewrite startsWith_substring_to in Hf.
Qed.

(** X15. [revokeSession] with the parameter [...] matches every session:
    it destroys the session of the caller that was used most recently. *)
Theorem revokeSession_dots_takes_latest (user : Identity) (r : redis)
    (n : nat) :
  index_ok r (u_userId user) = true ->
  live_sessions r (u_userId user) ≠ [] ->
  exists d r',
    AuthController.revokeSession user "..." (World r [] n)
    = (Ok (AuthController.MkAnswer true None), World r' [] n) /\
    d ∈ live_sessions r (u_userId user) /\
    (forall d', d' ∈ live_sessions r (u_userId user) ->
       lastAccessedAt d' <= lastAccessedAt d) /\
    record_at r' (sessionId d) = None.
Proof.
  intros Hok Hne. set (u := u_userId user) in *.
  destruct (index_ok_spec _ _ Hok) as (Hu & Hsets & Hrecs).
  destruct (live_sessions_ids r u Hrecs) as [Hnd Hin].
  unfold AuthController.revokeSession, AuthService.getActiveSessions.
  unfold bind at 1. fold u.
  rewrite getUserSessionsWithDetails_reliable by done.
  set (cmp := fun a b : SessionData => lastAccessedAt b - lastAccessedAt a).
  assert (StronglySorted (before cmp) (js_sort cmp (live_sessions r u))) as Hs.
  { apply js_sort_sorted; unfold before, cmp; intros; lia. }
  assert (js_sort cmp (live_sessions r u) ≡ₚ live_sessions r u) as HL
    by apply js_sort_perm.
  destruct (js_sort cmp (live_sessions r u)) as [|d L] eqn:EL.
  { apply Permutation_nil_l in HL. by rewrite <- HL in Hne. }
  change (AuthController.remove_first "..." "...") with "".
  cbn [AuthController.find]. rewrite startsWith_nil.
  assert (d ∈ live_sessions r u) as HdL by (rewrite <- HL; by left).
  destruct (Hin d HdL) as (Hd & Hud & _).
  assert (holds_string r (getUserSessionsKey (userId d)) = false) as Hu'
    by (by rewrite Hud).
  destruct (logout_reliable _ _ r n Hd Hu') as (r' & Hrun & Hgone & Hrest).
  exists d, r'. split; [unfold bind; by rewrite Hrun|].
  split; [done|]. split; [|by apply record_at_gone].
  intros d' Hd'. rewrite <- HL in Hd'.
  apply elem_of_cons in Hd' as [->|Hd']; [lia|].
  apply StronglySorted_inv in Hs as [_ Hall].
  rewrite Forall_forall in Hall. specialize (Hall d' Hd').
  unfold before, cmp in Hall. lia.
Qed.

(** X16. A login with the right password on an active account, for a
    user with fewer than five sessions, answers with the user without the
    password hash, a signed token and the new session id; a request that
    then carries this id passes [SessionAuthGuard] with the identity of
    that user. *)
Theorem login_opens_a_session (email password : string)
    (userAgent ipAddress : option string) (sid : string) (now now' : Z)
    (request : Request) (user : AuthService.User) (r : redis) (n : nat) :
  findOne email = Some user ->
  compare password (AuthService.password_hash user) = true ->
  AuthService.status user = "active" ->
  index_ok r (AuthService.id user) = true ->
  sid ∉ index_of r (AuthService.id user) ->
  (length (live_sessions r (AuthService.id user)) < MAX_SESSIONS_PER_USER)%nat ->
  extractSessionId request = Some sid ->
  exists r' r'' request',
    AuthService.login SESSION_TTL findOne compare sign email password
      userAgent ipAddress sid now (World r [] n)
    = (Ok {| AuthService.r_user := AuthService.withoutPassword user;
             AuthService.access_token := AuthService.generateToken sign user;
             AuthService.session_id := sid |}, World r' [] n) /\
    SessionAuthGuard.canActivate SESSION_TTL request now' (World r' [] n)
    = (Ok (true, request'), World r'' [] n) /\
    Guards.user request'
    = Some {| u_userId := AuthService.id user;
              u_email := AuthService.u_email user;
              u_role := AuthService.role user;
              u_tenantId := AuthService.tenant_id user;
              u_sessionId := Some sid |}.
Proof.
  intros Hfind Hpw Hact Hok Hfresh Hcap Hid.
  set (options := {| o_userId := AuthService.id user;
                     o_email := AuthService.u_email user;
                     o_role := AuthService.role user;
                     o_tenantId := AuthService.tenant_id user;
                     o_userAgent := userAgent;
                     o_ipAddress := ipAddress;
                     o_metadata := None |}).
  destruct (createSession_no_eviction SESSION_TTL SESSION_TTL_pos options sid
              now r n Hok Hfresh Hcap) as (r' & Hrun & _ & Hnew & _ & _).
  exists r'. do 2 eexists. split; [|split].
  - unfold AuthService.login. rewrite Hfind, Hpw, Hact. simpl.
    fold options. unfold bind. by rewrite Hrun.
  - unfold SessionAuthGuard.canActivate. rewrite Hid.
    unfold try_catch, bind.
    by rewrite (validateSession_reliable SESSION_TTL SESSION_TTL_pos _ _ _ _ _ Hnew).
  - done.
Qed.

(** X17. A login that fails, for an unknown email, a wrong password or an
    account that is not active, is turned away as unauthorized before the
    store is asked: no session is created and nothing is counted. The
    password is checked before the state of the account. *)
Theorem login_rejected_opens_nothing (email password : string)
    (userAgent ipAddress : option string) (sid : string) (now : Z)
    (w : world) :
  (findOne email = None ->
   AuthService.login SESSION_TTL findOne compare sign email password
     userAgent ipAddress sid now w
   = (Throw (UnauthorizedException
               "No account found with this email. Please register first."),
      w)) /\
  (forall user,
     findOne email = Some user ->
     compare password (AuthService.password_hash user) = false ->
     AuthService.login SESSION_TTL findOne compare sign email password
       userAgent ipAddress sid now w
     = (Throw (UnauthorizedException "Incorrect password. Please try again."),
        w)) /\
  (forall user,
     findOne email = Some user ->
     compare password (AuthService.password_hash user) = true ->
     AuthService.status user ≠ "active" ->
     AuthService.login SESSION_TTL findOne compare sign email password
       userAgent ipAddress sid now w
     = (Throw (UnauthorizedException "Account is not active"), w)).
Proof.
  unfold AuthService.login. split; [|split].
  - by intros ->.
  - by intros user -> ->.
  - intros user -> -> Hs. simpl. by rewrite bool_decide_eq_false_2.
Qed.

Lemma length_substring_to n s :
  (String.length (AuthController.substring_to n s) <= n)%nat.
Proof.
  revert s. induction n as [|n IH]; intros [|c s]; simpl; try lia.
  specialize (IH s). lia.
Qed.

Lemma length_mask sid : (String.length (AuthController.mask sid) <= 19)%nat.
Proof.
  unfold AuthController.mask.
  pose proof (length_substring_to 16 sid) as Hl.
  revert Hl. generalize (AuthController.substring_to 16 sid). intros p.
  assert (String.length (p +:+ "...") = (String.length p + 3)%nat) as ->.
  { induction p as [|c p IH]; [done|].
    change (String c p +:+ "...") with (String c (p +:+ "...")).
    cbn [String.length]. by rewrite IH. }
  lia.
Qed.

(** X28. [getSessions] shows the sessions of the caller in the order of
    [getActiveSessions], each with its id cut to at most 16 characters
    and [...] and everything else as stored; a session is marked current
    exactly when its id is the session id of the caller, so at most one
    is, and none for a caller who came with a token. *)
Theorem getSessions_masks_and_marks (user : Identity) (r : redis) (n : nat) :
  index_ok r (u_userId user) = true ->
  exists L S,
    AuthService.getActiveSessions (u_userId user) (World r [] n)
    = (Ok L, World r [] n) /\
    AuthController.getSessions user (World r [] n) = (Ok S, World r [] n) /\
    Forall2
      (fun d s =>
         sessionId (AuthController.shown s) = AuthController.mask (sessionId d) /\
         (String.length (sessionId (AuthController.shown s)) <= 19)%nat /\
         AuthController.set_sessionId (sessionId d) (AuthController.shown s) = d /\
         (AuthController.isCurrent s = true <->
          u_sessionId user = Some (sessionId d)))
      L S /\
    (forall (i j : nat) s1 s2,
       S !! i = Some s1 -> S !! j = Some s2 ->
       AuthController.isCurrent s1 = true ->
       AuthController.isCurrent s2 = true -> i = j) /\
    (u_sessionId user = None ->
     Forall (fun s => AuthController.isCurrent s = false) S).
Proof.
  intros Hok. set (u := u_userId user) in *.
  destruct (index_ok_spec _ _ Hok) as (Hu & Hsets & Hrecs).
  destruct (live_sessions_ids r u Hrecs) as [Hnd _].
  unfold AuthController.getSessions, AuthService.getActiveSessions, bind.
  fold u. rewrite getUserSessionsWithDetails_reliable by done.
  set (L := js_sort _ (live_sessions r u)).
  assert (L ≡ₚ live_sessions r u) as HL by apply js_sort_perm.
  rewrite <- HL in Hnd.
  do 2 eexists. split; [done|]. split; [done|]. split; [|split].
  - apply Forall2_fmap_r, Forall_Forall2_diag, Forall_forall.
    intros [sid ? ? ? ? ? ? ? ? ?] _. cbn.
    split; [done|]. split; [apply length_mask|]. split; [done|].
    by rewrite bool_decide_eq_true.
  - intros i j s1 s2 H1 H2 C1 C2.
    apply list_lookup_fmap_Some in H1 as (d1 & -> & E1).
    apply list_lookup_fmap_Some in H2 as (d2 & -> & E2).
    cbn in C1, C2. apply bool_decide_eq_true in C1, C2.
    eapply (NoDup_lookup _ i j (sessionId d1) Hnd).
    + by rewrite list_lookup_fmap, E1.
    + rewrite list_lookup_fmap, E2. simpl. f_equal. congruence.
  - intros Hnone. apply Forall_fmap, Forall_forall. intros d _. cbn.
    rewrite Hnone. by apply bool_decide_eq_false.
Qed.

Lemma destroyAllUserSessions_reliable u r n :
  holds_string r (getUserSessionsKey u) = false ->
  destroyAllUserSessions u (World r [] n)
  = (Ok (Z.of_nat (length (elements (index_of r u)))),
     World (remove (getUserSessionsKey u)
              (without_sessions (elements (index_of r u)) r)) [] n).
Proof.
  intros Hs. unfold destroyAllUserSessions, bind.
  rewrite getUserSessions_reliable by done.
  rewrite destroy_each_reliable, del_reliable. by unfold ret.
Qed.

(** X29. Logging out everywhere answers with the number of session ids
    the index of the caller lists; afterwards each of these ids is turned
    away by [SessionAuthGuard], and [getSessions] shows no session. *)
Theorem logoutAll_revokes_listed (user : Identity) (r : redis) (n : nat) :
  holds_string r (getUserSessionsKey (u_userId user)) = false ->
  exists r',
    AuthController.logoutAll user (World r [] n)
    = (Ok (true, Z.of_nat (size (index_of r (u_userId user)))),
       World r' [] n) /\
    (forall request now sid,
       sid ∈ index_of r (u_userId user) ->
       extractSessionId request = Some sid ->
       SessionAuthGuard.canActivate SESSION_TTL request now (World r' [] n)
       = (Throw (UnauthorizedException "Invalid or expired session"),
          World r' [] n)) /\
    AuthController.getSessions user (World r' [] n) = (Ok [], World r' [] n).
Proof.
  intros Hs. set (u := u_userId user) in *.
  eexists. split; [|split].
  - unfold AuthController.logoutAll, AuthService.logoutAllDevices, bind.
    fold u. by rewrite destroyAllUserSessions_reliable.
  - intros request now sid Hin Hid.
    assert (live (remove (getUserSessionsKey u)
                    (without_sessions (elements (index_of r u)) r))
              (getSessionKey sid) = None) as Hgone.
    { rewrite live_remove_ne
        by (apply not_eq_sym, session_key_not_index_key).
      rewrite live_without_sessions, decide_True; [done|].
      apply list_elem_of_fmap. exists sid. split; [done|].
      by apply elem_of_elements. }
    unfold SessionAuthGuard.canActivate. rewrite Hid.
    unfold try_catch, bind.
    by rewrite (validateSession_gone SESSION_TTL _ n sid now
                  (record_at_gone _ _ Hgone) (holds_set_gone _ _ Hgone)).
  - unfold AuthController.getSessions, AuthService.getActiveSessions,
      getUserSessionsWithDetails, bind. fold u.
    unfold getUserSessions, sMembers. rewrite command_reliable.
    unfold SMEMBERS. by rewrite live_remove_eq.
Qed.

End AuthFacts.

(** ** The store service, its client and the health probes *)

Section StoreFacts.
Context `{Json}.
Import Redis RedisService.

Lemma set_persistent k v ttlSeconds r n :
  truthy_num ttlSeconds = false ->
  set k v ttlSeconds (World r [] n)
  = (Ok tt, World (store k (Entry (RStr v) None) r) [] n).
Proof. intros Ht. unfold set. rewrite Ht. by rewrite command_reliable. Qed.

Lemma set_expiring k v t r n :
  0 < t ->
  set k v (Some t) (World r [] n)
  = (Ok tt, World (store k (Entry (RStr v) (Some (clock r + t))) r) [] n).
Proof.
  intros Ht. unfold set.
  assert (truthy_num (Some t) = true) as ->.
  { unfold truthy_num. by replace (t =? 0) with false
      by (symmetry; apply Z.eqb_neq; lia). }
  rewrite command_reliable. unfold SETEX. simpl default.
  by replace (0 <? t) with true by (symmetry; apply Z.ltb_lt; lia).
Qed.

(** X25. What [setJson] stores, [getJson] reads back: with a positive
    number of seconds the key expires after them, with none or with 0 it
    does not expire, and no other key is changed. With a negative number
    of seconds the server refuses the command, [setJson] throws and
    nothing is stored. *)
Theorem setJson_getJson (key : string) (d : SessionData)
    (ttlSeconds : option Z) (r : redis) (n : nat) :
  ((forall t, ttlSeconds = Some t -> 0 <= t) ->
   exists r',
     (setJson key d ttlSeconds ;; getJson key) (World r [] n)
     = (Ok (Some d), World r' [] n) /\
     (forall t, ttlSeconds = Some t -> 0 < t -> ttl_of r' key = Some t) /\
     (ttlSeconds = None \/ ttlSeconds = Some 0 -> ttl_of r' key = Some (-1)) /\
     (forall k, k ≠ key -> live r' k = live r k)) /\
  (forall t, ttlSeconds = Some t -> t < 0 ->
     setJson key d ttlSeconds (World r [] n)
     = (Throw StoreError, World r [] (S n))).
Proof.
  assert (falsy_str (JSON_stringify d) = false) as Hne.
  { unfold falsy_str. case_decide as E; [|done].
    pose proof (JSON_parse_stringify d) as P.
    rewrite E, JSON_parse_empty in P. discriminate. }
  assert (forall e,
            expired (clock r) e = false ->
            value e = RStr (JSON_stringify d) ->
            getJson key (World (store key e r) [] n)
            = (Ok (Some d), World (store key e r) [] n)) as Hget.
  { intros [v exp] He Hv. simpl in Hv. subst v.
    unfold getJson, get, bind. rewrite command_reliable. unfold GET.
    rewrite live_store_eq, He. unfold ret.
    by rewrite Hne, JSON_parse_stringify. }
  split.
  - intros Hpos. destruct ttlSeconds as [t|].
    + specialize (Hpos t eq_refl).
      destruct (decide (t = 0)) as [->|Ht].
      * eexists. split; [|split; [|split]].
        -- unfold bind, setJson. rewrite set_persistent by done.
           by apply Hget.
        -- intros t [= <-]. lia.
        -- intros _. unfold ttl_of, TTL. by rewrite live_store_eq.
        -- intros k Hk. by rewrite live_store_ne.
      * assert (expired (clock r)
                  (Entry (RStr (JSON_stringify d)) (Some (clock r + t))) = false)
          as Hx.
        { rewrite expired_Some. apply Z.leb_gt. lia. }
        eexists. split; [|split; [|split]].
        -- unfold bind, setJson. rewrite set_expiring by lia.
           by apply Hget.
        -- intros t' [= <-] _. unfold ttl_of, TTL.
           rewrite live_store_eq, Hx. simpl. f_equal. lia.
        -- intros [?|[= ?]]; done.
        -- intros k Hk. by rewrite live_store_ne.
    + eexists. split; [|split; [|split]].
      * unfold bind, setJson. rewrite set_persistent by done.
        by apply Hget.
      * done.
      * intros _. unfold ttl_of, TTL. by rewrite live_store_eq.
      * intros k Hk. by rewrite live_store_ne.
  - intros t -> Ht. unfold setJson, set.
    assert (truthy_num (Some t) = true) as ->.
    { unfold truthy_num. by replace (t =? 0) with false
        by (symmetry; apply Z.eqb_neq; lia). }
    rewrite command_reliable. unfold SETEX. simpl default.
    by replace (0 <? t) with false by (symmetry; apply Z.ltb_ge; lia).
Qed.

(** X26. The reconnect strategy of the client waits 100 ms more after
    each attempt and gives up after the tenth: the delay it returns is
    never above one second, so its cap of three seconds is never what
    decides. *)
Theorem reconnectStrategy_bounds (retries : Z) :
  (retries <= 10 ->
   RedisModule.reconnectStrategy retries = inl (retries * 100) /\
   retries * 100 <= 1000) /\
  (10 < retries ->
   RedisModule.reconnectStrategy retries
   = inr (Error "Max reconnection attempts reached")).
Proof.
  unfold RedisModule.reconnectStrategy. split; intros Hr.
  - replace (10 <? retries) with false by (symmetry; apply Z.ltb_ge; lia).
    split; [|lia]. f_equal. lia.
  - by replace (10 <? retries) with true by (symmetry; apply Z.ltb_lt; lia).
Qed.

Lemma command_failing {A} (c : redis -> reply A) r fs n :
  command c (World r (true :: fs) n) = (Throw StoreError, World r fs (S n)).
Proof. done. Qed.

Lemma command_passing {A} (c : redis -> reply A) r fs n :
  command c (World r (false :: fs) n)
  = match c r with
    | (Some a, r') => (Ok a, World r' fs n)
    | (None, r') => (Throw StoreError, World r' fs (S n))
    end.
Proof. unfold command. simpl. by destruct (c r) as [[a|] r']. Qed.

(** X27. The health probes never throw. [detailedCheck] reports the store
    as up, and the service as healthy, exactly when its two commands went
    through, and then it leaves the key [health:check] with the value
    [ok] and ten seconds to live; after a store error it reports the
    store as down and the service as unhealthy. [readiness] answers
    [true] exactly when its command went through. *)
Theorem health_probes_report_the_store (w : world) :
  (exists resp w',
     HealthController.detailedCheck w = (Ok resp, w') /\
     HealthController.database resp = "up" /\
     HealthController.ai resp = "unknown" /\
     ((HealthController.redis resp = "up" /\
       HealthController.status resp = "healthy" /\
       errors w' = errors w /\
       live (kv w') "health:check"
       = Some (Entry (RStr "ok") (Some (clock (kv w) + 10)))) \/
      (HealthController.redis resp = "down" /\
       HealthController.status resp = "unhealthy" /\
       errors w' = S (errors w) /\
       faults w ≠ []))) /\
  (exists ready w',
     HealthController.readiness w = (Ok ready, w') /\
     errors w' = if ready then errors w else S (errors w)).
Proof.
  split.
  - destruct w as [r fs n].
    set (r1 := store "health:check" (Entry (RStr "ok") (Some (clock r + 10))) r).
    assert (live r1 "health:check"
            = Some (Entry (RStr "ok") (Some (clock r + 10)))) as Hl.
    { unfold r1. rewrite live_store_eq, expired_Some.
      by replace (clock r + 10 <=? clock r) with false
        by (symmetry; apply Z.leb_gt; lia). }
    assert (SETEX "health:check" 10 "ok" r = (Some tt, r1)) as Hset by done.
    assert (GET "health:check" r1 = (Some (Some "ok"), r1)) as Hget.
    { unfold GET. by rewrite Hl. }
    unfold HealthController.detailedCheck, try_catch, set, get.
    unfold bind at 1 2.
    change (truthy_num (Some 10)) with true.
    change (default 0 (Some 10)) with 10. cbv iota.
    destruct fs as [|[] fs].
    + rewrite command_reliable, Hset. unfold bind.
      rewrite command_reliable, Hget.
      do 2 eexists. split; [done|]. split; [done|]. split; [done|].
      left. by repeat split.
    + rewrite command_failing.
      do 2 eexists. split; [done|]. split; [done|]. split; [done|].
      right. by repeat split.
    + rewrite command_passing, Hset. unfold bind.
      destruct fs as [|[] fs].
      * rewrite command_reliable, Hget.
        do 2 eexists. split; [done|]. split; [done|]. split; [done|].
        left. by repeat split.
      * rewrite command_failing.
        do 2 eexists. split; [done|]. split; [done|]. split; [done|].
        right. by repeat split.
      * rewrite command_passing, Hget.
        do 2 eexists. split; [done|]. split; [done|]. split; [done|].
        left. by repeat split.
  - unfold HealthController.readiness, try_catch, bind, get.
    destruct (command (GET "health:ready") w) as [[v|e] w1] eqn:Ec.
    + do 2 eexists. split; [done|].
      unfold command in Ec.
      destruct (faults w) as [|[] fs]; try done;
        destruct (GET "health:ready" (kv w)) as [[a|] r']; by simplify_eq.
    + do 2 eexists. split; [done|].
      unfold command in Ec.
      destruct (faults w) as [|[] fs];
        try (destruct (GET "health:ready" (kv w)) as [[a|] r']);
        by simplify_eq.
Qed.

End StoreFacts.



(** ** The rate limiters *)

Lemma RateLimitMiddleware_use req now :
  RateLimit.RateLimitMiddleware.use req now
  = limiter RateLimit.RateLimitMiddleware.config
      (RateLimit.RateLimitMiddleware.key_of req) true now.
Proof. reflexivity. Qed.

Lemma AuthRateLimitMiddleware_use req now :
  RateLimit.AuthRateLimitMiddleware.use req now
  = limiter RateLimit.AuthRateLimitMiddleware.config
      (RateLimit.AuthRateLimitMiddleware.key_of req) false now.
Proof.
  unfold RateLimit.AuthRateLimitMiddleware.use, limiter.
  f_equal.
Qed.

Section LimiterFacts.
Import Redis RateLimit.

Variables (cfg : RateLimitConfig) (key : string) (with_reset : bool).

Lemma redis_bind {A B} (m : M world A) (k : A -> M world B) x :
  redisService (bind m k) x
  = bind (redisService m) (fun a => redisService (k a)) x.
Proof.
  unfold redisService, bind. destruct (m (ex_world x)) as [[a|e] w']; [|done].
  simpl. by destruct (k a w').
Qed.

Lemma redis_command_cases {A} (c : redis -> reply A) x :
  (exists a w',
     redisService (command c) x
     = (Ok a, Exchange w' (headers x) (nexts x)) /\
     errors w' = errors (ex_world x)) \/
  (exists w',
     redisService (command c) x
     = (Throw StoreError, Exchange w' (headers x) (nexts x)) /\
     errors w' = S (errors (ex_world x))).
Proof.
  unfold redisService, command.
  destruct (faults (ex_world x)) as [|[] fs];
    destruct (c (kv (ex_world x))) as [[a|] r']; simpl; eauto.
Qed.

Lemma redis_expire_cases k s x :
  (exists b w',
     redisService (RedisService.expire k s) x
     = (Ok b, Exchange w' (headers x) (nexts x)) /\
     errors w' = errors (ex_world x)) \/
  (exists w',
     redisService (RedisService.expire k s) x
     = (Throw StoreError, Exchange w' (headers x) (nexts x)) /\
     errors w' = S (errors (ex_world x))).
Proof.
  unfold RedisService.expire. rewrite redis_bind. unfold bind.
  destruct (redis_command_cases (EXPIRE k s) x)
    as [(a & w2 & E2 & Er2)|(w2 & E2 & Er2)]; rewrite E2.
  - left. do 2 eexists. split; [reflexivity|done].
  - right. eexists. split; [reflexivity|done].
Qed.

(** What a pass through a limiter can do: it fails open after a store
    error, leaving the headers alone; or all three commands succeed, the
    headers are set, and the request goes on or is rejected by the count. *)
Lemma limiter_outcome now x :
  exists res x', limiter cfg key with_reset now x = (res, x') /\
  ((res = Ok tt /\ nexts x' = S (nexts x) /\
    errors (ex_world x') = S (errors (ex_world x)) /\
    headers x' = headers x) \/
   (exists current ttl,
      errors (ex_world x') = errors (ex_world x) /\
      headers x' = rate_headers cfg with_reset now current ttl (headers x) /\
      ((current <= maxRequests cfg /\ res = Ok tt /\
        nexts x' = S (nexts x)) \/
       (maxRequests cfg < current /\
        res = Throw (HttpException TOO_MANY_REQUESTS (message cfg) ttl) /\
        nexts x' = nexts x)))).
Proof.
  unfold limiter, try_catch. unfold bind at 1. unfold RedisService.incr.
  destruct (redis_command_cases (INCR key) x)
    as [(current & w1 & E1 & Er1)|(w1 & E1 & Er1)]; rewrite E1; simpl;
    [|do 2 eexists; split; [done|]; left; by simpl].
  set (x1 := Exchange w1 (headers x) (nexts x)).
  assert (exists x2,
            (((if current =? 1
              then let* _ := redisService
                               (RedisService.expire key
                                  (ceil_div (windowMs cfg) 1000)) in ret tt
              else ret tt) x1 = (Ok tt, x2) /\
             errors (ex_world x2) = errors w1) \/
            ((if current =? 1
              then let* _ := redisService
                               (RedisService.expire key
                                  (ceil_div (windowMs cfg) 1000)) in ret tt
              else ret tt) x1 = (Throw StoreError, x2) /\
             errors (ex_world x2) = S (errors w1))) /\
            headers x2 = headers x /\ nexts x2 = nexts x) as (x2 & Hx2).
  { destruct (current =? 1).
    - unfold bind.
      destruct (redis_expire_cases key (ceil_div (windowMs cfg) 1000) x1)
        as [(a & w2 & E2 & Er2)|(w2 & E2 & Er2)]; rewrite E2.
      + eexists. split; [left; split; [reflexivity|]; by simpl|by split].
      + eexists. split; [right; split; [reflexivity|]; by simpl|by split].
    - exists x1. split; [left; by split|by split]. }
  destruct Hx2 as ([[E2 Er2]|[E2 Er2]] & Hh2 & Hn2);
    unfold bind at 1; rewrite E2;
    [|do 2 eexists; split; [done|]; left; simpl; repeat split; congruence].
  unfold bind at 1. unfold RedisService.ttl.
  destruct (redis_command_cases (TTL key) x2)
    as [(ttl & w3 & E3 & Er3)|(w3 & E3 & Er3)]; rewrite E3;
    [|do 2 eexists; split; [done|]; left; simpl; repeat split; congruence].
  assert (headers
            (snd ((if with_reset
                 then setHeader "X-RateLimit-Reset" (now + ttl * 1000)
                 else ret tt)
                (Exchange w3
                   (<["X-RateLimit-Remaining" :=
                        Z.max 0 (maxRequests cfg - current)]>
                      (<["X-RateLimit-Limit" := maxRequests cfg]> (headers x2)))
                   (nexts x2))))
          = rate_headers cfg with_reset now current ttl (headers x)) as Hh.
  { unfold rate_headers. rewrite Hh2. by destruct with_reset. }
  unfold bind, setHeader, modify, next, throw, ret in *. simpl in *.
  destruct with_reset; simpl in *;
    (destruct (maxRequests cfg <? current) eqn:Ec;
     [apply Z.ltb_lt in Ec|apply Z.ltb_ge in Ec]);
    simpl; do 2 eexists; (split; [done|]); right; exists current, ttl; simpl;
    (split; [congruence|]); (split; [done|]);
    [right|left|right|left]; repeat split; (done || lia || congruence).
Qed.


(** *** One window of a counter *)

Hypothesis window_pos : 0 < (window_seconds cfg).
Hypothesis cap_pos : 1 <= maxRequests cfg.

Lemma redis_reliable {A} (c : redis -> reply A) r n h k :
  redisService (command c) (Exchange (World r [] n) h k) =
  match c r with
  | (Some a, r') => (Ok a, Exchange (World r' [] n) h k)
  | (None, r') => (Throw StoreError, Exchange (World r' [] (S n)) h k)
  end.
Proof.
  unfold redisService. simpl. rewrite command_reliable.
  by destruct (c r) as [[a|] r'].
Qed.

Lemma counting_live r c t : counting key r c t -> clock r < t.
Proof.
  intros E. apply live_not_expired in E. unfold expired in E. simpl in E.
  apply Z.leb_gt in E. lia.
Qed.

(** The first request of a window: the counter starts at 1 and the key is
    given the window as its life. *)
Lemma limiter_first now r n h k :
  live r key = None ->
  exists r1,
    limiter cfg key with_reset now (Exchange (World r [] n) h k)
    = (Ok tt,
       Exchange (World r1 [] n) (rate_headers cfg with_reset now 1 (window_seconds cfg) h) (S k)) /\
    counting key r1 1 (clock r + (window_seconds cfg)) /\
    clock r1 = clock r.
Proof.
  intros Hnone.
  set (ra := store key (Entry (RStr (print_int 1)) None) r).
  set (rb := store key (Entry (RStr (print_int 1))
                          (Some (clock r + (window_seconds cfg)))) ra).
  exists rb.
  assert (live ra key = Some (Entry (RStr (print_int 1)) None)) as La.
  { unfold ra. by rewrite live_store_eq. }
  assert (counting key rb 1 (clock r + (window_seconds cfg))) as Lb.
  { unfold counting, rb. rewrite live_store_eq, expired_Some.
    replace (clock r + (window_seconds cfg) <=? clock ra) with false; [done|].
    symmetry. apply Z.leb_gt. unfold ra. simpl. lia. }
  split; [|by split].
  unfold limiter, try_catch. unfold bind at 1.
  unfold RedisService.incr. rewrite redis_reliable. unfold INCR at 1.
  rewrite Hnone. fold ra. simpl (1 =? 1).
  unfold bind at 1. unfold bind at 1. unfold RedisService.expire.
  rewrite redis_bind. unfold bind at 1. rewrite redis_reliable.
  unfold EXPIRE at 1. rewrite La. fold (window_seconds cfg).
  replace (0 <? (window_seconds cfg)) with true by (symmetry; apply Z.ltb_lt; lia).
  simpl value. replace (clock ra) with (clock r) by done. fold rb.
  unfold redisService at 1, ret at 1. simpl.
  unfold bind at 1, ret at 1. unfold bind at 1.
  unfold RedisService.ttl. rewrite redis_reliable. unfold TTL.
  unfold counting in Lb. rewrite Lb.
  replace (clock rb) with (clock r) by done.
  replace (clock r + (window_seconds cfg) - clock r) with (window_seconds cfg) by lia.
  unfold bind, setHeader, modify, next, ret. simpl.
  replace (maxRequests cfg <? 1) with false by (symmetry; apply Z.ltb_ge; lia).
  unfold rate_headers. by destruct with_reset.
Qed.

(** A later request of the window: the counter goes up by one, the expiry
    stays, and the request is rejected once the count exceeds the cap. *)
Lemma limiter_next now r n h k c t :
  counting key r c t -> 1 <= c ->
  exists r1,
    limiter cfg key with_reset now (Exchange (World r [] n) h k)
    = (if maxRequests cfg <? c + 1
       then Throw (HttpException TOO_MANY_REQUESTS (message cfg) (t - clock r))
       else Ok tt,
       Exchange (World r1 [] n) (rate_headers cfg with_reset now (c + 1) (t - clock r) h)
         (if maxRequests cfg <? c + 1 then k else S k)) /\
    counting key r1 (c + 1) t /\
    clock r1 = clock r.
Proof.
  intros Hc Hpos. pose proof (counting_live _ _ _ Hc) as Hlive.
  set (ra := store key (Entry (RStr (print_int (c + 1))) (Some t)) r).
  exists ra.
  assert (counting key ra (c + 1) t) as La.
  { unfold counting, ra. rewrite live_store_eq, expired_Some.
    by replace (t <=? clock r) with false by (symmetry; apply Z.leb_gt; lia). }
  split; [|by split].
  unfold limiter, try_catch. unfold bind at 1.
  unfold RedisService.incr. rewrite redis_reliable. unfold INCR at 1.
  unfold counting in Hc. rewrite Hc, parse_print_int. fold ra.
  replace (c + 1 =? 1) with false by (symmetry; apply Z.eqb_neq; lia).
  unfold bind at 1. unfold ret at 1. unfold bind at 1.
  unfold RedisService.ttl. rewrite redis_reliable. unfold TTL.
  unfold counting in La. rewrite La.
  replace (clock ra) with (clock r) by done.
  unfold bind, setHeader, modify, next, ret, throw. simpl.
  unfold rate_headers.
  by destruct with_reset, (maxRequests cfg <? c + 1).
Qed.

(** Time passing over a counter. *)
Lemma counting_advance r c t dt :
  counting key r c t -> clock r + dt < t -> counting key (advance dt r) c t.
Proof.
  unfold counting, live, advance. simpl. intros E Hlt.
  destruct (db r !! key) as [e|]; [|done].
  destruct (expired (clock r) e); [done|]. injection E as ->.
  rewrite expired_Some.
  by replace (t <=? clock r + dt) with false by (symmetry; apply Z.leb_gt; lia).
Qed.

Lemma counting_expires r c t dt :
  counting key r c t -> t <= clock r + dt -> live (advance dt r) key = None.
Proof.
  unfold counting, live, advance. simpl. intros E Hlt.
  destruct (db r !! key) as [e|]; [|done].
  destruct (expired (clock r) e); [done|]. injection E as ->.
  rewrite expired_Some.
  by replace (t <=? clock r + dt) with true by (symmetry; apply Z.leb_le; lia).
Qed.

(** *** Requests one after another *)

Lemma total_nonneg l : Forall (fun dt => 0 <= dt) l -> 0 <= total l.
Proof. induction 1; simpl; lia. Qed.

Lemma serve_counting arrivals r c t n :
  counting key r c t -> 1 <= c ->
  Forall (fun dt => 0 <= dt) (fst <$> arrivals) ->
  clock r + total (fst <$> arrivals) < t ->
  exists r',
    snd (serve (limiter cfg key with_reset) arrivals (World r [] n))
    = World r' [] n /\
    counting key r' (c + Z.of_nat (length arrivals)) t /\
    clock r' = clock r + total (fst <$> arrivals) /\
    forall (i : nat) res x,
      fst (serve (limiter cfg key with_reset) arrivals (World r [] n)) !! i
      = Some (res, x) ->
      counting key (kv (ex_world x)) (c + 1 + Z.of_nat i) t /\
      ttl_of (kv (ex_world x)) key = Some (t - clock (kv (ex_world x))) /\
      headers x !! "X-RateLimit-Remaining"
      = Some (Z.max 0 (maxRequests cfg - (c + 1 + Z.of_nat i))) /\
      verdict cfg (c + 1 + Z.of_nat i) (t - clock (kv (ex_world x))) res x.
Proof.
  revert r c. induction arrivals as [|[dt now] rest IH]; intros r c Hc Hpos Hdts Ht.
  - exists r. simpl. split; [done|]. split; [by rewrite Z.add_0_r|].
    split; [lia|]. intros i res x Hi. by rewrite lookup_nil in Hi.
  - rewrite fmap_cons in Hdts, Ht. simpl in Hdts, Ht.
    apply Forall_cons in Hdts as [Hdt Hrest].
    pose proof (total_nonneg _ Hrest) as Hnn.
    assert (counting key (advance dt r) c t) as Hc'.
    { apply counting_advance; [done|lia]. }
    destruct (limiter_next now (advance dt r) n ∅ 0 c t Hc' Hpos)
      as (r1 & E1 & C1 & K1).
    simpl in K1.
    destruct (IH r1 (c + 1) C1) as (r' & E' & C' & K' & Hout);
      [lia|done|lia|].
    cbn [serve]. unfold start, tick. simpl kv. simpl faults. simpl errors.
    rewrite E1.
    destruct (serve (limiter cfg key with_reset) rest
                (ex_world
                   (Exchange (World r1 [] n)
                      (rate_headers cfg with_reset now (c + 1) (t - clock (advance dt r)) ∅)
                      (if maxRequests cfg <? c + 1 then 0%nat else 1%nat))))
      as [out w'] eqn:Es.
    simpl in Es. rewrite Es in E', Hout. simpl in E', Hout.
    exists r'. simpl. split; [done|]. split.
    { replace (c + Z.of_nat (S (length rest)))
        with (c + 1 + Z.of_nat (length rest)) by lia. done. }
    split.
    { rewrite K', K1.
      change (list_fmap (Z * Z)%type Z fst rest) with (rest.*1). lia. }
    intros [|i] res x Hi.
    + simpl in Hi. injection Hi as <- <-. simpl.
      rewrite Z.add_0_r. split; [done|]. split.
      { unfold ttl_of, TTL. unfold counting in C1. by rewrite C1. }
      split.
      { unfold rate_headers. destruct with_reset.
        - rewrite lookup_insert_ne by done. by rewrite lookup_insert_eq.
        - by rewrite lookup_insert_eq. }
      pose proof (counting_live _ _ _ C1) as Hl.
      unfold verdict. rewrite K1.
      destruct (maxRequests cfg <? c + 1) eqn:Ecap;
        [apply Z.ltb_lt in Ecap|apply Z.ltb_ge in Ecap];
        split; intros ?; try lia; repeat split; (done || lia).
    + simpl in Hi. specialize (Hout i res x Hi).
      replace (c + 1 + Z.of_nat (S i)) with (c + 1 + 1 + Z.of_nat i) by lia.
      done.
Qed.

(** A window from its first request on: the requests that arrive while the
    key lives are counted from 1, allowed up to the cap and rejected beyond
    it with the remaining life of the key; the life of the key is set by
    the first request only; a request that arrives after the key has
    expired starts a new window. *)
Lemma serve_window now0 arrivals r n :
  live r key = None ->
  Forall (fun dt => 0 <= dt) (fst <$> arrivals) ->
  total (fst <$> arrivals) < (window_seconds cfg) ->
  exists r',
    snd (serve (limiter cfg key with_reset) ((0, now0) :: arrivals)
           (World r [] n))
    = World r' [] n /\
    (forall (i : nat) res x,
       fst (serve (limiter cfg key with_reset) ((0, now0) :: arrivals)
              (World r [] n)) !! i = Some (res, x) ->
       counting key (kv (ex_world x)) (Z.of_nat i + 1) (clock r + (window_seconds cfg)) /\
       ttl_of (kv (ex_world x)) key
       = Some (clock r + (window_seconds cfg) - clock (kv (ex_world x))) /\
       headers x !! "X-RateLimit-Remaining"
       = Some (Z.max 0 (maxRequests cfg - (Z.of_nat i + 1))) /\
       verdict cfg (Z.of_nat i + 1)
         (clock r + (window_seconds cfg) - clock (kv (ex_world x))) res x) /\
    (forall dt now,
       clock r + (window_seconds cfg) <= clock r' + dt ->
       exists r'',
         limiter cfg key with_reset now (start (tick dt (World r' [] n)))
         = (Ok tt,
            Exchange (World r'' [] n)
              (rate_headers cfg with_reset now 1 (window_seconds cfg) ∅) 1) /\
         counting key r'' 1 (clock r' + dt + (window_seconds cfg))).
Proof.
  intros Hnone Hdts Ht.
  assert (live (advance 0 r) key = None) as Hnone0.
  { unfold live, advance in *. simpl. by rewrite Z.add_0_r. }
  destruct (limiter_first now0 (advance 0 r) n ∅ 0 Hnone0)
    as (r1 & E1 & C1 & K1).
  simpl in K1, C1. rewrite Z.add_0_r in K1, C1.
  destruct (serve_counting arrivals r1 1 (clock r + (window_seconds cfg)) n C1)
    as (r' & E' & C' & K' & Hout); [lia|done|lia|].
  cbn [serve]. unfold start, tick.
  simpl kv. simpl faults. simpl errors. rewrite E1.
  destruct (serve (limiter cfg key with_reset) arrivals
              (ex_world
                 (Exchange (World r1 [] n)
                    (rate_headers cfg with_reset now0 1 (window_seconds cfg) ∅) 1)))
    as [out w'] eqn:Es.
  simpl in Es. rewrite Es in E', Hout. simpl in E', Hout.
  exists r'. simpl. split; [done|]. split.
  - intros [|i] res x Hi.
    + simpl in Hi. injection Hi as <- <-. simpl. split; [done|]. split.
      { unfold ttl_of, TTL. unfold counting in C1. rewrite C1. simpl.
        by rewrite K1. }
      split.
      { unfold rate_headers. destruct with_reset.
        - rewrite lookup_insert_ne by done. by rewrite lookup_insert_eq.
        - by rewrite lookup_insert_eq. }
      unfold verdict. split; intros ?; [done|lia].
    + simpl in Hi. specialize (Hout i res x Hi).
      replace (Z.of_nat (S i) + 1) with (1 + 1 + Z.of_nat i) by lia. done.
  - intros dt now Hdt.
    assert (live (advance dt r') key = None) as Hgone.
    { eapply counting_expires; [exact C'|lia]. }
    destruct (limiter_first now (advance dt r') n ∅ 0 Hgone)
      as (r'' & E'' & C'' & K'').
    exists r''. split; [exact E''|]. exact C''.
Qed.
(** *** The key a limiter works on *)

(** A computation leaves the key [k'] as the server shows it. *)
Local Notation "'keeps' k' m" :=
  (forall x, live (kv (ex_world (snd (m x)))) k' = live (kv (ex_world x)) k')
  (at level 10, k' at level 9, m at level 9).

Lemma keeps_bind {A B} k' (m : M exchange A) (f : A -> M exchange B) :
  keeps k' m -> (forall a, keeps k' (f a)) -> keeps k' (bind m f).
Proof.
  intros Hm Hf x. unfold bind. specialize (Hm x).
  destruct (m x) as [[a|e] x1]; [|done]. rewrite Hf. exact Hm.
Qed.

Lemma keeps_try {A} k' (m : M exchange A) (h : exn -> M exchange A) :
  keeps k' m -> (forall e, keeps k' (h e)) -> keeps k' (try_catch m h).
Proof.
  intros Hm Hh x. unfold try_catch. specialize (Hm x).
  destruct (m x) as [[a|e] x1]; [done|]. rewrite Hh. exact Hm.
Qed.

Lemma keeps_command {A} k' (c : redis -> reply A) :
  (forall r, live (snd (c r)) k' = live r k') ->
  keeps k' (redisService (command c)).
Proof.
  intros Hc x. unfold redisService, command.
  destruct (faults (ex_world x)) as [|[] fs]; simpl; try done;
    specialize (Hc (kv (ex_world x)));
    by destruct (c (kv (ex_world x))) as [[a|] r'].
Qed.

Lemma keeps_INCR k' : k' ≠ key -> forall r, live (snd (INCR key r)) k' = live r k'.
Proof.
  intros Hne r. unfold INCR.
  destruct (live r key) as [[[s|m] exp]|]; simpl; try done.
  - destruct (parse_int s); simpl; [|done]. by rewrite live_store_ne.
  - by rewrite live_store_ne.
Qed.

Lemma keeps_EXPIRE k' s :
  k' ≠ key -> forall r, live (snd (EXPIRE key s r)) k' = live r k'.
Proof.
  intros Hne r. unfold EXPIRE.
  destruct (live r key) as [e|]; simpl; [|done].
  destruct (0 <? s); simpl; [by rewrite live_store_ne|by rewrite live_remove_ne].
Qed.

Lemma keeps_TTL k' : forall r, live (snd (TTL key r)) k' = live r k'.
Proof.
  intros r. unfold TTL. by destruct (live r key) as [[v [t|]]|].
Qed.

(** A pass through a limiter shows no other key changed, whatever the
    connection does. *)
Lemma limiter_frame now k' :
  k' ≠ key -> keeps k' (limiter cfg key with_reset now).
Proof.
  intros Hne. unfold limiter.
  apply keeps_try.
  - apply keeps_bind.
    { unfold RedisService.incr. by apply keeps_command, keeps_INCR. }
    intros current. apply keeps_bind.
    { destruct (current =? 1); [|done].
      apply keeps_bind; [|done].
      unfold RedisService.expire. intros x. rewrite redis_bind.
      revert x. apply keeps_bind; [|done].
      by apply keeps_command, keeps_EXPIRE. }
    intros _. apply keeps_bind.
    { unfold RedisService.ttl. by apply keeps_command, keeps_TTL. }
    intros ttl. repeat (apply keeps_bind; [done|intros _]).
    apply keeps_bind; [by destruct with_reset|intros _].
    by destruct (maxRequests cfg <? current).
  - intros e. by destruct (instanceof_HttpException e).
Qed.

(** The connection fails at EXPIRE, after the first INCR of a window: the
    request is passed on and the counter is left without an expiry. *)
Lemma limiter_expire_lost now r n h k :
  live r key = None ->
  limiter cfg key with_reset now (Exchange (World r [false; true] n) h k)
  = (Ok tt,
     Exchange (World (store key (Entry (RStr (print_int 1)) None) r) []
                 (S n)) h (S k)).
Proof.
  intros Hnone. unfold limiter, try_catch. unfold bind at 1.
  unfold RedisService.incr, redisService at 1, command at 1. simpl.
  unfold INCR. rewrite Hnone. simpl. done.
Qed.

(** A request on a counter without expiry: the counter goes up by one, TTL
    answers -1, and the counter is left without expiry. *)
Lemma limiter_no_expiry now r n h k c :
  live r key = Some (Entry (RStr (print_int c)) None) -> 1 <= c ->
  limiter cfg key with_reset now (Exchange (World r [] n) h k)
  = (if maxRequests cfg <? c + 1
     then Throw (HttpException TOO_MANY_REQUESTS (message cfg) (-1))
     else Ok tt,
     Exchange (World (store key (Entry (RStr (print_int (c + 1))) None) r)
                 [] n)
       (rate_headers cfg with_reset now (c + 1) (-1) h)
       (if maxRequests cfg <? c + 1 then k else S k)).
Proof.
  intros Hc Hpos.
  set (ra := store key (Entry (RStr (print_int (c + 1))) None) r).
  assert (live ra key = Some (Entry (RStr (print_int (c + 1))) None)) as La.
  { unfold ra. by rewrite live_store_eq. }
  unfold limiter, try_catch. unfold bind at 1.
  unfold RedisService.incr. rewrite redis_reliable. unfold INCR at 1.
  rewrite Hc, parse_print_int. fold ra.
  replace (c + 1 =? 1) with false by (symmetry; apply Z.eqb_neq; lia).
  unfold bind at 1. unfold ret at 1. unfold bind at 1.
  unfold RedisService.ttl. rewrite redis_reliable. unfold TTL.
  rewrite La.
  unfold bind, setHeader, modify, next, ret, throw. simpl.
  unfold rate_headers.
  by destruct with_reset, (maxRequests cfg <? c + 1).
Qed.

Lemma live_advance_persistent r k v dt :
  live r k = Some (Entry v None) -> live (advance dt r) k = Some (Entry v None).
Proof.
  unfold live, advance. simpl. destruct (db r !! k) as [e|]; [|done].
  destruct (expired (clock r) e) eqn:E; [done|]. by intros [= ->].
Qed.

Lemma limiter_lost_expire now r n :
  live r key = None ->
  counter_without_expiry cfg key (limiter cfg key with_reset) now r n.
Proof.
  intros Hnone. eexists. split; [by apply limiter_expire_lost|].
  split; [by rewrite live_store_eq|].
  intros c dt now' r2 n' Hc Hpos.
  apply (live_advance_persistent _ _ _ dt) in Hc.
  unfold start, tick. simpl.
  rewrite (limiter_no_expiry now' _ n' ∅ 0%nat c Hc Hpos).
  do 2 eexists. split; [done|]. split; [|split].
  - unfold rate_headers. destruct with_reset.
    + rewrite lookup_insert_ne by done. by rewrite lookup_insert_eq.
    + by rewrite lookup_insert_eq.
  - unfold ttl_of, TTL. by rewrite live_store_eq.
  - by rewrite live_store_eq.
Qed.

End LimiterFacts.

Section RateLimitTheorems.
Import Redis RateLimit.

(** C6. Requests of one client within one window, on a store that answers:
    the [i]-th request (from 0) brings the counter to [i + 1]; the key
    expires one window after the first request and no later request moves
    that expiry; the requests up to the cap are passed on to [next()]; every
    request beyond the cap is rejected with status 429 and a [retryAfter]
    that is the remaining life of the key, which is positive; a request
    that arrives once the key has expired is counted as 1 again and passed
    on. This holds for the general limiter (cap 100, window 60 s) and for
    the limiter of the auth routes (cap 10, window 900 s). *)
Theorem rate_limit_window
    (req : Request) (now0 : Z) (arrivals : list (Z * Z)) (r : redis) (n : nat) :
  Forall (fun dt => 0 <= dt) (fst <$> arrivals) ->
  (maxRequests RateLimitMiddleware.config = 100 /\
   window_seconds RateLimitMiddleware.config = 60 /\
   (live r (RateLimitMiddleware.key_of req) = None ->
    total (fst <$> arrivals) < 60 ->
    window_served RateLimitMiddleware.config (RateLimitMiddleware.key_of req)
      (RateLimitMiddleware.use req) now0 arrivals r n)) /\
  (maxRequests AuthRateLimitMiddleware.config = 10 /\
   window_seconds AuthRateLimitMiddleware.config = 900 /\
   (live r (AuthRateLimitMiddleware.key_of req) = None ->
    total (fst <$> arrivals) < 900 ->
    window_served AuthRateLimitMiddleware.config
      (AuthRateLimitMiddleware.key_of req)
      (AuthRateLimitMiddleware.use req) now0 arrivals r n)).
Proof.
  intros Hdts. split; (split; [done|]); (split; [done|]); intros Hnone Ht.
  - destruct (serve_window RateLimitMiddleware.config
                (RateLimitMiddleware.key_of req) true
                ltac:(done) ltac:(done) now0 arrivals r n Hnone Hdts Ht)
      as (r' & E & Hout & Hnew).
    exists r'. split; [exact E|]. split; [exact Hout|].
    intros dt now Hdt. destruct (Hnew dt now Hdt) as (r'' & E'' & C'').
    exists r''. eexists. split; [exact E''|exact C''].
  - destruct (serve_window AuthRateLimitMiddleware.config
                (AuthRateLimitMiddleware.key_of req) false
                ltac:(done) ltac:(done) now0 arrivals r n Hnone Hdts Ht)
      as (r' & E & Hout & Hnew).
    exists r'. split; [exact E|]. split; [exact Hout|].
    intros dt now Hdt. destruct (Hnew dt now Hdt) as (r'' & E'' & C'').
    exists r''. eexists. split; [exact E''|exact C''].
Qed.

(** C7. Whatever the store holds and whenever its connection fails: a pass
    through either limiter in which a store command failed (increment,
    expire or ttl) ends with [next()] called and nothing thrown; the only
    exception a limiter lets through is its own 429 rejection, and that
    happens only in a pass without store error. *)
Theorem rate_limit_fails_open (req : Request) (now : Z) (x : exchange) :
  (forall res x',
     RateLimitMiddleware.use req now x = (res, x') ->
     (errors (ex_world x') ≠ errors (ex_world x) ->
      res = Ok tt /\ nexts x' = S (nexts x)) /\
     (forall e, res = Throw e ->
        errors (ex_world x') = errors (ex_world x) /\
        exists ttl,
          e = HttpException TOO_MANY_REQUESTS
                (message RateLimitMiddleware.config) ttl)) /\
  (forall res x',
     AuthRateLimitMiddleware.use req now x = (res, x') ->
     (errors (ex_world x') ≠ errors (ex_world x) ->
      res = Ok tt /\ nexts x' = S (nexts x)) /\
     (forall e, res = Throw e ->
        errors (ex_world x') = errors (ex_world x) /\
        exists ttl,
          e = HttpException TOO_MANY_REQUESTS
                (message AuthRateLimitMiddleware.config) ttl)).
Proof.
  split; intros res x' E.
  - destruct (limiter_outcome RateLimitMiddleware.config
                (RateLimitMiddleware.key_of req) true now x)
      as (res0 & x0 & E0 & Hcases).
    rewrite RateLimitMiddleware_use, E0 in E. injection E as <- <-.
    destruct Hcases as [(-> & Hn & He & Hh)
                       |(current & ttl & He & Hh & [(Hc & -> & Hn)|(Hc & -> & Hn)])].
    + split; [done|]. intros e [=].
    + split; [done|]. intros e [=].
    + split; [done|]. intros e [= <-]. split; [done|]. by exists ttl.
  - destruct (limiter_outcome AuthRateLimitMiddleware.config
                (AuthRateLimitMiddleware.key_of req) false now x)
      as (res0 & x0 & E0 & Hcases).
    rewrite AuthRateLimitMiddleware_use, E0 in E. injection E as <- <-.
    destruct Hcases as [(-> & Hn & He & Hh)
                       |(current & ttl & He & Hh & [(Hc & -> & Hn)|(Hc & -> & Hn)])].
    + split; [done|]. intros e [=].
    + split; [done|]. intros e [=].
    + split; [done|]. intros e [= <-]. split; [done|]. by exists ttl.
Qed.


(** *** Addresses, keys, lost expiries and headers *)

Lemma before_comma_first a rest :
  no_comma a = true -> before_comma (a +:+ "," +:+ rest) = a.
Proof.
  induction a as [|c a IH]; [done|].
  cbn [no_comma]. intros [Hc Ha]%andb_true_iff. apply negb_true_iff in Hc.
  change (String c a +:+ "," +:+ rest) with (String c (a +:+ "," +:+ rest)).
  cbn [before_comma]. by rewrite Hc, IH.
Qed.

Lemma before_comma_all a : no_comma a = true -> before_comma a = a.
Proof.
  induction a as [|c a IH]; [done|].
  cbn [no_comma before_comma]. intros [Hc Ha]%andb_true_iff.
  apply negb_true_iff in Hc. by rewrite Hc, IH.
Qed.

(** X18. The address a limiter counts under is the first entry of the
    [X-Forwarded-For] header, trimmed, whatever the later entries and the
    address of the socket are; a header that starts with a comma gives
    the empty address. *)
Theorem getClientIp_first_forwarded (a rest : string)
    (ip remoteAddress : option string) :
  no_comma a = true ->
  getClientIp (Req (Some (a +:+ "," +:+ rest)) ip remoteAddress) = trim a /\
  getClientIp (Req (Some ("," +:+ rest)) ip remoteAddress) = "" /\
  (a ≠ "" -> getClientIp (Req (Some a) ip remoteAddress) = trim a).
Proof.
  assert (forall s, s ≠ "" -> Guards.truthy (Some s) = Some s) as Ht.
  { intros s Hs. unfold Guards.truthy. by rewrite decide_False. }
  intros Ha. split; [|split].
  - unfold getClientIp. simpl x_forwarded_for.
    rewrite Ht by (by destruct a). by rewrite before_comma_first.
  - done.
  - intros Hne. unfold getClientIp. simpl x_forwarded_for.
    rewrite Ht by done. by rewrite before_comma_all.
Qed.

(** X19. A pass through a limiter changes no key but the one it counts
    under, whatever the store holds and whenever its connection fails. *)
Theorem rate_limit_touches_one_key (req : Request) (now : Z) (x : exchange)
    (k : string) :
  (k ≠ RateLimitMiddleware.key_of req ->
   live (kv (ex_world (snd (RateLimitMiddleware.use req now x)))) k
   = live (kv (ex_world x)) k) /\
  (k ≠ AuthRateLimitMiddleware.key_of req ->
   live (kv (ex_world (snd (AuthRateLimitMiddleware.use req now x)))) k
   = live (kv (ex_world x)) k).
Proof.
  split; intros Hne.
  - rewrite RateLimitMiddleware_use. by apply limiter_frame.
  - rewrite AuthRateLimitMiddleware_use. by apply limiter_frame.
Qed.

(** X20. INCR and EXPIRE are two commands. When the connection fails at
    the EXPIRE of the first request of a window, the request is passed on
    without headers and the counter is left without an expiry; from then
    on, whatever time passes, every request counts one more, TTL answers
    -1, and once the cap is exceeded every request is rejected with a
    [retryAfter] of -1: the window never ends. This holds for both
    limiters. *)
Theorem rate_limit_lost_expire (req : Request) (now : Z) (r : redis)
    (n : nat) :
  (live r (RateLimitMiddleware.key_of req) = None ->
   counter_without_expiry RateLimitMiddleware.config
     (RateLimitMiddleware.key_of req) (RateLimitMiddleware.use req) now r n) /\
  (live r (AuthRateLimitMiddleware.key_of req) = None ->
   counter_without_expiry AuthRateLimitMiddleware.config
     (AuthRateLimitMiddleware.key_of req) (AuthRateLimitMiddleware.use req)
     now r n).
Proof.
  split; intros Hnone.
  - destruct (limiter_lost_expire RateLimitMiddleware.config
                (RateLimitMiddleware.key_of req) true now r n Hnone)
      as (r1 & E1 & L1 & Hnext).
    exists r1. rewrite RateLimitMiddleware_use. split; [done|]. split; [done|].
    intros c dt now' r2 n' Hc Hpos. rewrite RateLimitMiddleware_use.
    by apply Hnext.
  - destruct (limiter_lost_expire AuthRateLimitMiddleware.config
                (AuthRateLimitMiddleware.key_of req) false now r n Hnone)
      as (r1 & E1 & L1 & Hnext).
    exists r1. rewrite AuthRateLimitMiddleware_use. split; [done|]. split; [done|].
    intros c dt now' r2 n' Hc Hpos. rewrite AuthRateLimitMiddleware_use.
    by apply Hnext.
Qed.

(** X21. The general limiter counts a client whose first forwarded entry
    is [auth:] followed by an address under the key the auth limiter uses
    for that address. A request of such a client to any route raises the
    login counter of the other client, and once the counter has reached
    the cap of the auth routes the next login of the other client is
    rejected. *)
Theorem forwarded_for_reaches_auth_counter (reqA reqB : Request)
    (now now' : Z) (r : redis) (n : nat) (c t : Z) :
  getClientIp reqA = "auth:" +:+ getClientIp reqB ->
  counting (AuthRateLimitMiddleware.key_of reqB) r c t ->
  1 <= c ->
  RateLimitMiddleware.key_of reqA = AuthRateLimitMiddleware.key_of reqB /\
  exists res h k r1,
    RateLimitMiddleware.use reqA now (start (World r [] n))
    = (res, Exchange (World r1 [] n) h k) /\
    counting (AuthRateLimitMiddleware.key_of reqB) r1 (c + 1) t /\
    (10 <= c + 1 ->
     exists r2 h',
       AuthRateLimitMiddleware.use reqB now' (start (World r1 [] n))
       = (Throw (HttpException TOO_MANY_REQUESTS
                   (message AuthRateLimitMiddleware.config) (t - clock r)),
          Exchange (World r2 [] n) h' 0)).
Proof.
  intros Hip Hc Hpos.
  assert (RateLimitMiddleware.key_of reqA = AuthRateLimitMiddleware.key_of reqB)
    as Hkey.
  { unfold RateLimitMiddleware.key_of, AuthRateLimitMiddleware.key_of.
    by rewrite Hip. }
  split; [done|].
  destruct (limiter_next RateLimitMiddleware.config
              (RateLimitMiddleware.key_of reqA) true now r n ∅ 0%nat c t)
    as (r1 & E1 & C1 & K1); [by rewrite Hkey|done|].
  rewrite Hkey in C1.
  do 3 eexists. exists r1. rewrite RateLimitMiddleware_use.
  split; [exact E1|]. split; [done|].
  intros Hcap.
  destruct (limiter_next AuthRateLimitMiddleware.config
              (AuthRateLimitMiddleware.key_of reqB) false now' r1 n ∅ 0%nat
              (c + 1) t C1 ltac:(lia))
    as (r2 & E2 & _ & _).
  rewrite AuthRateLimitMiddleware_use. unfold start. rewrite E2.
  replace (maxRequests AuthRateLimitMiddleware.config <? c + 1 + 1) with true
    by (symmetry; apply Z.ltb_lt; simpl; lia).
  rewrite K1. by do 2 eexists.
Qed.

(** X22. A pass through a limiter writes no response header but its own,
    whatever the store holds and whenever its connection fails: the
    general limiter leaves every header but [X-RateLimit-Limit],
    [X-RateLimit-Remaining] and [X-RateLimit-Reset] as it found it, the
    limiter of the auth routes every header but the first two, so that an
    [X-RateLimit-Reset] written before it runs is still there after it. *)
Theorem rate_limit_headers_kept (req : Request) (now : Z) (x : exchange)
    (name : string) :
  (name ≠ "X-RateLimit-Limit" -> name ≠ "X-RateLimit-Remaining" ->
   name ≠ "X-RateLimit-Reset" ->
   headers (snd (RateLimitMiddleware.use req now x)) !! name
   = headers x !! name) /\
  (name ≠ "X-RateLimit-Limit" -> name ≠ "X-RateLimit-Remaining" ->
   headers (snd (AuthRateLimitMiddleware.use req now x)) !! name
   = headers x !! name).
Proof.
  split.
  - intros H1 H2 H3.
    destruct (limiter_outcome RateLimitMiddleware.config
                (RateLimitMiddleware.key_of req) true now x)
      as (res & x' & E & [(_ & _ & _ & Hh)|(c & ttl & _ & Hh & _)]);
      rewrite RateLimitMiddleware_use, E; cbn [snd]; rewrite Hh; [done|].
    unfold rate_headers. by rewrite !lookup_insert_ne.
  - intros H1 H2.
    destruct (limiter_outcome AuthRateLimitMiddleware.config
                (AuthRateLimitMiddleware.key_of req) false now x)
      as (res & x' & E & [(_ & _ & _ & Hh)|(c & ttl & _ & Hh & _)]);
      rewrite AuthRateLimitMiddleware_use, E; cbn [snd]; rewrite Hh; [done|].
    unfold rate_headers. by rewrite !lookup_insert_ne.
Qed.

End RateLimitTheorems.

(** ** Base64 *)

Section Base64Facts.
Import Base64.

(** Induction over the bytes of a buffer, three at a time. *)
Lemma string_ind3 (P : string -> Prop) :
  P EmptyString ->
  (forall a, P (String a EmptyString)) ->
  (forall a b, P (String a (String b EmptyString))) ->
  (forall a b c rest, P rest -> P (String a (String b (String c rest)))) ->
  forall s, P s.
Proof.
  intros P0 P1 P2 P3 s.
  assert (P s /\ (forall a, P (String a s)) /\
          (forall a b, P (String a (String b s)))) as [? _]; [|done].
  induction s as [|c s (IH0 & IH1 & IH2)]; [by repeat split|].
  split; [apply IH1|]. split; [intros a; apply IH2|].
  intros a b. by apply P3.
Qed.

(** A digit is read back as the sextet it was written for, and it is
    neither the padding nor the delimiter of the blob. *)
Lemma unbase64_char_of b0 b1 b2 b3 b4 b5 :
  let v := Ascii b0 b1 b2 b3 b4 b5 false false in
  unbase64 (char_of v) = Some v /\
  Ascii.eqb (char_of v) "="%char = false /\
  Ascii.eqb (char_of v) ":"%char = false.
Proof. by destruct b0, b1, b2, b3, b4, b5. Qed.

Lemma digits_encode_triple a b c s :
  digits (String (char_of (sextet1 a)) (String (char_of (sextet2 a b))
            (String (char_of (sextet3 b c)) (String (char_of (sextet4 c)) s))))
  = sextet1 a :: sextet2 a b :: sextet3 b c :: sextet4 c :: digits s.
Proof.
  destruct a as [a0 a1 a2 a3 a4 a5 a6 a7], b as [b0 b1 b2 b3 b4 b5 b6 b7],
    c as [c0 c1 c2 c3 c4 c5 c6 c7].
  unfold sextet1, sextet2, sextet3, sextet4.
  destruct (unbase64_char_of a2 a3 a4 a5 a6 a7) as (U1 & E1 & _).
  destruct (unbase64_char_of b4 b5 b6 b7 a0 a1) as (U2 & E2 & _).
  destruct (unbase64_char_of c6 c7 b0 b1 b2 b3) as (U3 & E3 & _).
  destruct (unbase64_char_of c0 c1 c2 c3 c4 c5) as (U4 & E4 & _).
  simpl in *. cbn [digits]. by rewrite E1, U1, E2, U2, E3, U3, E4, U4.
Qed.

Lemma bytes_of_triple a b c ds :
  bytes_of (sextet1 a :: sextet2 a b :: sextet3 b c :: sextet4 c :: ds)
  = String a (String b (String c (bytes_of ds))).
Proof. by destruct a, b, c. Qed.

(** Decoding what was encoded gives the bytes back. *)
Lemma decode_encode bs : decode (encode bs) = bs.
Proof.
  unfold decode. induction bs as [|a|a b|a b c rest IH] using string_ind3.
  - done.
  - destruct a as [a0 a1 a2 a3 a4 a5 a6 a7].
    cbn [encode]. unfold sextet1, sextet2, zero, Ascii.zero.
    destruct (unbase64_char_of a2 a3 a4 a5 a6 a7) as (U1 & E1 & _).
    destruct (unbase64_char_of false false false false a0 a1) as (U2 & E2 & _).
    simpl in *. cbn [digits]. by rewrite E1, U1, E2, U2.
  - destruct a as [a0 a1 a2 a3 a4 a5 a6 a7], b as [b0 b1 b2 b3 b4 b5 b6 b7].
    cbn [encode]. unfold sextet1, sextet2, sextet3, zero, Ascii.zero.
    destruct (unbase64_char_of a2 a3 a4 a5 a6 a7) as (U1 & E1 & _).
    destruct (unbase64_char_of b4 b5 b6 b7 a0 a1) as (U2 & E2 & _).
    destruct (unbase64_char_of false false b0 b1 b2 b3) as (U3 & E3 & _).
    simpl in *. cbn [digits]. by rewrite E1, U1, E2, U2, E3, U3.
  - cbn [encode]. rewrite digits_encode_triple, bytes_of_triple. by rewrite IH.
Qed.

(** The encoding holds no delimiter. *)
Lemma no_colon_encode bs : no_colon (encode bs) = true.
Proof.
  induction bs as [|a|a b|a b c rest IH] using string_ind3.
  - done.
  - destruct a as [a0 a1 a2 a3 a4 a5 a6 a7].
    cbn [encode]. unfold sextet1, sextet2, zero, Ascii.zero.
    destruct (unbase64_char_of a2 a3 a4 a5 a6 a7) as (_ & _ & C1).
    destruct (unbase64_char_of false false false false a0 a1) as (_ & _ & C2).
    simpl in *. by rewrite C1, C2.
  - destruct a as [a0 a1 a2 a3 a4 a5 a6 a7], b as [b0 b1 b2 b3 b4 b5 b6 b7].
    cbn [encode]. unfold sextet1, sextet2, sextet3, zero, Ascii.zero.
    destruct (unbase64_char_of a2 a3 a4 a5 a6 a7) as (_ & _ & C1).
    destruct (unbase64_char_of b4 b5 b6 b7 a0 a1) as (_ & _ & C2).
    destruct (unbase64_char_of false false b0 b1 b2 b3) as (_ & _ & C3).
    simpl in *. by rewrite C1, C2, C3.
  - destruct a as [a0 a1 a2 a3 a4 a5 a6 a7], b as [b0 b1 b2 b3 b4 b5 b6 b7],
      c as [c0 c1 c2 c3 c4 c5 c6 c7].
    cbn [encode]. unfold sextet1, sextet2, sextet3, sextet4.
    destruct (unbase64_char_of a2 a3 a4 a5 a6 a7) as (_ & _ & C1).
    destruct (unbase64_char_of b4 b5 b6 b7 a0 a1) as (_ & _ & C2).
    destruct (unbase64_char_of c6 c7 b0 b1 b2 b3) as (_ & _ & C3).
    destruct (unbase64_char_of c0 c1 c2 c3 c4 c5) as (_ & _ & C4).
    simpl in *. by rewrite C1, C2, C3, C4, IH.
Qed.

(** What [update] and [final] write adds up to the encoding of the whole. *)
Lemma encode_update_final bs :
  encode (whole_triples bs) +:+ encode (leftover bs) = encode bs.
Proof.
  induction bs as [|a|a b|a b c rest IH] using string_ind3; try done.
  cbn [whole_triples leftover encode]. rewrite <- IH. reflexivity.
Qed.

End Base64Facts.

(** ** Token encryption *)

Section TokenEncryptionFacts.
Context `{AesGcm}.
Variable encryptionKey : string.
Import Base64 TokenEncryptionService.

Lemma split_no_colon s : no_colon s = true -> split ":" s = [s].
Proof.
  induction s as [|c s IH]; [done|]. simpl.
  intros [Hc Hs]%andb_true_iff. apply negb_true_iff in Hc.
  by rewrite Hc, IH.
Qed.

Lemma split_segment a b :
  no_colon a = true -> split ":" (a +:+ String ":" b) = a :: split ":" b.
Proof.
  induction a as [|c a IH]; [done|]. simpl.
  intros [Hc Ha]%andb_true_iff. apply negb_true_iff in Hc.
  cbn [String.append split]. by rewrite Hc, IH.
Qed.

(** A blob of three segments without delimiter splits into them. *)
Lemma split_blob a b c :
  no_colon a = true -> no_colon b = true -> no_colon c = true ->
  split ":" (a +:+ ":" +:+ b +:+ ":" +:+ c) = [a; b; c].
Proof.
  intros Ha Hb Hc.
  change (a +:+ ":" +:+ b +:+ ":" +:+ c)
    with (a +:+ String ":" (b +:+ String ":" c)).
  by rewrite !split_segment, split_no_colon.
Qed.

Lemma blob_nonempty a b : RedisService.falsy_str (a +:+ ":" +:+ b) = false.
Proof. unfold RedisService.falsy_str. by destruct a. Qed.

Lemma falsy_str_false s : s ≠ "" -> RedisService.falsy_str s = false.
Proof. intros. unfold RedisService.falsy_str. by rewrite decide_False. Qed.

(** [decrypt] on a blob of three segments. *)
Lemma decrypt_segments a b c log :
  no_colon a = true -> no_colon b = true -> no_colon c = true ->
  decrypt encryptionKey (a +:+ ":" +:+ b +:+ ":" +:+ c) log =
  match gcm_decrypt encryptionKey (decode a) (decode b) (decode c) with
  | Some decrypted => (Ok decrypted, log ++ [CreateDecipheriv])
  | None => (Throw (Error "Failed to decrypt token"), log ++ [CreateDecipheriv])
  end.
Proof.
  intros Ha Hb Hc. unfold decrypt. rewrite blob_nonempty.
  rewrite split_blob by done. unfold try_catch, bind, crypto, modify.
  by destruct (gcm_decrypt _ _ _ _).
Qed.

(** C4. Under one key, [decrypt] gives back what [encrypt] was given, for
    every text, the empty one and those with the delimiter included; the
    blob of a non-empty text is made of the three base64 segments of the IV,
    the tag and the ciphertext. On the empty text both return the empty
    string and make no call into the crypto module. *)
Theorem encrypt_decrypt_roundtrip (plaintext iv : string) (log : list call) :
  String.length encryptionKey = 32%nat -> String.length iv = 16%nat ->
  (exists blob log1,
     encrypt encryptionKey plaintext iv log = (Ok blob, log1) /\
     (forall log', fst (decrypt encryptionKey blob log') = Ok plaintext) /\
     (plaintext ≠ "" ->
      exists ciphertext tag,
        gcm_encrypt encryptionKey iv plaintext = Some (ciphertext, tag) /\
        split ":" blob = [encode iv; encode tag; encode ciphertext])) /\
  encrypt encryptionKey "" iv log = (Ok "", log) /\
  decrypt encryptionKey "" log = (Ok "", log).
Proof.
  intros Hkey Hiv. split; [|done].
  destruct (decide (plaintext = "")) as [->|Hne].
  - exists "", log. by repeat split.
  - destruct (gcm_decrypt_encrypt encryptionKey iv plaintext Hkey Hiv)
      as (ciphertext & tag & Henc & Hdec).
    do 2 eexists. split.
    { unfold encrypt. rewrite falsy_str_false by done.
      unfold try_catch, bind, crypto, modify. rewrite Henc.
      rewrite encode_update_final. reflexivity. }
    split.
    + intros log'. rewrite decrypt_segments by apply no_colon_encode.
      by rewrite !decode_encode, Hdec.
    + intros _. exists ciphertext, tag. split; [done|].
      apply split_blob; apply no_colon_encode.
Qed.

(** *** Blobs that differ in their padding *)

Lemma differences_refl s : differences s s = Some 0%nat.
Proof. induction s as [|c s IH]; [done|]. simpl. by rewrite IH, Ascii.eqb_refl. Qed.

Lemma differences_app a1 a2 rest n :
  differences a1 a2 = Some n ->
  differences (a1 +:+ rest) (a2 +:+ rest) = Some n.
Proof.
  revert a2 n. induction a1 as [|c a1 IH]; intros [|d a2] n; try done.
  - simpl. intros [= <-]. apply differences_refl.
  - simpl. destruct (differences a1 a2) as [m|] eqn:E; [|done].
    intros [= <-]. cbn [String.append differences]. by rewrite (IH a2 m E).
Qed.

Lemma encode_empty bs : encode bs = "" -> bs = "".
Proof. by destruct bs as [|a [|b [|c rest]]]. Qed.

Lemma replace_last_cons c x s :
  s ≠ "" -> replace_last c (String x s) = String x (replace_last c s).
Proof. by destruct s. Qed.

Lemma leftover_nonempty bs : leftover bs ≠ "" -> bs ≠ "".
Proof. by destruct bs. Qed.

(** When the bytes do not fill whole triples, the encoding ends in
    padding; turning the last padding character into a space changes one
    character and nothing of what is decoded. *)
Lemma replace_padding bs :
  leftover bs ≠ "" ->
  decode (replace_last " " (encode bs)) = bs /\
  no_colon (replace_last " " (encode bs)) = true /\
  differences (replace_last " " (encode bs)) (encode bs) = Some 1%nat.
Proof.
  induction bs as [|a|a b|a b c rest IH] using string_ind3.
  - done.
  - intros _. destruct a as [a0 a1 a2 a3 a4 a5 a6 a7].
    cbn [encode]. unfold decode, sextet1, sextet2, zero, Ascii.zero.
    destruct (unbase64_char_of a2 a3 a4 a5 a6 a7) as (U1 & E1 & C1).
    destruct (unbase64_char_of false false false false a0 a1) as (U2 & E2 & C2).
    simpl in *. cbn [digits]. rewrite E1, U1, E2, U2, C1, C2.
    by rewrite !Ascii.eqb_refl.
  - intros _.
    destruct a as [a0 a1 a2 a3 a4 a5 a6 a7], b as [b0 b1 b2 b3 b4 b5 b6 b7].
    cbn [encode]. unfold decode, sextet1, sextet2, sextet3, zero, Ascii.zero.
    destruct (unbase64_char_of a2 a3 a4 a5 a6 a7) as (U1 & E1 & C1).
    destruct (unbase64_char_of b4 b5 b6 b7 a0 a1) as (U2 & E2 & C2).
    destruct (unbase64_char_of false false b0 b1 b2 b3) as (U3 & E3 & C3).
    simpl in *. cbn [digits]. rewrite E1, U1, E2, U2, E3, U3, C1, C2, C3.
    by rewrite !Ascii.eqb_refl.
  - intros Hl. cbn [leftover] in Hl. destruct (IH Hl) as (D & N & F).
    assert (encode rest ≠ "") as Hne.
    { intros E%encode_empty. by apply leftover_nonempty in Hl. }
    cbn [encode]. rewrite !replace_last_cons by done.
    split; [|split].
    + unfold decode in *.
      rewrite digits_encode_triple, bytes_of_triple. by rewrite D.
    + destruct a as [a0 a1 a2 a3 a4 a5 a6 a7],
        b as [b0 b1 b2 b3 b4 b5 b6 b7], c as [c0 c1 c2 c3 c4 c5 c6 c7].
      unfold sextet1, sextet2, sextet3, sextet4.
      destruct (unbase64_char_of a2 a3 a4 a5 a6 a7) as (_ & _ & C1).
      destruct (unbase64_char_of b4 b5 b6 b7 a0 a1) as (_ & _ & C2).
      destruct (unbase64_char_of c6 c7 b0 b1 b2 b3) as (_ & _ & C3).
      destruct (unbase64_char_of c0 c1 c2 c3 c4 c5) as (_ & _ & C4).
      simpl in *. by rewrite C1, C2, C3, C4, N.
    + cbn [differences]. by rewrite F, !Ascii.eqb_refl.
Qed.

Lemma leftover_16 iv : String.length iv = 16%nat -> leftover iv ≠ "".
Proof.
  intros Hlen.
  do 16 (destruct iv as [|? iv]; [done|]). by destruct iv.
Qed.

(** Whatever the cipher: the blob of a non-empty text, with the last
    padding character of its IV segment turned into a space, differs from
    the blob in one character and is decrypted to the text. *)
Lemma decrypt_altered_padding (plaintext iv : string) (log : list call) :
  String.length encryptionKey = 32%nat -> String.length iv = 16%nat ->
  plaintext ≠ "" ->
  exists rest,
    fst (encrypt encryptionKey plaintext iv log)
    = Ok (encode iv +:+ ":" +:+ rest) /\
    differences (replace_last " " (encode iv) +:+ ":" +:+ rest)
      (encode iv +:+ ":" +:+ rest) = Some 1%nat /\
    forall log',
      fst (decrypt encryptionKey
             (replace_last " " (encode iv) +:+ ":" +:+ rest) log')
      = Ok plaintext.
Proof.
  intros Hkey Hiv Hne.
  destruct (gcm_decrypt_encrypt encryptionKey iv plaintext Hkey Hiv)
    as (ciphertext & tag & Henc & Hdec).
  destruct (replace_padding iv (leftover_16 iv Hiv)) as (D & N & F).
  exists (encode tag +:+ ":" +:+ encode ciphertext). split; [|split].
  - unfold encrypt. rewrite falsy_str_false by done.
    unfold try_catch, bind, crypto, modify. rewrite Henc.
    by rewrite encode_update_final.
  - by apply differences_app.
  - intros log'. rewrite decrypt_segments by (done || apply no_colon_encode).
    by rewrite D, !decode_encode, Hdec.
Qed.

(** *** Recognising a blob *)

Lemma encrypt_blob plaintext iv ciphertext tag log :
  plaintext ≠ "" ->
  gcm_encrypt encryptionKey iv plaintext = Some (ciphertext, tag) ->
  encrypt encryptionKey plaintext iv log
  = (Ok (encode iv +:+ ":" +:+ encode tag +:+ ":" +:+ encode ciphertext),
     log ++ [RandomBytes ivLength] ++ [CreateCipheriv]).
Proof.
  intros Hne Henc. unfold encrypt. rewrite falsy_str_false by done.
  unfold try_catch, bind, crypto, modify. rewrite Henc.
  by rewrite encode_update_final, <- app_assoc.
Qed.

(** X23. [isEncrypted] tells the blobs of [encrypt] from other strings by
    their form: every blob [encrypt] returns for a non-empty text is
    recognised, the empty string is not, and a non-empty string that is
    not recognised makes [decrypt] throw before any call into the crypto
    module. *)
Theorem isEncrypted_recognises_blobs (plaintext iv data : string)
    (log : list call) :
  String.length encryptionKey = 32%nat -> String.length iv = 16%nat ->
  (plaintext ≠ "" ->
   exists blob,
     encrypt encryptionKey plaintext iv log
     = (Ok blob, log ++ [RandomBytes 16; CreateCipheriv]) /\
     isEncrypted blob = true) /\
  isEncrypted "" = false /\
  (data ≠ "" -> isEncrypted data = false ->
   decrypt encryptionKey data log
   = (Throw (Error "Failed to decrypt token"), log)).
Proof.
  intros Hkey Hiv. split; [|split; [done|]].
  - intros Hne.
    destruct (gcm_decrypt_encrypt encryptionKey iv plaintext Hkey Hiv)
      as (ciphertext & tag & Henc & _).
    eexists. split; [by apply encrypt_blob|].
    unfold isEncrypted. rewrite blob_nonempty.
    by rewrite split_blob by apply no_colon_encode.
  - intros Hne Hno. unfold isEncrypted in Hno.
    rewrite falsy_str_false in Hno by done. apply Nat.eqb_neq in Hno.
    unfold decrypt. rewrite falsy_str_false by done. unfold try_catch.
    destruct (split ":" data) as [|a [|b [|c [|d l]]]]; done.
Qed.

(** X24. The IV is part of the blob: under one key, two encryptions of a
    text with different IVs give different blobs, and the first segment of
    a blob decodes to the IV it was made with. *)
Theorem encrypt_distinct_ivs (plaintext iv1 iv2 : string)
    (log1 log2 : list call) :
  String.length encryptionKey = 32%nat ->
  String.length iv1 = 16%nat -> String.length iv2 = 16%nat ->
  plaintext ≠ "" ->
  iv1 ≠ iv2 ->
  exists blob1 blob2,
    fst (encrypt encryptionKey plaintext iv1 log1) = Ok blob1 /\
    fst (encrypt encryptionKey plaintext iv2 log2) = Ok blob2 /\
    blob1 ≠ blob2 /\
    decode <$> head (split ":" blob1) = Some iv1 /\
    decode <$> head (split ":" blob2) = Some iv2.
Proof.
  intros Hkey Hiv1 Hiv2 Hne Hivs.
  destruct (gcm_decrypt_encrypt encryptionKey iv1 plaintext Hkey Hiv1)
    as (c1 & t1 & Henc1 & _).
  destruct (gcm_decrypt_encrypt encryptionKey iv2 plaintext Hkey Hiv2)
    as (c2 & t2 & Henc2 & _).
  do 2 eexists.
  rewrite (encrypt_blob _ _ _ _ _ Hne Henc1), (encrypt_blob _ _ _ _ _ Hne Henc2).
  split; [done|]. split; [done|].
  assert (forall iv t c,
            decode <$> head (split ":" (encode iv +:+ ":" +:+ encode t
                                         +:+ ":" +:+ encode c)) = Some iv) as Hd.
  { intros iv t c. rewrite split_blob by apply no_colon_encode.
    simpl. by rewrite decode_encode. }
  split; [|by split].
  intros E. apply Hivs.
  pose proof (Hd iv1 t1 c1) as D1. rewrite E, Hd in D1. by injection D1.
Qed.


(** *** A blob and what is made of it *)

Lemma differences_zero s1 s2 : differences s1 s2 = Some 0%nat -> s1 = s2.
Proof.
  revert s2. induction s1 as [|a s1 IH]; intros [|b s2]; try done.
  cbn [differences]. destruct (differences s1 s2) as [n|] eqn:E; [|done].
  cbn. destruct (Ascii.eqb a b) eqn:Eab; [|done].
  intros [= ->]. apply Ascii.eqb_eq in Eab as ->. f_equal. by apply IH.
Qed.

Lemma split_cons sep s : exists p ps, split sep s = p :: ps.
Proof.
  destruct s as [|c s]; cbn [split]; [by eauto|].
  destruct (Ascii.eqb c sep); [by eauto|].
  destruct (split sep s) as [|p ps]; by eauto.
Qed.

(** Two strings that differ at one place split alike, but for one segment
    that differs at one place, unless the place holds a delimiter in one of
    them and the numbers of segments differ. *)
Lemma split_one_difference s' s :
  differences s' s = Some 1%nat ->
  length (split ":" s') ≠ length (split ":" s) \/
  exists (i : nat) p p',
    split ":" s !! i = Some p /\
    split ":" s' = <[i := p']> (split ":" s) /\
    differences p' p = Some 1%nat.
Proof.
  revert s. induction s' as [|c' t' IH]; intros [|c t]; try done.
  cbn [differences]. destruct (differences t' t) as [n|] eqn:Ed; [|done].
  cbn. destruct (Ascii.eqb c' c) eqn:Ec.
  - (* the same character here: the difference lies further on *)
    intros [= ->]. apply Ascii.eqb_eq in Ec as ->.
    specialize (IH t Ed). cbn [split].
    destruct (Ascii.eqb c ":") eqn:Ecolon.
    + destruct IH as [Hlen|(i & p & p' & Hi & Hs & Hd)].
      * left. cbn [length]. lia.
      * right. exists (S i), p, p'. split; [done|]. split; [|done].
        by rewrite Hs.
    + destruct (split_cons ":" t) as (p0 & ps & Et).
      destruct (split_cons ":" t') as (p0' & ps' & Et').
      rewrite Et, Et' in IH |- *.
      destruct IH as [Hlen|(i & p & p' & Hi & Hs & Hd)].
      * left. cbn [length] in *. lia.
      * right. destruct i as [|i].
        -- injection Hi as ->. injection Hs as -> ->.
           exists 0%nat, (String c p), (String c p').
           split; [done|]. split; [done|].
           cbn [differences]. rewrite Hd. cbn. by rewrite Ascii.eqb_refl.
        -- injection Hs as -> ->.
           exists (S i), p, p'. split; [done|]. by split.
  - (* the difference is here *)
    intros [= ->]. apply differences_zero in Ed as ->. cbn [split].
    destruct (split_cons ":" t) as (p0 & ps & Et). rewrite Et.
    destruct (Ascii.eqb c' ":") eqn:Ec', (Ascii.eqb c ":") eqn:Ecolon.
    + apply Ascii.eqb_eq in Ec' as ->. apply Ascii.eqb_eq in Ecolon as ->.
      by rewrite Ascii.eqb_refl in Ec.
    + left. cbn [length]. lia.
    + left. cbn [length]. lia.
    + right. exists 0%nat, (String c p0), (String c' p0).
      split; [done|]. split; [done|].
      cbn [differences]. rewrite differences_refl. cbn. by rewrite Ec.
Qed.

Context {authentic : AesGcmAuthentic H}.


End TokenEncryptionFacts.

(** * Examples *)

Section SessionExamples.
Import Redis SessionService Instances Examples.

(** [getSession] on the session [s1] of the busy server. *)
Lemma getSession_validateSession_witness :
  0 < SESSION_TTL_default /\
  holds_set busy (getSessionKey "s1") = false /\
  record_at busy "s1" = Some (session_of "s1" 100 150) /\
  exists r',
    getSession SESSION_TTL_default "s1" 2000 (reliable busy)
    = (Ok (Some (session_of "s1" 100 2000)), reliable r') /\
    ttl_of r' (getSessionKey "s1") = Some SESSION_TTL_default.
Proof.
  assert (0 < SESSION_TTL_default) as Hpos by (vm_compute; reflexivity).
  assert (holds_set busy (getSessionKey "s1") = false) as Hs
    by (vm_compute; reflexivity).
  assert (record_at busy "s1" = Some (session_of "s1" 100 150)) as Hr
    by (vm_compute; reflexivity).
  split; [exact Hpos|]. split; [exact Hs|]. split; [exact Hr|].
  destruct (getSession_validateSession SESSION_TTL_default Hpos
              "s1" 2000 busy 0 Hs) as [_ Hhit].
  destruct (Hhit _ Hr) as (r' & E & _ & _ & _ & T & _).
  exists r'. split; [exact E|exact T].
Defined.

(** Logging user [u] out everywhere on the busy server. *)
Lemma destroyAllUserSessions_clears_witness :
  holds_string busy (getUserSessionsKey "u") = false /\
  exists r',
    destroyAllUserSessions "u" (reliable busy) = (Ok 5, reliable r') /\
    getUserSessions "u" (reliable r') = (Ok [], reliable r').
Proof.
  assert (holds_string busy (getUserSessionsKey "u") = false) as Hs
    by (vm_compute; reflexivity).
  split; [exact Hs|].
  destruct (destroyAllUserSessions_clears "u" busy 0 Hs)
    as (r' & E & _ & _ & _ & G & _).
  exists r'. split; [exact E|exact G].
Defined.

(** A metadata update on the session [s2] of the busy server. *)
Lemma updateSessionMetadata_touches_witness :
  0 < SESSION_TTL_default /\
  holds_set busy (getSessionKey "s2") = false /\
  record_at busy "s2" = Some (session_of "s2" 200 250) /\
  exists r' d',
    updateSessionMetadata SESSION_TTL_default "s2" {[ "device" := JStr "tv" ]}
      3000 (reliable busy) = (Ok true, reliable r') /\
    record_at r' "s2" = Some d' /\
    lastAccessedAt d' = 3000 /\
    ttl_of r' (getSessionKey "s2") = Some SESSION_TTL_default.
Proof.
  assert (0 < SESSION_TTL_default) as Hpos by (vm_compute; reflexivity).
  assert (holds_set busy (getSessionKey "s2") = false) as Hs
    by (vm_compute; reflexivity).
  assert (record_at busy "s2" = Some (session_of "s2" 200 250)) as Hr
    by (vm_compute; reflexivity).
  split; [exact Hpos|]. split; [exact Hs|]. split; [exact Hr|].
  destruct (updateSessionMetadata_touches SESSION_TTL_default Hpos "s2"
              {[ "device" := JStr "tv" ]} 3000 busy 0 Hs) as [Hhit _].
  destruct (Hhit _ Hr) as (r' & d' & E & R & _ & L & T & _).
  exists r', d'. split; [exact E|]. split; [exact R|]. split; [exact L|exact T].
Defined.




(** Destroying the session [s1] of the busy server. *)
Lemma destroySession_revokes_witness :
  0 < SESSION_TTL_default /\
  record_at busy "s1" = Some (session_of "s1" 100 150) /\
  holds_string busy (getUserSessionsKey "u") = false /\
  exists r',
    destroySession "s1" (reliable busy) = (Ok true, reliable r') /\
    record_at r' "s1" = None /\
    validateSession SESSION_TTL_default "s1" 2000 (reliable r')
    = (Throw (UnauthorizedException "Invalid or expired session"),
       reliable r').
Proof.
  assert (0 < SESSION_TTL_default) as Hpos by (vm_compute; reflexivity).
  assert (record_at busy "s1" = Some (session_of "s1" 100 150)) as Hr
    by (vm_compute; reflexivity).
  assert (holds_string busy
            (getUserSessionsKey (userId (session_of "s1" 100 150))) = false)
    as Hs by (vm_compute; reflexivity).
  split; [exact Hpos|]. split; [exact Hr|]. split; [exact Hs|].
  destruct (destroySession_revokes SESSION_TTL_default Hpos "s1"
              (session_of "s1" 100 150) 2000 busy 0 Hr Hs)
    as (r' & E & _ & R & _ & _ & V).
  exists r'. split; [exact E|]. split; [exact R|exact V].
Defined.

(** Destroying a session the busy server does not hold. *)
Lemma destroySession_missing_witness :
  live busy (getSessionKey "s9") = None /\
  exists r',
    destroySession "s9" (reliable busy) = (Ok false, reliable r') /\
    live r' (getSessionKey "s1") = live busy (getSessionKey "s1").
Proof.
  assert (live busy (getSessionKey "s9") = None) as Hk
    by (vm_compute; reflexivity).
  split; [exact Hk|].
  destruct (destroySession_missing "s9" busy 0 Hk) as (r' & E & F).
  exists r'. split; [exact E|exact (F _)].
Defined.

(** The sessions of user [u] on the busy server. *)
Lemma getUserSessionsWithDetails_recent_first_witness :
  index_ok busy "u" = true /\
  exists L,
    getUserSessionsWithDetails "u" (reliable busy) = (Ok L, reliable busy) /\
    L ≡ₚ live_sessions busy "u" /\
    StronglySorted (fun a b => lastAccessedAt b <= lastAccessedAt a) L.
Proof.
  assert (index_ok busy "u" = true) as Hok by (vm_compute; reflexivity).
  split; [exact Hok|].
  destruct (getUserSessionsWithDetails_recent_first "u" busy 0 Hok)
    as (L & E & P & S & _).
  exists L. split; [exact E|]. split; [exact P|exact S].
Defined.

(** One more hour for the session [s1] of the busy server. *)
Lemma extendSession_sets_ttl_witness :
  0 < SESSION_TTL_default /\
  record_at busy "s1" = Some (session_of "s1" 100 150) /\
  (forall s, Some 3600 = Some s -> 0 <= s) /\
  exists r',
    extendSession SESSION_TTL_default "s1" (Some 3600) (reliable busy)
    = (Ok true, reliable r') /\
    record_at r' "s1" = Some (session_of "s1" 100 150) /\
    ttl_of r' (getSessionKey "s1") = Some 3600.
Proof.
  assert (0 < SESSION_TTL_default) as Hpos by (vm_compute; reflexivity).
  assert (record_at busy "s1" = Some (session_of "s1" 100 150)) as Hr
    by (vm_compute; reflexivity).
  assert (forall s, Some 3600 = Some s -> 0 <= s) as Hs.
  { intros s E. injection E as <-. vm_compute. discriminate. }
  split; [exact Hpos|]. split; [exact Hr|]. split; [exact Hs|].
  destruct (extendSession_sets_ttl SESSION_TTL_default Hpos "s1" (Some 3600)
              (session_of "s1" 100 150) busy 0 Hr Hs)
    as (r' & E & R & T & _).
  exists r'. split; [exact E|]. split; [exact R|].
  apply (T 3600 eq_refl). reflexivity.
Defined.

(** [extendSession] on a session the busy server does not hold, and with a
    negative number of seconds on the session [s1]. *)
Lemma extendSession_edges_witness :
  live busy (getSessionKey "s9") = None /\
  extendSession SESSION_TTL_default "s9" None (reliable busy)
  = (Ok false, reliable busy) /\
  record_at busy "s1" = Some (session_of "s1" 100 150) /\
  -5 < 0 /\
  exists r',
    extendSession SESSION_TTL_default "s1" (Some (-5)) (reliable busy)
    = (Ok true, reliable r') /\
    record_at r' "s1" = None /\
    index_of r' "u" = index_of busy "u".
Proof.
  assert (live busy (getSessionKey "s9") = None) as Hk
    by (vm_compute; reflexivity).
  assert (record_at busy "s1" = Some (session_of "s1" 100 150)) as Hr
    by (vm_compute; reflexivity).
  assert (-5 < 0) as Hneg by reflexivity.
  split; [exact Hk|]. split.
  { destruct (extendSession_edges SESSION_TTL_default "s9" busy 0) as [Hm _].
    exact (Hm None Hk). }
  split; [exact Hr|]. split; [exact Hneg|].
  destruct (extendSession_edges SESSION_TTL_default "s1" busy 0) as [_ Hn].
  destruct (Hn _ (-5) Hr Hneg) as (r' & E & R & _ & I).
  exists r'. split; [exact E|]. split; [exact R|exact (I "u")].
Defined.

(** The session [s1] of the busy server, read and then left alone. *)
Lemma session_slides_witness :
  0 < SESSION_TTL_default /\
  record_at busy "s1" = Some (session_of "s1" 100 150) /\
  exists r',
    getSession SESSION_TTL_default "s1" 2000 (reliable busy)
    = (Ok (Some (session_of "s1" 100 2000)), reliable r') /\
    record_at (advance 604799 r') "s1" = Some (session_of "s1" 100 2000) /\
    record_at (advance 604800 r') "s1" = None.
Proof.
  assert (0 < SESSION_TTL_default) as Hpos by (vm_compute; reflexivity).
  assert (record_at busy "s1" = Some (session_of "s1" 100 150)) as Hr
    by (vm_compute; reflexivity).
  split; [exact Hpos|]. split; [exact Hr|].
  destruct (session_slides SESSION_TTL_default Hpos "s1"
              (session_of "s1" 100 150) 2000 busy 0 Hr)
    as (r' & E & Hin & Hout).
  exists r'. split; [exact E|]. split.
  - apply Hin. split; vm_compute; [discriminate|reflexivity].
  - apply (Hout 604800 0). vm_compute. discriminate.
Defined.

(** On the busy server the index of user [u] runs out at 600000; the
    session [s1], read at 0, lives until 604800. *)
Lemma index_expires_before_session_witness :
  0 < SESSION_TTL_default /\
  record_at busy "s1" = Some (session_of "s1" 100 150) /\
  live busy (getUserSessionsKey "u")
  = Some (Entry (RSet (index_of busy "u")) (Some 600000)) /\
  600000 <= clock busy + 600000 < clock busy + SESSION_TTL_default /\
  exists r' r'',
    getSession SESSION_TTL_default "s1" 2000 (reliable busy)
    = (Ok (Some (session_of "s1" 100 2000)), reliable r') /\
    getUserSessions "u" (reliable (advance 600000 r'))
    = (Ok [], reliable (advance 600000 r')) /\
    destroyAllUserSessions "u" (reliable (advance 600000 r'))
    = (Ok 0, reliable r'') /\
    record_at r'' "s1" = Some (session_of "s1" 100 2000).
Proof.
  assert (0 < SESSION_TTL_default) as Hpos by (vm_compute; reflexivity).
  assert (record_at busy "s1" = Some (session_of "s1" 100 150)) as Hr
    by (vm_compute; reflexivity).
  assert (live busy (getUserSessionsKey (userId (session_of "s1" 100 150)))
          = Some (Entry (RSet (index_of busy "u")) (Some 600000))) as Hi
    by (vm_compute; reflexivity).
  assert (600000 <= clock busy + 600000 < clock busy + SESSION_TTL_default)
    as Hdt by (split; vm_compute; [discriminate|reflexivity]).
  split; [exact Hpos|]. split; [exact Hr|]. split; [exact Hi|].
  split; [exact Hdt|].
  destruct (index_expires_before_session SESSION_TTL_default Hpos "s1"
              (session_of "s1" 100 150) (index_of busy "u") 600000 2000
              600000 busy 0 Hr Hi Hdt)
    as (r' & E & G & r'' & D & R).
  exists r', r''. split; [exact E|]. split; [exact G|].
  split; [exact D|exact R].
Defined.

(** A third session for user [u] on the quiet server. *)
Lemma createSession_within_cap_witness :
  0 < SESSION_TTL_default /\
  index_ok quiet (o_userId login) = true /\
  ("s3" ∉ index_of quiet (o_userId login)) /\
  (length (live_sessions quiet (o_userId login)) < MAX_SESSIONS_PER_USER)%nat /\
  exists r' r'',
    createSession SESSION_TTL_default login "s3" 1000 (reliable quiet)
    = (Ok (created login "s3" 1000), reliable r') /\
    record_at r' "s1" = record_at quiet "s1" /\
    index_ok r' (o_userId login) = true /\
    validateSession SESSION_TTL_default "s3" 2000 (reliable r')
    = (Ok (set_lastAccessedAt 2000 (created login "s3" 1000)), reliable r'').
Proof.
  assert (0 < SESSION_TTL_default) as Hpos by (vm_compute; reflexivity).
  assert (index_ok quiet (o_userId login) = true) as Hok
    by (vm_compute; reflexivity).
  assert ("s3" ∉ index_of quiet (o_userId login)) as Hfresh.
  { apply (bool_decide_unpack _). vm_compute. exact I. }
  assert (length (live_sessions quiet (o_userId login))
          < MAX_SESSIONS_PER_USER)%nat as Hcap.
  { apply Nat.ltb_lt. vm_compute. reflexivity. }
  split; [exact Hpos|]. split; [exact Hok|]. split; [exact Hfresh|].
  split; [exact Hcap|].
  destruct (createSession_within_cap SESSION_TTL_default Hpos login "s3"
              1000 2000 quiet 0 Hok Hfresh Hcap)
    as (r' & r'' & E & _ & O & K & V).
  exists r', r''. split; [exact E|]. split.
  { apply O. discriminate. }
  split; [exact K|exact V].
Defined.

(** The session [s1] of the busy server is read, changed and destroyed. *)
Lemma index_ok_kept_witness :
  0 < SESSION_TTL_default /\
  record_at busy "s1" = Some (session_of "s1" 100 150) /\
  holds_string busy (getUserSessionsKey "u") = false /\
  index_ok busy "u" = true /\
  index_ok (kv (snd (getSession SESSION_TTL_default "s1" 2000 (reliable busy))))
    "u" = true /\
  index_ok (kv (snd (destroySession "s1" (reliable busy)))) "u" = true.
Proof.
  assert (0 < SESSION_TTL_default) as Hpos by (vm_compute; reflexivity).
  assert (record_at busy "s1" = Some (session_of "s1" 100 150)) as Hr
    by (vm_compute; reflexivity).
  assert (holds_string busy
            (getUserSessionsKey (userId (session_of "s1" 100 150))) = false)
    as Hs by (vm_compute; reflexivity).
  assert (index_ok busy "u" = true) as Hok by (vm_compute; reflexivity).
  split; [exact Hpos|]. split; [exact Hr|]. split; [exact Hs|].
  split; [exact Hok|].
  destruct (index_ok_kept SESSION_TTL_default Hpos "s1"
              (session_of "s1" 100 150) "u" ∅ 2000 busy 0 Hr Hs Hok)
    as (G & _ & D).
  split; [exact G|exact D].
Defined.
End SessionExamples.

Section GuardExamples.
Import Redis SessionService Guards Instances Examples.

(** A request with the session [s1] in its header and a bearer token that
    does not verify goes through on the session; a request with a good
    token only goes through on the token, without [sessionId]. *)
Lemma hybrid_guard_session_first_witness :
  (x_session_id with_session = Some "s1" /\ "s1" ≠ "") /\
  authorization with_session = Some "Bearer bad" /\
  verify_demo "bad" = None /\
  fst (validateSession SESSION_TTL_default "s1" 2000 (reliable busy))
  = Ok (session_of "s1" 100 2000) /\
  (exists request',
     fst (canActivate SESSION_TTL_default verify_demo with_session 2000
            (reliable busy))
     = Ok (true, request') /\
     session request' = Some (session_of "s1" 100 2000) /\
     user request'
     = Some (User "u" "u@example.org" "creator" None (Some "s1"))) /\
  x_session_id with_token = None /\
  cookie_sessionId with_token = None /\
  authorization with_token = Some ("Bearer " +:+ "good") /\
  "good" ≠ "" /\
  verify_demo "good" = Some (Payload "u" "u@example.org" "creator" None) /\
  exists request',
    canActivate SESSION_TTL_default verify_demo with_token 2000 (reliable busy)
    = (Ok (true, request'), reliable busy) /\
    user request' = Some (User "u" "u@example.org" "creator" None None) /\
    session request' = None.
Proof.
  assert (x_session_id with_session = Some "s1" /\ "s1" ≠ "") as Hid
    by (split; [reflexivity|discriminate]).
  assert (fst (validateSession SESSION_TTL_default "s1" 2000 (reliable busy))
          = Ok (session_of "s1" 100 2000)) as Hv
    by (vm_compute; reflexivity).
  assert (x_session_id with_token = None) as Hh by reflexivity.
  assert (cookie_sessionId with_token = None) as Hc by reflexivity.
  assert (authorization with_token = Some ("Bearer " +:+ "good")) as Ha
    by reflexivity.
  assert ("good" ≠ "") as Hne by discriminate.
  assert (verify_demo "good" = Some (Payload "u" "u@example.org" "creator" None))
    as Hp by reflexivity.
  split; [exact Hid|]. split; [reflexivity|]. split; [reflexivity|].
  split; [exact Hv|]. split.
  - destruct (hybrid_guard_session_first SESSION_TTL_default verify_demo
                with_session 2000 (reliable busy)) as (Hs & _).
    destruct (validateSession SESSION_TTL_default "s1" 2000 (reliable busy))
      as [res w'] eqn:E.
    simpl in Hv. rewrite Hv in E.
    destruct (Hs "s1" (session_of "s1" 100 2000) w' (or_introl Hid) E)
      as (request' & Ec & S & U & _).
    exists request'. split; [exact (f_equal fst Ec)|]. split; [exact S|exact U].
  - split; [exact Hh|]. split; [exact Hc|]. split; [exact Ha|].
    split; [exact Hne|]. split; [exact Hp|].
    destruct (hybrid_guard_session_first SESSION_TTL_default verify_demo
                with_token 2000 (reliable busy)) as (_ & Htok).
    destruct (Htok (reliable busy)
                (or_introl (conj (or_introl Hh) (conj (or_introl Hc) eq_refl))))
      as (_ & Hbearer).
    destruct (Hbearer "good" Ha Hne) as (Hok & _).
    destruct (Hok _ Hp) as (request' & Ec & U & S & _).
    exists request'. split; [exact Ec|]. split; [exact U|exact S].
Defined.


(** Logging out of the session [s1] of the busy server. *)
Lemma logout_revokes_the_session_only_witness :
  record_at busy "s1" = Some (session_of "s1" 100 150) /\
  "s1" ≠ "" /\
  holds_string busy (getUserSessionsKey "u") = false /\
  exists r',
    AuthController.logout (session_identity (session_of "s1" 100 150))
      (reliable busy)
    = (Ok (AuthController.MkAnswer true None), reliable r') /\
    SessionAuthGuard.canActivate SESSION_TTL_default with_session 2000
      (reliable r')
    = (Throw (UnauthorizedException "Invalid or expired session"),
       reliable r') /\
    canActivate SESSION_TTL_default verify_demo
      (Req (Some "s1") None (Some "Bearer good") None None) 2000 (reliable r')
    = (Ok (true,
           set_user (User "u" "u@example.org" "creator" None None)
             (Req (Some "s1") None (Some "Bearer good") None None)),
       reliable r').
Proof.
  assert (record_at busy (sessionId (session_of "s1" 100 150))
          = Some (session_of "s1" 100 150)) as Hr
    by (vm_compute; reflexivity).
  assert (sessionId (session_of "s1" 100 150) ≠ "") as Hne by discriminate.
  assert (holds_string busy
            (getUserSessionsKey (userId (session_of "s1" 100 150))) = false)
    as Hs by (vm_compute; reflexivity).
  split; [exact Hr|]. split; [exact Hne|]. split; [exact Hs|].
  destruct (logout_revokes_the_session_only SESSION_TTL_default verify_demo
              (session_of "s1" 100 150) busy 0 Hr Hne Hs)
    as (r' & E & _ & G & T).
  exists r'. split; [exact E|]. split.
  - apply G. reflexivity.
  - apply (T _ 2000 "good" (Payload "u" "u@example.org" "creator" None));
      [reflexivity|reflexivity|discriminate|reflexivity].
Defined.

(** User [u] revokes the session whose id starts with [s2]. *)
Lemma revokeSession_own_sessions_only_witness :
  index_ok busy "u" = true /\
  exists ans r',
    AuthController.revokeSession (session_identity (session_of "s1" 100 150))
      "s2..." (reliable busy)
    = (Ok ans, reliable r') /\
    (ans = AuthController.MkAnswer false (Some "Session not found") /\ r' = busy
     \/
     exists d,
       ans = AuthController.MkAnswer true None /\
       userId d = "u" /\
       record_at r' (sessionId d) = None).
Proof.
  assert (index_ok busy
            (u_userId (session_identity (session_of "s1" 100 150))) = true)
    as Hok by (vm_compute; reflexivity).
  split; [exact Hok|].
  destruct (revokeSession_own_sessions_only
              (session_identity (session_of "s1" 100 150)) "s2..." busy 0 Hok)
    as (ans & r' & E & [(A & R & _)|(d & A & _ & U & _ & G & _)]).
  - exists ans, r'. split; [exact E|]. left. split; [exact A|exact R].
  - exists ans, r'. split; [exact E|]. right. exists d.
    split; [exact A|]. split; [exact U|exact G].
Defined.

(** The id of the session [s2] as [getSessions] shows it, handed back. *)
Lemma revokeSession_of_masked_id_witness :
  index_ok busy "u" = true /\
  session_of "s2" 200 250 ∈ live_sessions busy "u" /\
  no_dot (AuthController.substring_to 16 "s2") = true /\
  (forall d', d' ∈ live_sessions busy "u" ->
     startsWith (AuthController.substring_to 16 "s2") (sessionId d') = true ->
     d' = session_of "s2" 200 250) /\
  exists r',
    AuthController.revokeSession (session_identity (session_of "s1" 100 150))
      (AuthController.mask "s2") (reliable busy)
    = (Ok (AuthController.MkAnswer true None), reliable r') /\
    record_at r' "s2" = None.
Proof.
  assert (index_ok busy
            (u_userId (session_identity (session_of "s1" 100 150))) = true)
    as Hok by (vm_compute; reflexivity).
  assert (session_of "s2" 200 250
          ∈ live_sessions busy
              (u_userId (session_identity (session_of "s1" 100 150)))) as Hin.
  { apply (bool_decide_unpack _). vm_compute. exact I. }
  assert (no_dot (AuthController.substring_to 16
                    (sessionId (session_of "s2" 200 250))) = true) as Hdot
    by reflexivity.
  assert (forall d',
            d' ∈ live_sessions busy
                   (u_userId (session_identity (session_of "s1" 100 150))) ->
            startsWith
              (AuthController.substring_to 16
                 (sessionId (session_of "s2" 200 250))) (sessionId d') = true ->
            d' = session_of "s2" 200 250) as Huniq.
  { apply (Forall_forall
             (fun d' => startsWith "s2" (sessionId d') = true ->
                        d' = session_of "s2" 200 250)).
    apply (bool_decide_unpack _). vm_compute. exact I. }
  split; [exact Hok|]. split; [exact Hin|]. split; [exact Hdot|].
  split; [exact Huniq|].
  destruct (revokeSession_of_masked_id
              (session_identity (session_of "s1" 100 150))
              (session_of "s2" 200 250) busy 0 Hok Hin Hdot Huniq)
    as (r' & E & G & _).
  exists r'. split; [exact E|exact G].
Defined.

(** User [u] asks to revoke the session [...]. *)
Lemma revokeSession_dots_takes_latest_witness :
  index_ok busy "u" = true /\
  live_sessions busy "u" ≠ [] /\
  exists d r',
    AuthController.revokeSession (session_identity (session_of "s1" 100 150))
      "..." (reliable busy)
    = (Ok (AuthController.MkAnswer true None), reliable r') /\
    d ∈ live_sessions busy "u" /\
    record_at r' (sessionId d) = None.
Proof.
  assert (index_ok busy
            (u_userId (session_identity (session_of "s1" 100 150))) = true)
    as Hok by (vm_compute; reflexivity).
  assert (live_sessions busy
            (u_userId (session_identity (session_of "s1" 100 150))) ≠ [])
    as Hne by (vm_compute; discriminate).
  split; [exact Hok|]. split; [exact Hne|].
  destruct (revokeSession_dots_takes_latest
              (session_identity (session_of "s1" 100 150)) busy 0 Hok Hne)
    as (d & r' & E & Hd & _ & G).
  exists d, r'. split; [exact E|]. split; [exact Hd|exact G].
Defined.

(** User [u] logs in on the quiet server and comes back with the session. *)
Lemma login_opens_a_session_witness :
  0 < SESSION_TTL_default /\
  accounts "u@example.org" = Some account /\
  compare_demo "secret" (AuthService.password_hash account) = true /\
  AuthService.status account = "active" /\
  index_ok quiet (AuthService.id account) = true /\
  ("s3" ∉ index_of quiet (AuthService.id account)) /\
  (length (live_sessions quiet (AuthService.id account))
   < MAX_SESSIONS_PER_USER)%nat /\
  extractSessionId (Req (Some "s3") None None None None) = Some "s3" /\
  exists r' r'' request',
    fst (AuthService.login SESSION_TTL_default accounts compare_demo sign_demo
           "u@example.org" "secret" None None "s3" 1000 (reliable quiet))
    = Ok (AuthService.MkAuthResponse (AuthService.withoutPassword account)
            "good" "s3") /\
    snd (AuthService.login SESSION_TTL_default accounts compare_demo sign_demo
           "u@example.org" "secret" None None "s3" 1000 (reliable quiet))
    = reliable r' /\
    SessionAuthGuard.canActivate SESSION_TTL_default
      (Req (Some "s3") None None None None) 2000 (reliable r')
    = (Ok (true, request'), reliable r'') /\
    user request' = Some (User "u" "u@example.org" "creator" None (Some "s3")).
Proof.
  assert (0 < SESSION_TTL_default) as Hpos by (vm_compute; reflexivity).
  assert (accounts "u@example.org" = Some account) as Hf by reflexivity.
  assert (compare_demo "secret" (AuthService.password_hash account) = true)
    as Hp by reflexivity.
  assert (AuthService.status account = "active") as Ha by reflexivity.
  assert (index_ok quiet (AuthService.id account) = true) as Hok
    by (vm_compute; reflexivity).
  assert ("s3" ∉ index_of quiet (AuthService.id account)) as Hfresh.
  { apply (bool_decide_unpack _). vm_compute. exact I. }
  assert (length (live_sessions quiet (AuthService.id account))
          < MAX_SESSIONS_PER_USER)%nat as Hcap.
  { apply Nat.ltb_lt. vm_compute. reflexivity. }
  assert (extractSessionId (Req (Some "s3") None None None None) = Some "s3")
    as Hid by reflexivity.
  split; [exact Hpos|]. split; [exact Hf|]. split; [exact Hp|].
  split; [exact Ha|]. split; [exact Hok|]. split; [exact Hfresh|].
  split; [exact Hcap|]. split; [exact Hid|].
  destruct (login_opens_a_session SESSION_TTL_default Hpos accounts
              compare_demo sign_demo "u@example.org" "secret" None None "s3"
              1000 2000 (Req (Some "s3") None None None None) account quiet 0
              Hf Hp Ha Hok Hfresh Hcap Hid)
    as (r' & r'' & request' & E & G & U).
  exists r', r'', request'.
  split; [exact (f_equal fst E)|]. split; [exact (f_equal snd E)|].
  split; [exact G|exact U].
Defined.

(** A login with an unknown email, one with a wrong password. *)
Lemma login_rejected_opens_nothing_witness :
  accounts "nobody@example.org" = None /\
  AuthService.login SESSION_TTL_default accounts compare_demo sign_demo
    "nobody@example.org" "secret" None None "s3" 1000 (reliable quiet)
  = (Throw (UnauthorizedException
              "No account found with this email. Please register first."),
     reliable quiet) /\
  accounts "u@example.org" = Some account /\
  compare_demo "guess" (AuthService.password_hash account) = false /\
  AuthService.login SESSION_TTL_default accounts compare_demo sign_demo
    "u@example.org" "guess" None None "s3" 1000 (reliable quiet)
  = (Throw (UnauthorizedException "Incorrect password. Please try again."),
     reliable quiet).
Proof.
  assert (accounts "nobody@example.org" = None) as Hn by reflexivity.
  assert (accounts "u@example.org" = Some account) as Hf by reflexivity.
  assert (compare_demo "guess" (AuthService.password_hash account) = false)
    as Hp by reflexivity.
  split; [exact Hn|]. split.
  { destruct (login_rejected_opens_nothing SESSION_TTL_default accounts
                compare_demo sign_demo "nobody@example.org" "secret" None None
                "s3" 1000 (reliable quiet)) as [H1 _].
    exact (H1 Hn). }
  split; [exact Hf|]. split; [exact Hp|].
  destruct (login_rejected_opens_nothing SESSION_TTL_default accounts
              compare_demo sign_demo "u@example.org" "guess" None None
              "s3" 1000 (reliable quiet)) as (_ & H2 & _).
  exact (H2 account Hf Hp).
Defined.

(** The sessions of user [u] as the endpoint shows them. *)
Lemma getSessions_masks_and_marks_witness :
  index_ok busy "u" = true /\
  exists S,
    AuthController.getSessions (session_identity (session_of "s1" 100 150))
      (reliable busy)
    = (Ok S, reliable busy) /\
    forall (i j : nat) s1 s2,
      S !! i = Some s1 -> S !! j = Some s2 ->
      AuthController.isCurrent s1 = true ->
      AuthController.isCurrent s2 = true -> i = j.
Proof.
  assert (index_ok busy
            (u_userId (session_identity (session_of "s1" 100 150))) = true)
    as Hok by (vm_compute; reflexivity).
  split; [exact Hok|].
  destruct (getSessions_masks_and_marks
              (session_identity (session_of "s1" 100 150)) busy 0 Hok)
    as (L & S & _ & E & _ & U & _).
  exists S. split; [exact E|exact U].
Defined.

(** User [u] logs out everywhere on the busy server. *)
Lemma logoutAll_revokes_listed_witness :
  holds_string busy (getUserSessionsKey "u") = false /\
  ("s1" ∈ index_of busy "u") /\
  extractSessionId with_session = Some "s1" /\
  exists r',
    AuthController.logoutAll (session_identity (session_of "s1" 100 150))
      (reliable busy)
    = (Ok (true, 5), reliable r') /\
    SessionAuthGuard.canActivate SESSION_TTL_default with_session 2000
      (reliable r')
    = (Throw (UnauthorizedException "Invalid or expired session"),
       reliable r') /\
    AuthController.getSessions (session_identity (session_of "s1" 100 150))
      (reliable r')
    = (Ok [], reliable r').
Proof.
  assert (holds_string busy
            (getUserSessionsKey
               (u_userId (session_identity (session_of "s1" 100 150))))
          = false) as Hs by (vm_compute; reflexivity).
  assert ("s1" ∈ index_of busy
                   (u_userId (session_identity (session_of "s1" 100 150))))
    as Hin.
  { apply (bool_decide_unpack _). vm_compute. exact I. }
  assert (extractSessionId with_session = Some "s1") as Hid by reflexivity.
  split; [exact Hs|]. split; [exact Hin|]. split; [exact Hid|].
  destruct (logoutAll_revokes_listed SESSION_TTL_default
              (session_identity (session_of "s1" 100 150)) busy 0 Hs)
    as (r' & E & G & L).
  exists r'. split; [exact E|]. split; [|exact L].
  exact (G with_session 2000 "s1" Hin Hid).
Defined.
End GuardExamples.

Section RateLimitExamples.
Import Redis RateLimit Examples.

(** Three requests of one client within a window on an empty server. *)
Lemma rate_limit_window_witness :
  Forall (fun dt => 0 <= dt) (fst <$> [(1, 1700000001000); (2, 1700000003000)])
  /\ live (Redis.empty 0) (RateLimitMiddleware.key_of client) = None
  /\ total (fst <$> [(1, 1700000001000); (2, 1700000003000)]) < 60
  /\ window_served RateLimitMiddleware.config (RateLimitMiddleware.key_of client)
       (RateLimitMiddleware.use client) 1700000000000
       [(1, 1700000001000); (2, 1700000003000)] (Redis.empty 0) 0.
Proof.
  assert (Forall (fun dt => 0 <= dt)
            (fst <$> [(1, 1700000001000); (2, 1700000003000)])) as Hdts.
  { repeat constructor; vm_compute; discriminate. }
  assert (live (Redis.empty 0) (RateLimitMiddleware.key_of client) = None)
    as Hnone by reflexivity.
  assert (total (fst <$> [(1, 1700000001000); (2, 1700000003000)]) < 60)
    as Ht by (vm_compute; reflexivity).
  split; [exact Hdts|]. split; [exact Hnone|]. split; [exact Ht|].
  destruct (rate_limit_window client 1700000000000
              [(1, 1700000001000); (2, 1700000003000)] (Redis.empty 0) 0 Hdts)
    as [(_ & _ & Hw) _].
  exact (Hw Hnone Ht).
Defined.

(** A request that finds the connection down at the increment. *)
Lemma rate_limit_fails_open_witness :
  errors (ex_world (snd (RateLimitMiddleware.use client 1700000000000 down)))
  ≠ errors (ex_world down) /\
  fst (RateLimitMiddleware.use client 1700000000000 down) = Ok tt /\
  nexts (snd (RateLimitMiddleware.use client 1700000000000 down)) = 1%nat.
Proof.
  assert (errors
            (ex_world (snd (RateLimitMiddleware.use client 1700000000000 down)))
          ≠ errors (ex_world down)) as Herr
    by (vm_compute; discriminate).
  split; [exact Herr|].
  destruct (rate_limit_fails_open client 1700000000000 down) as [Hg _].
  destruct (Hg _ _ (surjective_pairing _)) as [Hopen _].
  exact (Hopen Herr).
Defined.




(** A forwarded chain of two addresses. *)
Lemma getClientIp_first_forwarded_witness :
  no_comma "203.0.113.9 " = true /\
  getClientIp (Req (Some "203.0.113.9 , 10.0.0.1") (Some "10.0.0.7") None)
  = "203.0.113.9" /\
  getClientIp (Req (Some ", 10.0.0.1") (Some "10.0.0.7") None) = "".
Proof.
  assert (no_comma "203.0.113.9 " = true) as Ha by reflexivity.
  split; [exact Ha|].
  destruct (getClientIp_first_forwarded "203.0.113.9 " " 10.0.0.1"
              (Some "10.0.0.7") None Ha) as (H1 & H2 & _).
  split; [exact H1|exact H2].
Defined.

(** A request of [client], and the session key [session:s1]. *)
Lemma rate_limit_touches_one_key_witness :
  "session:s1" ≠ RateLimitMiddleware.key_of client /\
  "session:s1" ≠ AuthRateLimitMiddleware.key_of client /\
  live (kv (ex_world (snd (RateLimitMiddleware.use client 1700000000000 down))))
    "session:s1"
  = live (kv (ex_world down)) "session:s1" /\
  live (kv (ex_world (snd (AuthRateLimitMiddleware.use client 1700000000000 up))))
    "session:s1"
  = live (kv (ex_world up)) "session:s1".
Proof.
  assert ("session:s1" ≠ RateLimitMiddleware.key_of client) as H1
    by (vm_compute; discriminate).
  assert ("session:s1" ≠ AuthRateLimitMiddleware.key_of client) as H2
    by (vm_compute; discriminate).
  split; [exact H1|]. split; [exact H2|]. split.
  - destruct (rate_limit_touches_one_key client 1700000000000 down
                "session:s1") as [Hg _].
    exact (Hg H1).
  - destruct (rate_limit_touches_one_key client 1700000000000 up
                "session:s1") as [_ Ha].
    exact (Ha H2).
Defined.

(** The connection fails at the second command of the first request of
    [client] on an empty server. *)
Lemma rate_limit_lost_expire_witness :
  live (Redis.empty 0) (RateLimitMiddleware.key_of client) = None /\
  counter_without_expiry RateLimitMiddleware.config
    (RateLimitMiddleware.key_of client) (RateLimitMiddleware.use client)
    1700000000000 (Redis.empty 0) 0.
Proof.
  assert (live (Redis.empty 0) (RateLimitMiddleware.key_of client) = None)
    as Hnone by reflexivity.
  split; [exact Hnone|].
  destruct (rate_limit_lost_expire client 1700000000000 (Redis.empty 0) 0)
    as [Hg _].
  exact (Hg Hnone).
Defined.

(** The login counter of [client] stands at nine; the forwarder sends one
    request to any route. *)
Lemma forwarded_for_reaches_auth_counter_witness :
  getClientIp forwarder = "auth:" +:+ getClientIp client /\
  counting (AuthRateLimitMiddleware.key_of client) nine_logins 9 900 /\
  1 <= 9 /\
  exists r1,
    ex_world (snd (RateLimitMiddleware.use forwarder 1700000000000
                     (start (reliable nine_logins))))
    = reliable r1 /\
    counting (AuthRateLimitMiddleware.key_of client) r1 10 900 /\
    fst (AuthRateLimitMiddleware.use client 1700000001000
           (start (reliable r1)))
    = Throw (HttpException TOO_MANY_REQUESTS
               (message AuthRateLimitMiddleware.config) 900).
Proof.
  assert (getClientIp forwarder = "auth:" +:+ getClientIp client) as Hip
    by reflexivity.
  assert (counting (AuthRateLimitMiddleware.key_of client) nine_logins 9 900)
    as Hc by (vm_compute; reflexivity).
  assert (1 <= 9) as Hpos by (vm_compute; discriminate).
  split; [exact Hip|]. split; [exact Hc|]. split; [exact Hpos|].
  destruct (forwarded_for_reaches_auth_counter forwarder client
              1700000000000 1700000001000 nine_logins 0 9 900 Hip Hc Hpos)
    as (_ & res & h & k & r1 & E & C & Hrej).
  exists r1. split; [exact (f_equal (fun p => ex_world (snd p)) E)|].
  split; [exact C|].
  destruct Hrej as (r2 & h' & E2); [vm_compute; discriminate|].
  exact (f_equal fst E2).
Defined.

(** A response that already carries a reset time and a header of the
    application passes through the limiter of the auth routes. *)
Lemma rate_limit_headers_kept_witness :
  "X-RateLimit-Reset" ≠ "X-RateLimit-Limit" /\
  "X-RateLimit-Reset" ≠ "X-RateLimit-Remaining" /\
  headers
    (snd (AuthRateLimitMiddleware.use client 1700000000000
            (Exchange (reliable (Redis.empty 0))
               {[ "X-RateLimit-Reset" := 1700000060000 ]} 1)))
    !! "X-RateLimit-Reset"
  = Some 1700000060000.
Proof.
  assert ("X-RateLimit-Reset" ≠ "X-RateLimit-Limit") as H1 by discriminate.
  assert ("X-RateLimit-Reset" ≠ "X-RateLimit-Remaining") as H2 by discriminate.
  split; [exact H1|]. split; [exact H2|].
  destruct (rate_limit_headers_kept client 1700000000000
              (Exchange (reliable (Redis.empty 0))
                 {[ "X-RateLimit-Reset" := 1700000060000 ]} 1)
              "X-RateLimit-Reset") as [_ Hauth].
  rewrite (Hauth H1 H2). reflexivity.
Defined.

End RateLimitExamples.

Section TokenEncryptionExamples.
Import Base64 TokenEncryptionService Instances Examples.

(** A token with the delimiter in it, encrypted and decrypted. *)
Lemma encrypt_decrypt_roundtrip_witness :
  String.length key32 = 32%nat /\ String.length iv16 = 16%nat /\
  exists blob log1,
    encrypt key32 "ya29.a0:token" iv16 [] = (Ok blob, log1) /\
    fst (decrypt key32 blob []) = Ok "ya29.a0:token".
Proof.
  split; [reflexivity|]. split; [reflexivity|].
  destruct (encrypt_decrypt_roundtrip key32 "ya29.a0:token" iv16 []
              eq_refl eq_refl) as [(blob & log1 & E & D & _) _].
  exists blob, log1. split; [exact E|exact (D [])].
Defined.



(** The blob of a token is recognised; a token is not. *)
Lemma isEncrypted_recognises_blobs_witness :
  String.length key32 = 32%nat /\ String.length iv16 = 16%nat /\
  "ya29.a0:token" ≠ "" /\
  isEncrypted "ya29.a0:token" = false /\
  (exists blob,
     encrypt key32 "ya29.a0:token" iv16 []
     = (Ok blob, [RandomBytes 16; CreateCipheriv]) /\
     isEncrypted blob = true) /\
  decrypt key32 "ya29.a0:token" []
  = (Throw (Error "Failed to decrypt token"), []).
Proof.
  assert ("ya29.a0:token" ≠ "") as Hne by discriminate.
  assert (isEncrypted "ya29.a0:token" = false) as Hno by reflexivity.
  split; [reflexivity|]. split; [reflexivity|]. split; [exact Hne|].
  split; [exact Hno|].
  destruct (isEncrypted_recognises_blobs key32 "ya29.a0:token" iv16
              "ya29.a0:token" [] eq_refl eq_refl) as (Hblob & _ & Hrej).
  split; [exact (Hblob Hne)|exact (Hrej Hne Hno)].
Defined.

(** One token under two IVs. *)
Lemma encrypt_distinct_ivs_witness :
  String.length key32 = 32%nat /\
  String.length iv16 = 16%nat /\ String.length iv16' = 16%nat /\
  "ya29.a0:token" ≠ "" /\ iv16 ≠ iv16' /\
  exists blob1 blob2,
    fst (encrypt key32 "ya29.a0:token" iv16 []) = Ok blob1 /\
    fst (encrypt key32 "ya29.a0:token" iv16' []) = Ok blob2 /\
    blob1 ≠ blob2.
Proof.
  assert ("ya29.a0:token" ≠ "") as Hne by discriminate.
  assert (iv16 ≠ iv16') as Hiv by discriminate.
  split; [reflexivity|]. split; [reflexivity|]. split; [reflexivity|].
  split; [exact Hne|]. split; [exact Hiv|].
  destruct (encrypt_distinct_ivs key32 "ya29.a0:token" iv16 iv16' [] []
              eq_refl eq_refl eq_refl Hne Hiv)
    as (b1 & b2 & E1 & E2 & D & _).
  exists b1, b2. split; [exact E1|]. split; [exact E2|exact D].
Defined.

End TokenEncryptionExamples.

Section StoreExamples.
Import Redis RedisService Instances Examples.

(** A record stored for five seconds, and one for a negative time. *)
Lemma setJson_getJson_witness :
  (forall t, Some 5 = Some t -> 0 <= t) /\
  (exists r',
     (setJson "k" (session_of "s1" 100 150) (Some 5) ;; getJson "k")
       (reliable (Redis.empty 0))
     = (Ok (Some (session_of "s1" 100 150)), reliable r') /\
     ttl_of r' "k" = Some 5) /\
  -5 < 0 /\
  setJson "k" (session_of "s1" 100 150) (Some (-5)) (reliable (Redis.empty 0))
  = (Throw StoreError, World (Redis.empty 0) [] 1).
Proof.
  assert (forall t, Some 5 = Some t -> 0 <= t) as Hs.
  { intros t E. injection E as <-. vm_compute. discriminate. }
  assert (-5 < 0) as Hneg by reflexivity.
  split; [exact Hs|]. split.
  - destruct (setJson_getJson "k" (session_of "s1" 100 150) (Some 5)
                (Redis.empty 0) 0) as [Hok _].
    destruct (Hok Hs) as (r' & E & T & _).
    exists r'. split; [exact E|]. apply (T 5 eq_refl). reflexivity.
  - split; [exact Hneg|].
    destruct (setJson_getJson "k" (session_of "s1" 100 150) (Some (-5))
                (Redis.empty 0) 0) as [_ Hbad].
    exact (Hbad (-5) eq_refl Hneg).
Defined.

(** The third and the eleventh attempt to reconnect. *)
Lemma reconnectStrategy_bounds_witness :
  3 <= 10 /\ RedisModule.reconnectStrategy 3 = inl 300 /\
  10 < 11 /\
  RedisModule.reconnectStrategy 11
  = inr (Error "Max reconnection attempts reached").
Proof.
  assert (3 <= 10) as H3 by (vm_compute; discriminate).
  assert (10 < 11) as H11 by reflexivity.
  split; [exact H3|]. split.
  - destruct (reconnectStrategy_bounds 3) as [Hlow _].
    destruct (Hlow H3) as [E _]. exact E.
  - split; [exact H11|].
    destruct (reconnectStrategy_bounds 11) as [_ Hhigh].
    exact (Hhigh H11).
Defined.

End StoreExamples.
